(** * webpack-symmetric: proxy policy and certificate bootstrap

    A shallow embedding of [index.js] (createBackendProxy), [ssl.js]
    (createSelfSignedCert) and [server.js] (certServer), with the
    properties of the specification stated and proved over it.  Where
    the repository holds two copies of a file the current one is
    embedded; of the older index.js the request hook is kept, in
    [Legacy], and the older ssl.js in [LegacySsl].  Where the code
    departs from what its documentation says, the notion of the
    documentation is defined in [Intent] and the code is run on an
    input that tells the two apart.

    Text is modelled by its sequence of code units, one [ascii] per unit,
    which is exact for units below 256 (Node decodes HTTP header values as
    latin1, so cookie and content-type headers are covered in full). *)

From Stdlib Require Import Ascii String List ZArith Lia Bool.
From stdpp Require Import base option list gmap strings pretty.

(** ** JavaScript strings *)

Module Js.

Definition code (c : ascii) : nat := nat_of_ascii c.

Definition LF : ascii := ascii_of_nat 10.
Definition DQUOTE : ascii := ascii_of_nat 34.
Definition nl : string := String LF "".
Definition dq : string := String DQUOTE "".

Definition between (lo hi : nat) (c : ascii) : bool :=
  (lo <=? code c)%nat && (code c <=? hi)%nat.

(** [\w] of a RegExp without the [u] flag: [A-Za-z0-9_]. *)
Definition is_word (c : ascii) : bool :=
  between 65 90 c || between 97 122 c || between 48 57 c || (code c =? 95)%nat.

(** WhiteSpace and LineTerminator code units below 256: TAB, LF, VT, FF,
    CR, SP and NBSP.  This is [\s] and the set that [trim] removes. *)
Definition is_space (c : ascii) : bool :=
  between 9 13 c || (code c =? 32)%nat || (code c =? 160)%nat.

(** LineTerminator units below 256, the ones [.] does not match. *)
Definition is_line_terminator (c : ascii) : bool :=
  (code c =? 10)%nat || (code c =? 13)%nat.

(** Canonicalize of a case-insensitive RegExp without the [u] flag:
    the upper-case form when that is a single unit.  Below 256 this
    moves a-z and the accented lower-case letters other than the
    division sign down by 32; the upper-case forms of 181 and 255 lie
    above 255 and are the image of no other unit of this range. *)
Definition canonicalize (c : ascii) : ascii :=
  if between 97 122 c || (between 224 254 c && negb (code c =? 247)%nat)
  then ascii_of_nat (code c - 32) else c.

Fixpoint drop (n : nat) (s : string) : string :=
  match n, s with
  | S k, String _ s' => drop k s'
  | _, _ => s
  end.

Fixpoint take (n : nat) (s : string) : string :=
  match n, s with
  | S k, String c s' => String c (take k s')
  | _, _ => ""
  end.

(** [s] without the unit [c]. *)
Fixpoint without (c : ascii) (s : string) : string :=
  match s with
  | "" => ""
  | String x s' => if Ascii.eqb x c then without c s' else String x (without c s')
  end.

(** The number of units accepted by [ok] at the start of [s]. *)
Fixpoint run (ok : ascii → bool) (s : string) : nat :=
  match s with
  | String c s' => if ok c then S (run ok s') else 0
  | "" => 0
  end.

(** [s] with every unit in its canonical letter case. *)
Definition canonical (s : string) : string :=
  String.string_of_list_ascii (canonicalize <$> String.list_ascii_of_string s).

(** [s.split(sep)] for a separator of one unit. *)
Fixpoint split (sep : ascii) (s : string) : list string :=
  match s with
  | "" => [""]
  | String c s' =>
      if Ascii.eqb c sep then "" :: split sep s'
      else match split sep s' with
           | [] => [String c ""]
           | x :: xs => String c x :: xs
           end
  end.

(** [parts.join(sep)]. *)
Fixpoint join (sep : string) (parts : list string) : string :=
  match parts with
  | [] => ""
  | [x] => x
  | x :: xs => x +:+ sep +:+ join sep xs
  end.

(** [s.indexOf(sub) !== -1]. *)
Fixpoint includes (sub s : string) : bool :=
  String.prefix sub s ||
  match s with
  | "" => false
  | String _ s' => includes sub s'
  end.

Fixpoint trim_start (s : string) : string :=
  match s with
  | String c s' => if is_space c then trim_start s' else s
  | "" => ""
  end.

Fixpoint trim_end (s : string) : string :=
  match s with
  | "" => ""
  | String c s' =>
      match trim_end s' with
      | "" => if is_space c then "" else String c ""
      | t => String c t
      end
  end.

(** [s.trim()]. *)
Definition trim (s : string) : string := trim_end (trim_start s).

(** [arr.indexOf(x) !== -1] for an array of strings; [None] is
    [undefined] (an index past the end of the array read), which no
    string equals. *)
Definition index_of_found (arr : list string) (x : option string) : bool :=
  match x with
  | Some s => bool_decide (s ∈ arr)
  | None => false
  end.

(** [arr.splice(start, 0, ...items)] for a negative or zero [start]
    given as [back] = [-start]: the insertion point is
    [max (length arr - back) 0]. *)
Definition splice_insert_back (back : nat) (items arr : list string) : list string :=
  let at_ := length arr - back in
  List.firstn at_ arr ++ items ++ List.skipn at_ arr.

End Js.

(** ** Regular expressions

    The fragment of ECMAScript patterns that the program uses: literal
    units, [.], [\w], [\s], the greedy quantifiers [?], [*] and [+] on one
    unit, a final [$], alternation at the top level, and the flags [i]
    and [g].  Matching is the backtracking search of the language
    definition: alternatives in order, quantifiers longest first. *)

Module RegExp.

Inductive atom : Type :=
| Chr (c : ascii)
| Dot
| Word
| Space.

Inductive quant : Type := One | Opt | Star | Plus.

Inductive term : Type :=
| T (a : atom) (q : quant)
| End.

Record t : Type := mk {
  alternatives : list (list term);
  ignoreCase : bool;
  global : bool
}.

Definition atom_ok (ic : bool) (a : atom) (c : ascii) : bool :=
  match a with
  | Chr x =>
      if ic then Ascii.eqb (Js.canonicalize x) (Js.canonicalize c)
      else Ascii.eqb x c
  | Dot => negb (Js.is_line_terminator c)
  | Word => Js.is_word c
  | Space => Js.is_space c
  end.

(** One unit accepted by [ok], then the continuation [k]. *)
Definition one (ok : ascii → bool) (k : string → option nat) (s : string) : option nat :=
  match s with
  | String c s' => if ok c then S <$> k s' else None
  | "" => None
  end.

(** As many units accepted by [ok] as possible, giving one back at a
    time while the continuation [k] fails. *)
Fixpoint star (ok : ascii → bool) (k : string → option nat) (s : string) : option nat :=
  match s with
  | String c s' =>
      if ok c then
        match star ok k s' with
        | Some n => Some (S n)
        | None => k s
        end
      else k s
  | "" => k s
  end.

(** Length of the match of the sequence [ts] at the start of [s]. *)
Fixpoint match_terms (ic : bool) (ts : list term) : string → option nat :=
  match ts with
  | [] => λ _, Some 0
  | End :: r => λ s, match s with "" => match_terms ic r s | _ => None end
  | T a q :: r =>
      let k := match_terms ic r in
      let ok := atom_ok ic a in
      match q with
      | One => one ok k
      | Opt => λ s, match one ok k s with Some n => Some n | None => k s end
      | Star => star ok k
      | Plus => one ok (star ok k)
      end
  end.

Fixpoint match_alternatives (ic : bool) (alts : list (list term)) (s : string) : option nat :=
  match alts with
  | [] => None
  | a :: r =>
      match match_terms ic a s with
      | Some n => Some n
      | None => match_alternatives ic r s
      end
  end.

(** Length of the match of [re] that starts at the first unit of [s]. *)
Definition match_at (re : t) (s : string) : option nat :=
  match_alternatives (ignoreCase re) (alternatives re) s.

(** [re.exec(s)] from index 0: start and length of the leftmost match. *)
Fixpoint exec (re : t) (s : string) : option (nat * nat) :=
  match match_at re s with
  | Some n => Some (0, n)
  | None =>
      match s with
      | String _ s' => (λ '(i, n), (S i, n)) <$> exec re s'
      | "" => None
      end
  end.

(** [re.test(s)] for a RegExp without the [g] flag (no [lastIndex]). *)
Definition test (re : t) (s : string) : bool :=
  match exec re s with Some _ => true | None => false end.

(** Deleting the leftmost match: [s.replace(re, '')] without [g]. *)
Fixpoint replace_first (re : t) (s : string) : string :=
  match match_at re s with
  | Some n => Js.drop n s
  | None =>
      match s with
      | String c s' => String c (replace_first re s')
      | "" => ""
      end
  end.

(** Deleting every match, left to right: [s.replace(re, '')] with [g].
    [skip] units of a match found earlier are still to be dropped; an
    empty match deletes nothing and the search moves on by one unit. *)
Fixpoint replace_all_from (re : t) (skip : nat) (s : string) : string :=
  match s with
  | "" => ""
  | String c s' =>
      match skip with
      | S k => replace_all_from re k s'
      | 0 =>
          match match_at re s with
          | Some (S n) => replace_all_from re n s'
          | _ => String c (replace_all_from re 0 s')
          end
      end
  end.

(** [s.replace(re, '')]. *)
Definition replace (re : t) (s : string) : string :=
  if global re then replace_all_from re 0 s else replace_first re s.

Definition literal (s : string) : list term :=
  (λ c, T (Chr c) One) <$> String.list_ascii_of_string s.

End RegExp.

(** *** [new RegExp(source, flags)]

    The pattern source is read into the fragment above.  [None] stands
    for a source that is not a pattern (the constructor throws a
    SyntaxError) or that uses syntax outside the fragment (groups,
    classes, braces, [^], lazy quantifiers, other escapes). *)

Module Pattern.
Import RegExp.

Definition is_quantifier (c : ascii) : option quant :=
  if Ascii.eqb c "?" then Some Opt
  else if Ascii.eqb c "*" then Some Star
  else if Ascii.eqb c "+" then Some Plus
  else None.

(** SyntaxCharacter: [^ $ \ . * + ? ( ) [ ] { } |]. *)
Definition is_syntax_char (c : ascii) : bool :=
  bool_decide (c ∈ String.list_ascii_of_string "^$\.*+?()[]{}|").

(** The atom written [\c]. *)
Definition escaped (c : ascii) : option atom :=
  if Ascii.eqb c "w" then Some Word
  else if Ascii.eqb c "s" then Some Space
  else if is_syntax_char c || Ascii.eqb c "/" then Some (Chr c)
  else None.

(** [done]: alternatives already closed, latest first; [cur]: terms
    of the open alternative, latest first; [esc]: a backslash was just
    read. *)
Fixpoint parse (done : list (list term)) (cur : list term) (esc : bool)
    (src : string) : option (list (list term)) :=
  match src with
  | "" => if esc then None else Some (rev (rev cur :: done))
  | String c rest =>
      if esc then
        a ← escaped c; parse done (T a One :: cur) false rest
      else if Ascii.eqb c "\" then parse done cur true rest
      else if Ascii.eqb c "|" then parse (rev cur :: done) [] false rest
      else if Ascii.eqb c "." then parse done (T Dot One :: cur) false rest
      else if Ascii.eqb c "$" then parse done (End :: cur) false rest
      else match is_quantifier c with
           | Some q =>
               match cur with
               | T a One :: cur' => parse done (T a q :: cur') false rest
               | _ => None
               end
           | None =>
               if is_syntax_char c then None
               else parse done (T (Chr c) One :: cur) false rest
           end
  end.

Definition compile (source : string) (i g : bool) : option RegExp.t :=
  alts ← parse [] [] false source; Some (RegExp.mk alts i g).

(** A source without syntax characters: it stands for itself. *)
Definition plain (s : string) : bool :=
  forallb (λ c, negb (is_syntax_char c)) (String.list_ascii_of_string s).

(** *** Origins as patterns *)

Definition origin_unit_ok (c : ascii) : bool :=
  negb (is_syntax_char c) || Ascii.eqb c ".".

(** An origin that the pattern reads unit by unit: it is not empty and
    has no syntax character but [.]. *)
Definition origin_ok (o : string) : Prop :=
  o ≠ "" ∧ forallb origin_unit_ok (String.list_ascii_of_string o) = true.

Definition unit_fits (x c : ascii) : bool :=
  if Ascii.eqb x "." then negb (Js.is_line_terminator c)
  else Ascii.eqb (Js.canonicalize x) (Js.canonicalize c).

(** [o] is found at the start of [s], letter case aside, a [.] of [o]
    standing for any unit but a line terminator. *)
Fixpoint fits (o s : string) : bool :=
  match o, s with
  | "", _ => true
  | String x o', String c s' => unit_fits x c && fits o' s'
  | String _ _, "" => false
  end.

(** [t] is [s] read from left to right with every origin met cut out. *)
Inductive Removed (origins : list string) : string → string → Prop :=
| removed_end : Removed origins "" ""
| removed_cut o s t :
    o ∈ origins → fits o s = true →
    Removed origins (Js.drop (String.length o) s) t →
    Removed origins s t
| removed_keep c s t :
    (∀ o, o ∈ origins → fits o (String c s) = false) →
    Removed origins s t →
    Removed origins (String c s) (String c t).

(** The terms that [parse] reads an origin into. *)
Definition origin_terms (o : string) : list RegExp.term :=
  (λ c, if Ascii.eqb c "." then RegExp.T RegExp.Dot RegExp.One
        else RegExp.T (RegExp.Chr c) RegExp.One) <$> String.list_ascii_of_string o.

End Pattern.

(** ** The Node runtime: heap, file system, child processes

    Everything the program touches outside its own variables.  Arrays
    handed in by the caller live in [heap] and are named by their
    location, so that two references to one array see the same
    contents.  A file is named by the pair that [path.join(dir, name)]
    is given.  What the outside world answers (environment variables,
    the output and success of child processes, fresh key material) is
    the [Host]; console output is left out.  A file holds the text
    that was written to it, and a [Buffer] is the string of its bytes.

    [files] holds the files that the program reads: those of the
    storage root and the page of the distribution server.  They are
    written by [fs] and by [openssl].  Of the other commands the
    probes write nothing, and [security add-trusted-cert] changes the
    login keychain of the user, which the program never reads and
    [files] does not hold: of such a command the model keeps that it
    was run, in [trace], and whether it failed. *)

Module Node.

Definition path : Type := string * string.

(** The path as it is spelled in a command line. *)
Definition render (p : path) : string := p.1 +:+ "/" +:+ p.2.

Inductive Error : Type :=
| ENOENT (p : string)
| EEXIST (d : string)
| ExitStatus (cmd : string)
| SyntaxError (source : string)
| ZlibError
| TypeError
| HeadersSent.

Inductive Event : Type :=
| Mkdir (d : string)
| Wrote (p : path) (data : string)
| Spawn (cmd : string)
| Listen (address : string) (port : nat).

Record World : Type := mkWorld {
  heap : gmap nat (list string);
  dirs : gset string;
  files : gmap path string;
  trace : list Event
}.

Record Host : Type := mkHost {
  env : gmap string string;
  argv : list string;
  platform : string;
  homedir : string;
  module_dir : string;
  (** [mkdirSync d] can create [d]: its parent exists and is writable. *)
  can_mkdir : string → bool;
  (** Standard output of a child process that writes no file of the
      storage root; [None] when it exits with a failure. *)
  stdout_of : string → option string;
  (** Key and certificate made by [openssl req -x509]. *)
  new_ca : option (string * string);
  (** Key and signing request made by [openssl req]. *)
  new_request : option (string * string);
  (** Certificate and serial file made by [openssl x509 -req]. *)
  new_cert : option (string * string)
}.

Inductive Result (A : Type) : Type :=
| Ok (a : A)
| Throw (e : Error).
Arguments Ok {A} a.
Arguments Throw {A} e.

(** Code that reads and changes a state [S] and may throw. *)
Definition St (S A : Type) : Type := S → Result A * S.

#[global] Instance St_ret {S : Type} : MRet (St S) := λ A a w, (Ok a, w).

#[global] Instance St_bind {S : Type} : MBind (St S) := λ A B f m w,
  match m w with
  | (Ok a, w') => f a w'
  | (Throw e, w') => (Throw e, w')
  end.

Definition throw {S A : Type} (e : Error) : St S A := λ w, (Throw e, w).

(** [try { m } catch (err) { h err }]. *)
Definition catch {S A : Type} (m : St S A) (h : Error → St S A) : St S A := λ w,
  match m w with
  | (Ok a, w') => (Ok a, w')
  | (Throw e, w') => h e w'
  end.

Abbreviation M := (St World).

Definition emit (e : Event) : M unit := λ w,
  (Ok (), mkWorld (heap w) (dirs w) (files w) (trace w ++ [e])).

Definition existsSync (p : path) : M bool := λ w,
  (Ok (bool_decide (is_Some (files w !! p))), w).

Definition readFileSync (p : path) : M string := λ w,
  match files w !! p with
  | Some data => (Ok data, w)
  | None => (Throw (ENOENT (render p)), w)
  end.

Definition store (p : path) (data : string) : M unit := λ w,
  if bool_decide (p.1 ∈ dirs w)
  then (Ok (), mkWorld (heap w) (dirs w) (<[p := data]> (files w)) (trace w ++ [Wrote p data]))
  else (Throw (ENOENT (render p)), w).

Definition writeFileSync (p : path) (data : string) : M unit := store p data.

Definition mkdirSync (host : Host) (d : string) : M unit := λ w,
  if bool_decide (d ∈ dirs w) then (Throw (EEXIST d), w)
  else if can_mkdir host d
  then (Ok (), mkWorld (heap w) ({[d]} ∪ dirs w) (files w) (trace w ++ [Mkdir d]))
  else (Throw (ENOENT d), w).

(** [childProcess.execSync(cmd)] for a command that writes none of
    the files of [files]: a probe, or [security]. *)
Definition execSync (host : Host) (cmd : string) : M string :=
  emit (Spawn cmd);;
  match stdout_of host cmd with
  | Some out => mret out
  | None => throw (ExitStatus cmd)
  end.

(** [childProcess.execSync(cmd)] for an [openssl] command: on success
    it has written [outputs], in order. *)
Definition execSync_writing (cmd : string) (outputs : option (list (path * string))) : M unit :=
  emit (Spawn cmd);;
  match outputs with
  | Some outs =>
      catch (foldr (λ o k, store o.1 o.2;; k) (mret ()) outs)
            (λ _, throw (ExitStatus cmd))
  | None => throw (ExitStatus cmd)
  end.

(** The files [fs] written over [m], in order. *)
Definition put_all (fs : list (path * string)) (m : gmap path string) : gmap path string :=
  foldl (λ m o, <[o.1 := o.2]> m) m fs.

(** What a run has done between the worlds [w] and [w']: the files it
    wrote and the events it added; arrays are as they were and no
    directory is gone. *)
Record effect (w w' : World) (fs : list (path * string)) (evs : list Event) : Prop := {
  effect_heap : heap w' = heap w;
  effect_dirs : dirs w ⊆ dirs w';
  effect_files : files w' = put_all fs (files w);
  effect_trace : trace w' = trace w ++ evs
}.

(** The run leaves every array as it was. *)
Definition heap_kept {A : Type} (m : M A) : Prop :=
  ∀ w r w', m w = (r, w') → heap w' = heap w.

(** JavaScript truthiness of a value that is a string or undefined. *)
Definition truthy (v : option string) : option string :=
  match v with
  | Some "" => None
  | _ => v
  end.

(** *** [http.ServerResponse]

    What was handed to the client: the status line and headers once
    [writeHead] (or the first write) has sent them, and the payloads
    in order.  Header names are kept in lower case, as Node does. *)

Definition Buffer : Type := string.

Inductive Payload : Type :=
| Bytes (b : Buffer)
| Text (s : string).

Record ServerResponse : Type := mkRes {
  statusCode : nat;
  headers : gmap string string;
  headersSent : bool;
  body : list Payload;
  finished : bool
}.

Definition fresh_response : ServerResponse := mkRes 200 ∅ false [] false.

(** [res.writeHead(status, obj)]: throws ERR_HTTP_HEADERS_SENT once
    the header has gone out (Node 12 and later). *)
Definition writeHead (status : nat) (obj : list (string * string)) : St ServerResponse unit :=
  λ r,
  if headersSent r then (Throw HeadersSent, r)
  else (Ok (), mkRes status (list_to_map obj ∪ headers r) true (body r) (finished r)).

Definition hasHeader (name : string) : St ServerResponse bool :=
  λ r, (Ok (bool_decide (is_Some (headers r !! name))), r).

Definition getHeader (name : string) : St ServerResponse (option string) :=
  λ r, (Ok (headers r !! name), r).

Definition removeHeader (name : string) : St ServerResponse unit :=
  λ r,
  if headersSent r then (Throw HeadersSent, r)
  else (Ok (), mkRes (statusCode r) (delete name (headers r)) false (body r) (finished r)).

(** [res.write(chunk)]: the header goes out with the first payload. *)
Definition write (chunk : Payload) : St ServerResponse unit :=
  λ r,
  if finished r then (Ok (), r)
  else (Ok (), mkRes (statusCode r) (headers r) true (body r ++ [chunk]) false).

(** [res.end()], as the stream's own [pipe] calls it. *)
Definition finish : St ServerResponse unit :=
  λ r,
  if finished r then (Ok (), r)
  else (Ok (), mkRes (statusCode r) (headers r) true (body r) true).

(** [res.end(data)]: a second call on a finished response does nothing. *)
Definition end_ (data : Payload) : St ServerResponse unit :=
  λ r,
  if finished r then (Ok (), r)
  else (Ok (), mkRes (statusCode r) (headers r) true (body r ++ [data]) true).

End Node.

(** ** ssl.js: the certificate bootstrap *)

Module Ssl.
Import Node.

Definition opensslCA : string :=
  "openssl req -x509 -nodes -days 9999 -sha256 -newkey rsa:2048".
Definition opensslReq : string := "openssl req -nodes -newkey rsa:2048".
Definition opensslSign : string := "openssl x509 -req -days 9999 -sha256".
Definition caSubj : string :=
  Js.dq +:+ "/C=US/ST=California/L=Berkeley/O=Symmetric/OU=Engineering/CN=Symmetric Proxy CA" +:+ Js.dq.
Definition subj : string :=
  Js.dq +:+ "/C=US/ST=California/L=Berkeley/O=Symmetric/OU=Engineering/CN=Symmetric Proxy" +:+ Js.dq.

Record Options : Type := mkOptions {
  home : option string;
  additionalDomains : option (list string);
  additionalIPs : option (list string)
}.

Record Files : Type := mkFiles {
  key : path;
  cert : path;
  caKey : path;
  caCert : path
}.

(** The RegExp literal [/ {2}/g]. *)
Definition two_spaces : RegExp.t :=
  RegExp.mk [[RegExp.T (RegExp.Chr " ") RegExp.One; RegExp.T (RegExp.Chr " ") RegExp.One]]
            false true.

(** [addDomain] and [addIP]: push unless already there. *)
Definition add (x : string) (arr : list string) : list string :=
  if bool_decide (x ∈ arr) then arr else arr ++ [x].

(** [xs.forEach(add)] on the array [arr]. *)
Definition add_each (xs arr : list string) : list string :=
  foldl (λ acc x, add x acc) arr xs.

Definition caExtData : string :=
  RegExp.replace two_spaces
    (Js.nl +:+ "    [ req ]" +:+ Js.nl
     +:+ "    req_extensions=v3_ca" +:+ Js.nl
     +:+ "    distinguished_name=req_distinguished_name" +:+ Js.nl
     +:+ Js.nl
     +:+ "    [ req_distinguished_name ]" +:+ Js.nl
     +:+ Js.nl
     +:+ "    [ v3_ca ]" +:+ Js.nl
     +:+ "    basicConstraints=CA:true" +:+ Js.nl
     +:+ "    ").

Definition dns_line (index : nat) (domain : string) : string :=
  "DNS." +:+ pretty (index + 1) +:+ " = " +:+ domain.

Definition ip_line (index : nat) (ip : string) : string :=
  "IP." +:+ pretty (index + 1) +:+ " = " +:+ ip.

(** The template literal of [extData], before and after [.replace]. *)
Definition extTemplate (altDomainNames altIPs : list string) : string :=
  Js.nl +:+ "    subjectAltName = @alt_names" +:+ Js.nl
  +:+ Js.nl
  +:+ "    [ alt_names ]" +:+ Js.nl
  +:+ "    " +:+ Js.join Js.nl (imap dns_line altDomainNames) +:+ Js.nl
  +:+ "    " +:+ Js.join Js.nl (imap ip_line altIPs) +:+ Js.nl
  +:+ "  ".

Definition extData (altDomainNames altIPs : list string) : string :=
  RegExp.replace two_spaces (extTemplate altDomainNames altIPs).

Definition storage_root (host : Host) (options : option Options) : string :=
  match truthy (options ≫= home) with
  | Some d => d
  | None =>
      match truthy (env host !! "SYMMETRIC_HOME") with
      | Some d => d
      | None => homedir host +:+ "/.symmetric"
      end
  end.

Definition ca_command (caKey caCert caExt : path) : string :=
  opensslCA +:+ " -keyout " +:+ render caKey +:+ " -out " +:+ render caCert
  +:+ " -config " +:+ render caExt +:+ " -extensions v3_ca -subj " +:+ caSubj.

Definition trust_command (caCert : path) : string :=
  "security add-trusted-cert -k ~/Library/Keychains/login.keychain " +:+ render caCert.

Definition request_command (key csr : path) : string :=
  opensslReq +:+ " -keyout " +:+ render key +:+ " -out " +:+ render csr
  +:+ " -subj " +:+ subj.

Definition sign_command (caCert caKey csr cert ext : path) : string :=
  opensslSign +:+ " -CA " +:+ render caCert +:+ " -CAkey " +:+ render caKey
  +:+ " -CAcreateserial -in " +:+ render csr +:+ " -out " +:+ render cert
  +:+ " -extfile " +:+ render ext.

Definition uname_command : string := "uname -n".
Definition hostname_command : string := "hostname --all-ip-addresses || hostname -I".
Definition ifconfig_command : string :=
  "ifconfig | grep " +:+ Js.dq +:+ "inet " +:+ Js.dq +:+ " | awk {'print $2'}".
Definition dig_command : string := "dig +short myip.opendns.com @resolver1.opendns.com".

(** Lines 53-86: the root certificate, made when its key or its
    certificate is missing. *)
Definition ensure_ca (host : Host) (caKey caCert caExt : path) : M unit :=
  hasKey ← existsSync caKey;
  hasCert ← existsSync caCert;
  if negb hasKey || negb hasCert then
    writeFileSync caExt caExtData;;
    execSync_writing (ca_command caKey caCert caExt)
      ((λ kc, [(caKey, kc.1); (caCert, kc.2)]) <$> new_ca host);;
    catch (execSync host (trust_command caCert);; mret ()) (λ _, mret ())
  else mret ().

(** Lines 88-123: the host name and the addresses of the machine. *)
Definition gather_alt_names (host : Host) (altDomainNames altIPs : list string)
    : M (list string * list string) :=
  altDomainNames ←
    catch (out ← execSync host uname_command;
           mret (altDomainNames ++ [Js.trim out]))
          (λ _, mret altDomainNames);
  altIPs ←
    catch (if bool_decide (platform host ≠ "darwin") then
             out ← execSync host hostname_command;
             mret (add_each (Js.split " " (Js.trim out)) altIPs)
           else
             out ← execSync host ifconfig_command;
             mret (add_each (Js.split Js.LF (Js.trim out)) altIPs))
          (λ _, mret altIPs);
  altIPs ←
    catch (out ← execSync host dig_command;
           mret (add (Js.trim out) altIPs))
          (λ _, mret altIPs);
  mret (altDomainNames, altIPs).

(** Lines 133-150: reuse of the leaf certificate, or a new one. *)
Definition ensure_leaf (host : Host) (key csr cert ext caKey caCert : path)
    (extData : string) : M unit :=
  hasExt ← existsSync ext;
  same ← (if hasExt : bool
          then stored ← readFileSync ext; mret (bool_decide (stored = extData))
          else mret false) : M bool;
  hasKey ← (if same : bool then existsSync key else mret false) : M bool;
  hasCert ← (if hasKey : bool then existsSync cert else mret false) : M bool;
  if hasCert : bool then mret ()
  else
    writeFileSync ext extData;;
    execSync_writing (request_command key csr)
      ((λ kr, [(key, kr.1); (csr, kr.2)]) <$> new_request host);;
    execSync_writing (sign_command caCert caKey csr cert ext)
      ((λ cs, [(cert, cs.1); ((caCert.1, "symmetric_ca.srl"), cs.2)]) <$> new_cert host).

Definition createSelfSignedCert (host : Host) (options : option Options) : M Files :=
  let dir := storage_root host options in
  let caKey := (dir, "symmetric_ca.key") in
  let caCert := (dir, "symmetric_ca.crt") in
  let caExt := (dir, "symmetric_ca.ext") in
  let key := (dir, "symmetric.key") in
  let csr := (dir, "symmetric.csr") in
  let cert := (dir, "symmetric.crt") in
  let ext := (dir, "symmetric.ext") in
  let altDomainNames := ["localhost"] in
  let altIPs := ["127.0.0.1"] in
  let altDomainNames :=
    match options ≫= additionalDomains with
    | Some ds => add_each ds altDomainNames
    | None => altDomainNames
    end in
  let altIPs :=
    match options ≫= additionalIPs with
    | Some ips => add_each ips altIPs
    | None => altIPs
    end in
  catch (mkdirSync host dir) (λ _, mret ());;
  ensure_ca host caKey caCert caExt;;
  names ← gather_alt_names host altDomainNames altIPs;
  ensure_leaf host key csr cert ext caKey caCert (extData names.1 names.2);;
  mret (mkFiles key cert caKey caCert).

(** *** The names the properties use *)

(** A file of the storage root. *)
Definition file (host : Host) (options : option Options) (name : string) : path :=
  (storage_root host options, name).

(** The two arrays before host discovery (lines 37-47). *)
Definition seeded (options : option Options) : list string * list string :=
  (match options ≫= additionalDomains with
   | Some ds => add_each ds ["localhost"]
   | None => ["localhost"]
   end,
   match options ≫= additionalIPs with
   | Some ips => add_each ips ["127.0.0.1"]
   | None => ["127.0.0.1"]
   end).

(** The two arrays that [gather_alt_names] leaves, read off the host. *)
Definition discovered (host : Host) (altDomainNames altIPs : list string)
    : list string * list string :=
  let altDomainNames :=
    match stdout_of host uname_command with
    | Some out => altDomainNames ++ [Js.trim out]
    | None => altDomainNames
    end in
  let altIPs :=
    if bool_decide (platform host ≠ "darwin") then
      match stdout_of host hostname_command with
      | Some out => add_each (Js.split " " (Js.trim out)) altIPs
      | None => altIPs
      end
    else
      match stdout_of host ifconfig_command with
      | Some out => add_each (Js.split Js.LF (Js.trim out)) altIPs
      | None => altIPs
      end in
  let altIPs :=
    match stdout_of host dig_command with
    | Some out => add (Js.trim out) altIPs
    | None => altIPs
    end in
  (altDomainNames, altIPs).

(** The SAN set of an invocation, and its document. *)
Definition san_set (host : Host) (options : option Options) : list string * list string :=
  discovered host (seeded options).1 (seeded options).2.

Definition san_document (host : Host) (options : option Options) : string :=
  extData (san_set host options).1 (san_set host options).2.

(** The storage root is there after [mkdirSync]: it was, or it can be made. *)
Definition root_usable (host : Host) (options : option Options) (w : World) : Prop :=
  storage_root host options ∈ dirs w ∨ can_mkdir host (storage_root host options) = true.

(** The leaf certificate on disk is the one for today's SAN set. *)
Definition leaf_current (host : Host) (options : option Options) (w : World) : Prop :=
  files w !! file host options "symmetric.ext" = Some (san_document host options)
  ∧ is_Some (files w !! file host options "symmetric.key")
  ∧ is_Some (files w !! file host options "symmetric.crt").

(** Both files of the root certificate are on disk. *)
Definition ca_present (host : Host) (options : option Options) (w : World) : Prop :=
  is_Some (files w !! file host options "symmetric_ca.key")
  ∧ is_Some (files w !! file host options "symmetric_ca.crt").

#[global] Instance ca_present_dec host options w : Decision (ca_present host options w).
Proof. unfold ca_present. apply _. Defined.

#[global] Instance leaf_current_dec host options w : Decision (leaf_current host options w).
Proof. unfold leaf_current. apply _. Defined.

(** *** The pipeline in closed form

    What a block returns, the files it writes and the events it adds,
    by the answers of [openssl]. *)

Definition making_ca (host : Host) (caKey caCert caExt : path)
    : Result unit * list (path * string) * list Event :=
  match new_ca host with
  | Some (k, c) =>
      (Ok (), [(caExt, caExtData); (caKey, k); (caCert, c)],
       [Wrote caExt caExtData; Spawn (ca_command caKey caCert caExt);
        Wrote caKey k; Wrote caCert c; Spawn (trust_command caCert)])
  | None =>
      (Throw (ExitStatus (ca_command caKey caCert caExt)), [(caExt, caExtData)],
       [Wrote caExt caExtData; Spawn (ca_command caKey caCert caExt)])
  end.

Definition making_leaf (host : Host) (key csr cert ext caKey caCert : path) (doc : string)
    : Result unit * list (path * string) * list Event :=
  match new_request host with
  | Some (k, q) =>
      match new_cert host with
      | Some (c, s) =>
          (Ok (),
           [(ext, doc); (key, k); (csr, q); (cert, c); ((caCert.1, "symmetric_ca.srl"), s)],
           [Wrote ext doc; Spawn (request_command key csr); Wrote key k; Wrote csr q;
            Spawn (sign_command caCert caKey csr cert ext);
            Wrote cert c; Wrote (caCert.1, "symmetric_ca.srl") s])
      | None =>
          (Throw (ExitStatus (sign_command caCert caKey csr cert ext)),
           [(ext, doc); (key, k); (csr, q)],
           [Wrote ext doc; Spawn (request_command key csr); Wrote key k; Wrote csr q;
            Spawn (sign_command caCert caKey csr cert ext)])
      end
  | None =>
      (Throw (ExitStatus (request_command key csr)), [(ext, doc)],
       [Wrote ext doc; Spawn (request_command key csr)])
  end.

(** The same for the whole of [createSelfSignedCert], on a usable
    storage root: the directory, the root certificate, the probes of
    the host, the leaf certificate. *)
Definition made_dir (host : Host) (options : option Options) (w : World) : list Event :=
  if bool_decide (storage_root host options ∈ dirs w) then []
  else if can_mkdir host (storage_root host options)
       then [Mkdir (storage_root host options)] else [].

Definition probes (host : Host) : list Event :=
  [Spawn uname_command;
   Spawn (if bool_decide (platform host ≠ "darwin")
          then hostname_command else ifconfig_command);
   Spawn dig_command].

Definition ca_step (host : Host) (options : option Options) (w : World)
    : Result unit * list (path * string) * list Event :=
  let f := file host options in
  if decide (ca_present host options w) then (Ok (), [], [])
  else making_ca host (f "symmetric_ca.key") (f "symmetric_ca.crt") (f "symmetric_ca.ext").

Definition leaf_step (host : Host) (options : option Options) (w : World)
    : Result unit * list (path * string) * list Event :=
  let f := file host options in
  if decide (leaf_current host options w) then (Ok (), [], [])
  else making_leaf host (f "symmetric.key") (f "symmetric.csr") (f "symmetric.crt")
                   (f "symmetric.ext") (f "symmetric_ca.key") (f "symmetric_ca.crt")
                   (san_document host options).

Definition bootstrap (host : Host) (options : option Options) (w : World)
    : Result Files * list (path * string) * list Event :=
  let f := file host options in
  let ca := ca_step host options w in
  let leaf := leaf_step host options w in
  match ca.1.1 with
  | Throw e => (Throw e, ca.1.2, made_dir host options w ++ ca.2)
  | Ok _ =>
      (match leaf.1.1 with
       | Ok _ => Ok (mkFiles (f "symmetric.key") (f "symmetric.crt")
                             (f "symmetric_ca.key") (f "symmetric_ca.crt"))
       | Throw e => Throw e
       end,
       ca.1.2 ++ leaf.1.2,
       made_dir host options w ++ ca.2 ++ probes host ++ leaf.2)
  end.

End Ssl.

(** ** server.js: the distribution server *)

Module Server.
Import Node.

Definition notFound : string := "404 - Not Found".

(** The request listener handed to [http.createServer], for the page
    [index] and the certificate [cert] read at start-up. *)
Definition listener (index cert : Buffer) (url : string) : St ServerResponse unit :=
  (if bool_decide (url = "/") then
     writeHead 200 [("content-length", pretty (String.length index));
                    ("content-type", "text/html")];;
     end_ (Bytes index)
   else if bool_decide (url = "/symmetric_ca.crt") then
     writeHead 200 [("content-length", pretty (String.length cert));
                    ("content-type", "application/x-x509-ca-cert")];;
     end_ (Bytes cert)
   else mret ());;
  writeHead 404 [("content-length", pretty (String.length notFound));
                 ("content-type", "text/plain")];;
  end_ (Text notFound).

(** [certServer(caCert)]: reads the two files, starts listening, and
    leaves the listener in place. *)
Definition certServer (host : Host) (caCert : path)
    : M (string → St ServerResponse unit) :=
  index ← readFileSync (module_dir host, "server.html");
  cert ← readFileSync caCert;
  emit (Listen "0.0.0.0" 3007);;
  mret (listener index cert).

End Server.

(** ** index.js: the proxy policy *)

Module Proxy.
Import Node.

Definition STANDARD_PATHS : list string :=
  ["api"; "login"; "logout"; "auth"; "deauth"; "setup"; "callback"; "static"; "__debug__"].
Definition STANDARD_SUBPATHS : list string := [].
Definition BACKEND_COOKIE : string := "proxybackend".

(** The part of [Date] that the response hook calls.  [setDate] and
    [getDate] work on the day of the month in local time, a day
    number past the end of the month rolling over into the next. *)
Class DateApi : Type := {
  Date : Type;
  getDate : Date → Z;
  setDate : Date → Z → Date;
  toUTCString : Date → string
}.

(** [zlib.gunzipSync] and [Buffer.prototype.toString]. *)
Record Codec : Type := mkCodec {
  gunzipSync : Buffer → option Buffer;
  utf8_decode : Buffer → string
}.

(** [paths] and [subpaths] are references to the caller's arrays. *)
Record Options : Type := mkOptions {
  backend : string;
  paths : option nat;
  subpaths : option nat;
  originRewrites : option (list string);
  insecure : bool;
  generateCert : bool;
  certServer : bool;
  ssl : option Ssl.Options
}.

(** The request as the hooks read it: [req.method], [req.url] and
    [req.headers.cookie]. *)
Record IncomingMessage : Type := mkReq {
  method : string;
  url : string;
  cookie : option string
}.

(** A value of [proxyRes.headers['set-cookie']]. *)
Inductive SetCookie : Type :=
| Absent
| Single (s : string)
| Many (l : list string).

(** The backend's response as the hooks read and change it: two
    headers, whether [pipe] is still the stream's own, and the RegExp
    of each pair of [data] and [end] listeners put on it. *)
Record ProxyRes : Type := mkProxyRes {
  set_cookie : SetCookie;
  content_type : option string;
  pipe : bool;
  rewriting : list RegExp.t
}.

(** What [bypass] returns: [false], or the url to serve locally. *)
Inductive Bypass : Type :=
| Proxied
| Local (url : string).

(** The RegExp literals [/sessionid=\w+;?/], [/\//g] and [/secure\s*$/]. *)
Definition sessionCookieRe : RegExp.t :=
  RegExp.mk [RegExp.literal "sessionid="
             ++ [RegExp.T RegExp.Word RegExp.Plus; RegExp.T (RegExp.Chr ";") RegExp.Opt]]
            false false.
Definition slashes : RegExp.t :=
  RegExp.mk [[RegExp.T (RegExp.Chr "/") RegExp.One]] false true.
Definition secure_at_end : RegExp.t :=
  RegExp.mk [RegExp.literal "secure" ++ [RegExp.T RegExp.Space RegExp.Star; RegExp.End]]
            false false.

(** [new RegExp(source, flags)]. *)
Definition new_RegExp {S : Type} (source : string) (i g : bool) : St S RegExp.t :=
  match Pattern.compile source i g with
  | Some re => mret re
  | None => throw (SyntaxError source)
  end.

Definition array (h : gmap nat (list string)) (l : nat) : list string :=
  default [] (h !! l).

(** A new array object. *)
Definition alloc (arr : list string) : M nat := λ w,
  let l := fresh (dom (heap w)) in
  (Ok l, mkWorld (<[l := arr]> (heap w)) (dirs w) (files w) (trace w)).

(** A change of the array at [l], in place. *)
Definition update (l : nat) (f : list string → list string) : M unit := λ w,
  (Ok (), mkWorld (<[l := f (array (heap w) l)]> (heap w)) (dirs w) (files w) (trace w)).

(** *** The closures of [createBackendProxy], over its local names *)

Module Hooks.
Section Closures.
Context `{DateApi}.

(** [paths] and [subpaths] are the locations of the two arrays;
    they are read in the heap of the moment of the call. *)
Definition bypass (paths subpaths : nat) (h : gmap nat (list string))
    (req : IncomingMessage) : Bypass :=
  let parts := Js.split "/" (url req) in
  if (negb (bool_decide (method req = "GET")) && negb (bool_decide (method req = "HEAD")))
     || Js.index_of_found (array h paths) (parts !! 1)
     || Js.index_of_found (array h subpaths) (parts !! 2)
  then Proxied
  else Local (url req).

(** [cookies] is [proxyReq.getHeader('cookie')]; the result is the
    header after the hook. *)
Definition onProxyReq (backendCookieRe : RegExp.t) (cookies : option string)
    : option string :=
  match truthy cookies with
  | Some c =>
      if negb (RegExp.test backendCookieRe c)
      then Some (RegExp.replace sessionCookieRe c)
      else cookies
  | None => cookies
  end.

Definition backend_cookie (backend : string) (expires : Date) : string :=
  BACKEND_COOKIE +:+ "=" +:+ backend +:+ "; expires=" +:+ toUTCString expires
  +:+ "; path=/".

Definition expired_session : string :=
  "sessionid=; expires=Thu, 01 Jan 1970 00:00:01 GMT; path=/".

(** [proxyRes.headers['set-cookie'] || []], made an array. *)
Definition as_array (v : SetCookie) : list string :=
  match v with
  | Absent => []
  | Single s => match truthy (Some s) with Some s' => [s'] | None => [] end
  | Many l => l
  end.

Definition onProxyRes (backend : string) (backendCookieRe : RegExp.t)
    (now : Date) (proxyRes : ProxyRes) (req : IncomingMessage) : ProxyRes :=
  if negb (RegExp.test backendCookieRe (default "" (cookie req))) then
    let resCookies := as_array (set_cookie proxyRes) in
    let expires := setDate now (getDate now + 365) in
    let resCookies := resCookies ++ [backend_cookie backend expires] in
    let resCookies :=
      if (length (filter (λ c, RegExp.test sessionCookieRe c = true) resCookies) =? 0)%nat
      then resCookies ++ [expired_session]
      else resCookies in
    mkProxyRes (Many resCookies) (content_type proxyRes) (pipe proxyRes)
               (rewriting proxyRes)
  else proxyRes.

(** The wrapper put around [onProxyRes] in insecure mode.  On a
    header that is one string the loop assigns to the units of a
    primitive string, which changes nothing. *)
Definition onProxyRes_insecure (onProxyRes : Date → ProxyRes → IncomingMessage → ProxyRes)
    (now : Date) (proxyRes : ProxyRes) (req : IncomingMessage) : ProxyRes :=
  let cookies :=
    match set_cookie proxyRes with
    | Many l => Many (RegExp.replace secure_at_end <$> l)
    | v => v
    end in
  onProxyRes now
    (mkProxyRes cookies (content_type proxyRes) (pipe proxyRes) (rewriting proxyRes))
    req.

(** The wrapper put around [onProxyRes] when there are origins to
    rewrite: on an HTML response [pipe] is made a no-op and the
    [data] and [end] listeners are put on the stream. *)
Definition onProxyRes_rewrite (re : RegExp.t)
    (onProxyRes : Date → ProxyRes → IncomingMessage → ProxyRes)
    (now : Date) (proxyRes : ProxyRes) (req : IncomingMessage) : ProxyRes :=
  let proxyRes := onProxyRes now proxyRes req in
  match truthy (content_type proxyRes) with
  | Some ct =>
      if Js.includes "text/html" ct
      then mkProxyRes (set_cookie proxyRes) (content_type proxyRes) false
                      (rewriting proxyRes ++ [re])
      else proxyRes
  | None => proxyRes
  end.

(** The [data] listener, on the buffer [body] of the closure. *)
Definition on_data (body data : Buffer) : Buffer := body +:+ data.

(** The [end] listener. *)
Definition on_end (codec : Codec) (re : RegExp.t) (body : Buffer)
    : St ServerResponse unit :=
  has ← hasHeader "content-encoding";
  enc ← getHeader "content-encoding";
  body ← (if has && bool_decide (enc = Some "gzip")
          then match gunzipSync codec body with
               | Some plain => mret plain
               | None => throw ZlibError
               end
          else mret body) : St ServerResponse Buffer;
  let body := RegExp.replace re (utf8_decode codec body) in
  removeHeader "content-encoding";;
  end_ (Text body).

End Closures.
End Hooks.

Section Policy.
Context `{DateApi}.

Record Policy : Type := mkPolicy {
  target : string;
  headers_Referer : string;
  autoRewrite : bool;
  logLevel : string;
  changeOrigin : bool;
  xfwd : bool;
  (** reads the arrays it closes over in the heap it is run in *)
  bypass : gmap nat (list string) → IncomingMessage → Bypass;
  (** from and to the [cookie] header of [proxyReq] *)
  onProxyReq : option string → option string;
  (** [new Date()], then [proxyRes] and [req] *)
  onProxyRes : Date → ProxyRes → IncomingMessage → ProxyRes;
  protocolRewrite : option string;
  ssl_material : option (Buffer * Buffer)
}.

Definition set_onProxyRes (p : Policy)
    (f : Date → ProxyRes → IncomingMessage → ProxyRes) : Policy :=
  mkPolicy (target p) (headers_Referer p) (autoRewrite p) (logLevel p) (changeOrigin p)
           (xfwd p) (bypass p) (onProxyReq p) f (protocolRewrite p) (ssl_material p).

Definition set_protocolRewrite (p : Policy) (v : string) : Policy :=
  mkPolicy (target p) (headers_Referer p) (autoRewrite p) (logLevel p) (changeOrigin p)
           (xfwd p) (bypass p) (onProxyReq p) (onProxyRes p) (Some v) (ssl_material p).

Definition set_ssl (p : Policy) (v : Buffer * Buffer) : Policy :=
  mkPolicy (target p) (headers_Referer p) (autoRewrite p) (logLevel p) (changeOrigin p)
           (xfwd p) (bypass p) (onProxyReq p) (onProxyRes p) (protocolRewrite p) (Some v).

Definition createBackendProxy (host : Host) (options : Options) : M Policy :=
  let debug := Js.includes "webpack" (default "" (env host !! "DEBUG")) in
  let backend := backend options in
  paths ← match paths options with Some l => mret l | None => alloc [] end;
  subpaths ← match subpaths options with Some l => mret l | None => alloc [] end;
  backendCookieRe ← new_RegExp (BACKEND_COOKIE +:+ "=" +:+ backend +:+ ";?") false false;
  (* Remove any slashes from the paths *)
  update paths (fmap (RegExp.replace slashes));;
  update subpaths (fmap (RegExp.replace slashes));;
  (* Add the standard paths *)
  update paths (Js.splice_insert_back 1 STANDARD_PATHS);;
  update subpaths (Js.splice_insert_back 1 STANDARD_SUBPATHS);;
  let proxy :=
    mkPolicy backend backend true (if debug then "debug" else "info") true true
             (Hooks.bypass paths subpaths)
             (Hooks.onProxyReq backendCookieRe)
             (Hooks.onProxyRes backend backendCookieRe)
             None None in
  proxy ←
    (if insecure options then
       let proxy := set_protocolRewrite proxy "http" in
       mret (set_onProxyRes proxy (Hooks.onProxyRes_insecure (onProxyRes proxy)))
     else
       let proxy := set_protocolRewrite proxy "https" in
       if generateCert options
          || bool_decide (env host !! "GENERATE_CERT" = Some "true")
          || existsb (Js.includes "webpack-dev-server") (argv host)
       then
         sslFiles ← Ssl.createSelfSignedCert host (ssl options);
         key ← readFileSync (Ssl.key sslFiles);
         cert ← readFileSync (Ssl.cert sslFiles);
         let proxy := set_ssl proxy (key, cert) in
         (if certServer options || bool_decide (env host !! "CERT_SERVER" = Some "true")
          then Server.certServer host (Ssl.caCert sslFiles);; mret ()
          else mret ());;
         mret proxy
       else mret proxy) : M Policy;
  match originRewrites options with
  | Some (o :: os) =>
      re ← new_RegExp (Js.join "|" (o :: os)) true true;
      mret (set_onProxyRes proxy (Hooks.onProxyRes_rewrite re (onProxyRes proxy)))
  | _ => mret proxy
  end.

End Policy.

(** *** The part of http-proxy that runs after the [proxyRes] hook

    The headers of the backend's response have been copied to [res];
    [proxyRes.pipe(res)] is called, and the stream gives its chunks to
    the [data] listeners and then calls the [end] listeners.  The
    stream's own [pipe] writes each chunk to [res] as it comes and
    ends [res] with the stream. *)
Definition respond (codec : Codec) (proxyRes : ProxyRes) (chunks : list Buffer)
    : St ServerResponse unit :=
  (if pipe proxyRes
   then foldr (λ chunk k, write (Bytes chunk);; k) (mret ()) chunks
   else mret ());;
  foldr (λ re k, Hooks.on_end codec re (foldl Hooks.on_data "" chunks);; k)
        (mret ()) (rewriting proxyRes);;
  (if pipe proxyRes then finish else mret ()).

(** *** The names the properties use *)

(** The array behind an option, a new empty one when it is left out. *)
Definition place (l : option nat) (h : gmap nat (list string)) : nat * gmap nat (list string) :=
  match l with
  | Some l => (l, h)
  | None => (fresh (dom h), <[fresh (dom h) := []]> h)
  end.

(** [update] on the heap alone. *)
Definition change (l : nat) (f : list string → list string) (h : gmap nat (list string))
    : gmap nat (list string) :=
  <[l := f (array h l)]> h.

(** The heap after the four changes of lines 48-58. *)
Definition normalized (paths subpaths : nat) (h : gmap nat (list string))
    : gmap nat (list string) :=
  change subpaths (Js.splice_insert_back 1 STANDARD_SUBPATHS)
    (change paths (Js.splice_insert_back 1 STANDARD_PATHS)
       (change subpaths (fmap (RegExp.replace slashes))
          (change paths (fmap (RegExp.replace slashes)) h))).

(** The caller's array, empty when the option is left out. *)
Definition given (h : gmap nat (list string)) (l : option nat) : list string :=
  match l with
  | Some l => array h l
  | None => []
  end.

(** The references of [options] point to arrays, and to two of them. *)
Definition options_wf (options : Options) (h : gmap nat (list string)) : Prop :=
  (∀ l, paths options = Some l → is_Some (h !! l))
  ∧ (∀ l, subpaths options = Some l → is_Some (h !! l))
  ∧ (∀ l l', paths options = Some l → subpaths options = Some l' → l ≠ l').

(** The configured path sets: the caller's tokens without their
    slashes, and the standard ones. *)
Definition top_level (options : Options) (h : gmap nat (list string)) : list string :=
  (Js.without "/" <$> given h (paths options)) ++ STANDARD_PATHS.

Definition second_level (options : Options) (h : gmap nat (list string)) : list string :=
  (Js.without "/" <$> given h (subpaths options)) ++ STANDARD_SUBPATHS.

(** The decision of [bypass] over the path sets: the method is not a
    safe read, or [parts[1]] is a top-level path, or [parts[2]] is a
    second-level subpath, where [parts] is [req.url.split('/')] as the
    code computes it, on the url with its query. *)
Definition routed (options : Options) (h : gmap nat (list string)) (req : IncomingMessage)
    : Prop :=
  (method req ≠ "GET" ∧ method req ≠ "HEAD")
  ∨ (∃ s, Js.split "/" (url req) !! 1 = Some s ∧ s ∈ top_level options h)
  ∨ (∃ s, Js.split "/" (url req) !! 2 = Some s ∧ s ∈ second_level options h).

Definition occurrences (s : string) (l : list string) : nat :=
  length (filter (λ x, x = s) l).

(** The session cookie at the start of [s], by its length: the name,
    a value of one word character or more, and the [;] after it if
    there is one. *)
Definition session_cookie (s : string) : option nat :=
  if String.prefix "sessionid=" s then
    let value := Js.drop 10 s in
    match Js.run Js.is_word value with
    | 0 => None
    | n =>
        Some (10 + n + match Js.drop n value with
                       | String c _ => if Ascii.eqb ";" c then 1 else 0
                       | "" => 0
                       end)
    end
  else None.

(** [s] without its first session cookie. *)
Fixpoint strip_first (s : string) : string :=
  match session_cookie s with
  | Some n => Js.drop n s
  | None =>
      match s with
      | String c s' => String c (strip_first s')
      | "" => ""
      end
  end.

(** The [set-cookie] header as the session hook finds it: in insecure
    mode the wrapper has been over the array before. *)
Definition incoming (options : Options) (v : SetCookie) : SetCookie :=
  if insecure options then
    match v with
    | Many l => Many (RegExp.replace secure_at_end <$> l)
    | v => v
    end
  else v.

(** The marker RegExp of a backend without syntax characters. *)
Definition marker_re (backend : string) : RegExp.t :=
  RegExp.mk [RegExp.literal (BACKEND_COOKIE +:+ "=" +:+ backend)
             ++ [RegExp.T (RegExp.Chr ";") RegExp.Opt]] false false.

(** The RegExp of the origins, when there are origins to rewrite. *)
Definition origin_pattern (options : Options) (re2 : option RegExp.t) : Prop :=
  match originRewrites options with
  | Some (o :: os) => Pattern.compile (Js.join "|" (o :: os)) true true = re2 ∧ is_Some re2
  | _ => re2 = None
  end.

(** The response hook of the policy, by its layers. *)
Definition response_hook `{DateApi} (options : Options) (re : RegExp.t)
    (re2 : option RegExp.t) : Date → ProxyRes → IncomingMessage → ProxyRes :=
  let base := Hooks.onProxyRes (backend options) re in
  let hook := if insecure options then Hooks.onProxyRes_insecure base else base in
  match re2 with
  | Some r => Hooks.onProxyRes_rewrite r hook
  | None => hook
  end.

End Proxy.

(** ** The older copy of index.js

    The repository keeps an earlier [createBackendProxy] beside the
    current one.  Its [bypass] and its insecure wrapper are the same;
    its request hook reads [req.headers.cookie], calls [replace] on it
    and drops the string that [replace] returns. *)

Module Legacy.
Import Node Proxy.

(** From the [cookie] header of the request to the header that is
    forwarded; [undefined.replace] is a TypeError. *)
Definition onProxyReq (backendCookieRe : RegExp.t) (cookie : option string)
    : Result (option string) :=
  if negb (RegExp.test backendCookieRe (default "" cookie)) then
    match cookie with
    | Some c => let _ := RegExp.replace sessionCookieRe c in Ok cookie
    | None => Throw TypeError
    end
  else Ok cookie.

End Legacy.

(** ** [Date] on a machine whose local time zone is UTC

    A date is its time value, the milliseconds since the epoch. *)

Module UtcDate.

Definition msPerDay : Z := 86400000.

(** Year, month (1-12) and day of the month of a day number. *)
Definition civil (day : Z) : Z * Z * Z :=
  let z := (day + 719468)%Z in
  let era := (z / 146097)%Z in
  let doe := (z - era * 146097)%Z in
  let yoe := ((doe - doe / 1460 + doe / 36524 - doe / 146096) / 365)%Z in
  let doy := (doe - (365 * yoe + yoe / 4 - yoe / 100))%Z in
  let mp := ((5 * doy + 2) / 153)%Z in
  let d := (doy - (153 * mp + 2) / 5 + 1)%Z in
  let m := (if mp <? 10 then mp + 3 else mp - 9)%Z in
  let y := (yoe + era * 400 + (if m <=? 2 then 1 else 0))%Z in
  (y, m, d).

Definition getDate (t : Z) : Z := (civil (t / msPerDay)).2.

Definition setDate (t : Z) (date : Z) : Z := (t + (date - getDate t) * msPerDay)%Z.

Definition pad (width : nat) (n : Z) : string :=
  let s := pretty n in
  String.string_of_list_ascii (replicate (width - String.length s) "0"%char) +:+ s.

Definition day_name (wd : Z) : string :=
  nth (Z.to_nat wd) ["Sun"; "Mon"; "Tue"; "Wed"; "Thu"; "Fri"; "Sat"] "".

Definition month_name (m : Z) : string :=
  nth (Z.to_nat (m - 1))
      ["Jan"; "Feb"; "Mar"; "Apr"; "May"; "Jun"; "Jul"; "Aug"; "Sep"; "Oct"; "Nov"; "Dec"] "".

Definition toUTCString (t : Z) : string :=
  let day := (t / msPerDay)%Z in
  let '(y, m, d) := civil day in
  let secs := ((t mod msPerDay) / 1000)%Z in
  day_name ((day + 4) mod 7) +:+ ", " +:+ pad 2 d +:+ " " +:+ month_name m +:+ " "
  +:+ pad 4 y +:+ " " +:+ pad 2 (secs / 3600) +:+ ":" +:+ pad 2 (secs / 60 mod 60)
  +:+ ":" +:+ pad 2 (secs mod 60) +:+ " GMT".

#[global] Instance api : Proxy.DateApi :=
  {| Proxy.Date := Z;
     Proxy.getDate := getDate;
     Proxy.setDate := setDate;
     Proxy.toUTCString := toUTCString |}.

End UtcDate.

(** ** Inputs for the examples *)

Module Example.
Import Node Proxy.

(** A Linux machine named devbox, on which every command but
    [security] succeeds. *)
Definition answers (hostname : string) (cmd : string) : option string :=
  if bool_decide (cmd = Ssl.uname_command) then Some (hostname +:+ Js.nl)
  else if bool_decide (cmd = Ssl.hostname_command) then Some ("10.0.0.5 192.168.1.20 " +:+ Js.nl)
  else if bool_decide (cmd = Ssl.dig_command) then Some ("203.0.113.7" +:+ Js.nl)
  else None.

Definition machine (hostname : string) : Host :=
  mkHost ∅ [] "linux" "/home/dev" "/app/node_modules/webpack-symmetric" (λ _, true)
         (answers hostname)
         (Some ("ca key", "ca certificate"))
         (Some ("leaf key", "leaf request"))
         (Some ("leaf certificate", "01")).

Definition host : Host := machine "devbox".

(** The caller's two arrays, at the locations 0 and 1. *)
Definition world : World :=
  mkWorld {[0 := ["/admin/"; "media"]; 1 := ["export"]]} ∅ ∅ [].

Definition options : Options :=
  mkOptions "http://b1" (Some 0) (Some 1) None true false false None.

Definition rewriting_options : Options :=
  mkOptions "http://b1" (Some 0) (Some 1) (Some ["http://internal.example"])
            true false false None.

(** A codec for bodies that are plain ASCII and not compressed. *)
Definition codec : Codec := mkCodec Some id.

End Example.

(** ** The older copy of ssl.js *)

Module LegacySsl.
Import Node.

(** The older ssl.js: the root certificate is made without an
    extension file, and the leaf certificate is made on every call. *)
Definition ca_command (caKey caCert : path) : string :=
  Ssl.opensslCA +:+ " -keyout " +:+ render caKey +:+ " -out " +:+ render caCert
  +:+ " -subj " +:+ Ssl.caSubj.

Definition createSelfSignedCert (host : Host) (options : option Ssl.Options)
    : M (path * path) :=
  let dir := Ssl.storage_root host options in
  let caKey := (dir, "symmetric_ca.key") in
  let caCert := (dir, "symmetric_ca.crt") in
  let key := (dir, "symmetric.key") in
  let csr := (dir, "symmetric.csr") in
  let cert := (dir, "symmetric.crt") in
  let ext := (dir, "symmetric.ext") in
  let altDomainNames := ["localhost"] in
  let altIPs := ["127.0.0.1"] in
  let altDomainNames :=
    match options ≫= Ssl.additionalDomains with
    | Some ds => Ssl.add_each ds altDomainNames
    | None => altDomainNames
    end in
  let altIPs :=
    match options ≫= Ssl.additionalIPs with
    | Some ips => Ssl.add_each ips altIPs
    | None => altIPs
    end in
  catch (mkdirSync host dir) (λ _, mret ());;
  hasKey ← existsSync caKey;
  hasCert ← existsSync caCert;
  (if negb hasKey || negb hasCert then
     execSync_writing (ca_command caKey caCert)
       ((λ kc, [(caKey, kc.1); (caCert, kc.2)]) <$> new_ca host);;
     catch (execSync host (Ssl.trust_command caCert);; mret ()) (λ _, mret ())
   else mret ());;
  names ← Ssl.gather_alt_names host altDomainNames altIPs;
  writeFileSync ext (Ssl.extData names.1 names.2);;
  execSync_writing (Ssl.request_command key csr)
    ((λ kr, [(key, kr.1); (csr, kr.2)]) <$> new_request host);;
  execSync_writing (Ssl.sign_command caCert caKey csr cert ext)
    ((λ cs, [(cert, cs.1); ((caCert.1, "symmetric_ca.srl"), cs.2)]) <$> new_cert host);;
  mret (key, cert).

End LegacySsl.

(** ** What a run may touch *)

Module Confine.
Import Node.

(** What a run may do: every event it adds satisfies [P], a file
    changes only where [P] allows a write, no directory goes and the
    arrays stay. *)
Definition keeps {A : Type} (P : Event → Prop) (m : M A) : Prop :=
  ∀ w r w', m w = (r, w') →
    heap w' = heap w
    ∧ dirs w ⊆ dirs w'
    ∧ (∃ evs, trace w' = trace w ++ evs ∧ Forall P evs)
    ∧ ∀ p, (∀ data, ¬ P (Wrote p data)) → files w' !! p = files w !! p.

(** The names of the files of the storage root. *)
Definition root_files : list string :=
  ["symmetric_ca.ext"; "symmetric_ca.key"; "symmetric_ca.crt"; "symmetric_ca.srl";
   "symmetric.ext"; "symmetric.key"; "symmetric.csr"; "symmetric.crt"].

(** The commands of the certificate bootstrap. *)
Definition bootstrap_commands (host : Host) (options : option Ssl.Options) : list string :=
  let f := Ssl.file host options in
  [Ssl.ca_command (f "symmetric_ca.key") (f "symmetric_ca.crt") (f "symmetric_ca.ext");
   Ssl.trust_command (f "symmetric_ca.crt");
   Ssl.uname_command; Ssl.hostname_command; Ssl.ifconfig_command; Ssl.dig_command;
   Ssl.request_command (f "symmetric.key") (f "symmetric.csr");
   Ssl.sign_command (f "symmetric_ca.crt") (f "symmetric_ca.key") (f "symmetric.csr")
                    (f "symmetric.crt") (f "symmetric.ext")].

(** An event of the certificate bootstrap: the storage root made, one
    of its files written, one of its commands run. *)
Definition bootstrap_event (host : Host) (options : option Ssl.Options) (e : Event) : Prop :=
  match e with
  | Mkdir d => d = Ssl.storage_root host options
  | Wrote p _ => p ∈ Ssl.file host options <$> root_files
  | Spawn cmd => cmd ∈ bootstrap_commands host options
  | Listen _ _ => False
  end.

End Confine.

(** ** Spaces in a text *)

Module Blanks.

(** [s] starts with two spaces. *)
Definition starts_double (s : string) : bool :=
  match s with
  | String a (String b _) => Ascii.eqb " " a && Ascii.eqb " " b
  | _ => false
  end.

(** No two spaces of [s] are next to each other. *)
Fixpoint tidy (s : string) : bool :=
  match s with
  | "" => true
  | String c r => negb (starts_double (String c r)) && tidy r
  end.

(** [s] has no space. *)
Definition clean (s : string) : bool :=
  forallb (λ c, negb (Ascii.eqb " " c)) (String.list_ascii_of_string s).

End Blanks.

(** ** The stages of [createBackendProxy] *)

Module Stages.
Import Node Proxy.

(** Lines 129-133: the certificate is wanted. *)
Definition wants_certificate (host : Host) (options : Options) : bool :=
  generateCert options
  || bool_decide (env host !! "GENERATE_CERT" = Some "true")
  || existsb (Js.includes "webpack-dev-server") (argv host).

(** Line 140: the distribution server is wanted. *)
Definition wants_server (host : Host) (options : Options) : bool :=
  certServer options || bool_decide (env host !! "CERT_SERVER" = Some "true").

Section Parts.
Context `{DateApi}.

(** Lines 60-109: the object literal. *)
Definition base_policy (host : Host) (options : Options) (backendCookieRe : RegExp.t)
    (paths subpaths : nat) : Policy :=
  mkPolicy (backend options) (backend options) true
           (if Js.includes "webpack" (default "" (env host !! "DEBUG"))
            then "debug" else "info")
           true true
           (Hooks.bypass paths subpaths)
           (Hooks.onProxyReq backendCookieRe)
           (Hooks.onProxyRes (backend options) backendCookieRe)
           None None.

(** Lines 111-145: insecure mode, or https with its certificate. *)
Definition transport (host : Host) (options : Options) (proxy : Policy) : M Policy :=
  if insecure options then
    let proxy := set_protocolRewrite proxy "http" in
    mret (set_onProxyRes proxy (Hooks.onProxyRes_insecure (onProxyRes proxy)))
  else
    let proxy := set_protocolRewrite proxy "https" in
    if wants_certificate host options
    then
      sslFiles ← Ssl.createSelfSignedCert host (ssl options);
      key ← readFileSync (Ssl.key sslFiles);
      cert ← readFileSync (Ssl.cert sslFiles);
      let proxy := set_ssl proxy (key, cert) in
      (if wants_server host options
       then Server.certServer host (Ssl.caCert sslFiles);; mret ()
       else mret ());;
      mret proxy
    else mret proxy.

(** Lines 147-175: the wrapper for origins to rewrite. *)
Definition origins (options : Options) (proxy : Policy) : M Policy :=
  match originRewrites options with
  | Some (o :: os) =>
      re ← new_RegExp (Js.join "|" (o :: os)) true true;
      mret (set_onProxyRes proxy (Hooks.onProxyRes_rewrite re (onProxyRes proxy)))
  | _ => mret proxy
  end.

End Parts.

End Stages.

(** ** What the documentation promises

    The README and the comments of [index.js] speak of the paths of a
    url and of the cookies of a header.  These are the notions that
    the code is compared with where it cuts them out with [split] and
    with a RegExp. *)

Module Intent.
Import Node Proxy.

(** The path of a request: [req.url] up to its query, which starts
    at the first [?]. *)
Fixpoint pathname (url : string) : string :=
  match url with
  | "" => ""
  | String c s => if Ascii.eqb c "?" then "" else String c (pathname s)
  end.

(** The segments of the path, the first being the token after the
    leading slash. *)
Definition segment (n : nat) (url : string) : option string :=
  Js.split "/" (pathname url) !! n.

(** The request is one for the backend: its method is not a safe
    read, or the first segment of its path is a top-level path, or the
    second is a second-level subpath. *)
Definition routed (options : Options) (h : gmap nat (list string)) (req : IncomingMessage)
    : bool :=
  (negb (bool_decide (method req = "GET")) && negb (bool_decide (method req = "HEAD")))
  || Js.index_of_found (top_level options h) (segment 1 (url req))
  || Js.index_of_found (second_level options h) (segment 2 (url req)).

(** Name and value of a cookie pair [name=value]. *)
Fixpoint pair_of (s : string) : string * string :=
  match s with
  | "" => ("", "")
  | String c s' =>
      if Ascii.eqb c "=" then ("", s')
      else (String c (pair_of s').1, (pair_of s').2)
  end.

(** The pairs of a [Cookie] header, or of a [Set-Cookie] value, whose
    first pair is the cookie that is set. *)
Definition cookies (header : string) : list (string * string) :=
  (λ s, pair_of (Js.trim s)) <$> Js.split ";" header.

(** The header holds the marker cookie of [backend]. *)
Definition marked (backend header : string) : bool :=
  bool_decide ((BACKEND_COOKIE, backend) ∈ cookies header).

(** The [Set-Cookie] value sets a session cookie that is not empty. *)
Definition sets_session (value : string) : bool :=
  match cookies value with
  | (n, v) :: _ => bool_decide (n = "sessionid") && negb (bool_decide (v = ""))
  | [] => false
  end.

End Intent.

(** ** More inputs for the examples *)

Module Scenario.
Import Node Proxy.

(** Inputs: a proxy that has been pointed at port 8000 of the
    machine before and is now pointed at port 80. *)
Definition switched : Options :=
  mkOptions "http://localhost:80" None None None true false false None.

(** A machine on which no probe answers and [openssl] is missing. *)
Definition bare : Host :=
  mkHost ∅ [] "linux" "/home/dev" "/app/node_modules/webpack-symmetric" (λ _, true)
         (λ _, None) None None None.

(** A machine whose probes answer with blank lines. *)
Definition offline : Host :=
  mkHost ∅ [] "linux" "/home/dev" "/app/node_modules/webpack-symmetric" (λ _, true)
         (λ cmd, if bool_decide (cmd = Ssl.uname_command) then Some ("devbox" +:+ Js.nl)
                 else if bool_decide (cmd = Ssl.hostname_command) then Some Js.nl
                 else if bool_decide (cmd = Ssl.dig_command) then Some Js.nl
                 else None)
         (Some ("ca key", "ca certificate"))
         (Some ("leaf key", "leaf request"))
         (Some ("leaf certificate", "01")).

(** A storage root with a root certificate and a leaf certificate
    issued for another set of names. *)
Definition issued : World :=
  mkWorld ∅ {["/home/dev/.symmetric"]}
    (list_to_map [(("/home/dev/.symmetric", "symmetric_ca.key"), "ca key");
                  (("/home/dev/.symmetric", "symmetric_ca.crt"), "ca certificate");
                  (("/home/dev/.symmetric", "symmetric.ext"), "old names");
                  (("/home/dev/.symmetric", "symmetric.key"), "old key");
                  (("/home/dev/.symmetric", "symmetric.crt"), "old certificate")])
    [].

(** Inputs: https with a certificate and the distribution server. *)
Definition secure_options : Options :=
  mkOptions "http://b1" (Some 0) (Some 1) None false true true None.

(** The caller's arrays, another array, and the page of the
    distribution server in place. *)
Definition installed : World :=
  mkWorld {[0 := ["/admin/"; "media"]; 1 := ["export"]; 2 := ["other"]]} ∅
          {[("/app/node_modules/webpack-symmetric", "server.html") := "<html></html>"]} [].

(** A codec that takes no input for gzip. *)
Definition strict_codec : Codec := mkCodec (λ _, None) id.

End Scenario.

(** * Properties *)

(** ** The runtime *)

Module NodeFacts.
Import Node.

Lemma effect_refl w : effect w w [] [].
Proof. split; try done. by rewrite app_nil_r. Qed.

Lemma effect_trans w1 w2 w3 fs1 fs2 e1 e2 :
  effect w1 w2 fs1 e1 → effect w2 w3 fs2 e2 → effect w1 w3 (fs1 ++ fs2) (e1 ++ e2).
Proof.
  intros [H1 H2 H3 H4] [G1 G2 G3 G4]. split.
  - congruence.
  - set_solver.
  - rewrite G3, H3. unfold put_all. by rewrite foldl_app.
  - rewrite G4, H4. by rewrite app_assoc.
Qed.

Lemma bind_run {S A B : Type} (m : St S A) (f : A → St S B) w r w1 :
  m w = (r, w1) →
  (m ≫= f) w = match r with Ok a => f a w1 | Throw e => (Throw e, w1) end.
Proof. intros E. unfold mbind, St_bind. by rewrite E. Qed.

End NodeFacts.

(** ** The certificate bootstrap *)

Module SslFacts.
Import Node Ssl NodeFacts.

Lemma mkdir_step host d w :
  ∃ w0, catch (mkdirSync host d) (λ _, mret ()) w = (Ok (), w0)
  ∧ effect w w0 [] (if bool_decide (d ∈ dirs w) then []
                    else if can_mkdir host d then [Mkdir d] else [])
  ∧ (d ∈ dirs w ∨ can_mkdir host d = true → d ∈ dirs w0).
Proof.
  unfold catch, mkdirSync. case_bool_decide as Hd.
  - exists w. split; [done|]. split; [apply effect_refl | auto].
  - destruct (can_mkdir host d) eqn:Hc.
    + eexists. split; [done|]. split; [split; simpl; try done; set_solver|].
      intros _. simpl. set_solver.
    + exists w. split; [done|]. split; [apply effect_refl|]. intros [?|?]; done.
Qed.

Lemma store_ok (p : path) data w :
  p.1 ∈ dirs w →
  store p data w
  = (Ok (), mkWorld (heap w) (dirs w) (<[p := data]> (files w)) (trace w ++ [Wrote p data])).
Proof. intros Hd. unfold store. by rewrite (bool_decide_eq_true_2 _ Hd). Qed.

Ltac run :=
  repeat (progress (unfold writeFileSync, execSync_writing, execSync, mbind, St_bind, mret,
                    St_ret, emit, catch, throw; simpl)
          || (rewrite store_ok by (simpl; assumption))).

Ltac effect_done :=
  eexists; split; [reflexivity|]; split; simpl; try done; by rewrite <- ?app_assoc.

Lemma ensure_ca_kept host (caKey caCert caExt : path) w :
  is_Some (files w !! caKey) ∧ is_Some (files w !! caCert) →
  ensure_ca host caKey caCert caExt w = (Ok (), w).
Proof.
  intros [Hk Hc]. unfold ensure_ca, existsSync, mbind, St_bind.
  rewrite !bool_decide_eq_true_2 by done. reflexivity.
Qed.

Lemma ensure_ca_made host (caKey caCert caExt : path) w :
  ¬ (is_Some (files w !! caKey) ∧ is_Some (files w !! caCert)) →
  caKey.1 ∈ dirs w → caCert.1 ∈ dirs w → caExt.1 ∈ dirs w →
  ∃ w', ensure_ca host caKey caCert caExt w = ((making_ca host caKey caCert caExt).1.1, w')
  ∧ effect w w' (making_ca host caKey caCert caExt).1.2 (making_ca host caKey caCert caExt).2.
Proof.
  intros Hm Hd1 Hd2 Hd3.
  unfold ensure_ca, existsSync, mbind, St_bind.
  assert (negb (bool_decide (is_Some (files w !! caKey)))
          || negb (bool_decide (is_Some (files w !! caCert))) = true) as ->.
  { do 2 case_bool_decide; simpl; tauto. }
  unfold making_ca. destruct (new_ca host) as [[k cc]|]; run.
  - destruct (stdout_of host (trust_command caCert)); effect_done.
  - effect_done.
Qed.

Lemma ensure_leaf_reuse host (key csr cert ext caKey caCert : path) doc w :
  files w !! ext = Some doc → is_Some (files w !! key) → is_Some (files w !! cert) →
  ensure_leaf host key csr cert ext caKey caCert doc w = (Ok (), w).
Proof.
  intros He Hk Hc. unfold ensure_leaf, existsSync, readFileSync, mbind, St_bind, mret, St_ret.
  repeat (lazy beta iota; first [rewrite He | rewrite bool_decide_eq_true_2 by done]).
  reflexivity.
Qed.

Lemma ensure_leaf_renew host (key csr cert ext caKey caCert : path) doc w :
  ¬ (files w !! ext = Some doc ∧ is_Some (files w !! key) ∧ is_Some (files w !! cert)) →
  key.1 ∈ dirs w → csr.1 ∈ dirs w → cert.1 ∈ dirs w → ext.1 ∈ dirs w → caCert.1 ∈ dirs w →
  ∃ w', ensure_leaf host key csr cert ext caKey caCert doc w
        = ((making_leaf host key csr cert ext caKey caCert doc).1.1, w')
  ∧ effect w w' (making_leaf host key csr cert ext caKey caCert doc).1.2
                (making_leaf host key csr cert ext caKey caCert doc).2.
Proof.
  intros Hn Hd1 Hd2 Hd3 Hd4 Hd5.
  unfold ensure_leaf.
  set (renew := (writeFileSync ext doc;; _)).
  assert (∃ w', renew w = ((making_leaf host key csr cert ext caKey caCert doc).1.1, w')
    ∧ effect w w' (making_leaf host key csr cert ext caKey caCert doc).1.2
                (making_leaf host key csr cert ext caKey caCert doc).2) as Hrenew.
  { subst renew.
    unfold making_leaf.
    destruct (new_request host) as [[k q]|]; [destruct (new_cert host) as [[cc s]|]|];
      run; effect_done. }
  clearbody renew.
  unfold existsSync, readFileSync, mbind, St_bind, mret, St_ret. lazy beta.
  destruct (files w !! ext) as [stored|] eqn:He.
  - rewrite (bool_decide_eq_true_2 (is_Some (Some stored))) by done. lazy beta iota.
    rewrite He. lazy beta iota. unfold mret, St_ret. lazy beta iota.
    case_bool_decide as Hs; lazy beta iota; [|done].
    case_bool_decide as Hk; lazy beta iota; [|done].
    case_bool_decide as Hc; lazy beta iota; [|done].
    exfalso. apply Hn. subst. done.
  - rewrite (bool_decide_eq_false_2 (is_Some None)) by (by intros [? ?]). lazy beta iota. done.
Qed.

Lemma spawn_ca_distinct (caKey caCert caExt : path) :
  (∀ key csr, request_command key csr ≠ ca_command caKey caCert caExt)
  ∧ (∀ a b c d e, sign_command a b c d e ≠ ca_command caKey caCert caExt)
  ∧ (∀ a, trust_command a ≠ ca_command caKey caCert caExt)
  ∧ uname_command ≠ ca_command caKey caCert caExt
  ∧ hostname_command ≠ ca_command caKey caCert caExt
  ∧ ifconfig_command ≠ ca_command caKey caCert caExt
  ∧ dig_command ≠ ca_command caKey caCert caExt.
Proof.
  unfold request_command, sign_command, trust_command, ca_command, uname_command,
    hostname_command, ifconfig_command, dig_command, opensslCA, opensslReq, opensslSign.
  repeat split; intros; cbv [String.append]; discriminate.
Qed.

Lemma gather_alt_names_spec host ds ips w :
  ∃ w', gather_alt_names host ds ips w = (Ok (discovered host ds ips), w')
  ∧ effect w w' []
      [Spawn uname_command;
       Spawn (if bool_decide (platform host ≠ "darwin") then hostname_command else ifconfig_command);
       Spawn dig_command].
Proof.
  unfold gather_alt_names, discovered, execSync, catch, mbind, St_bind, emit, mret, St_ret, throw.
  simpl.
  destruct (stdout_of host uname_command); simpl;
  case_bool_decide; simpl;
  destruct (stdout_of host hostname_command); simpl;
  destruct (stdout_of host ifconfig_command); simpl;
  destruct (stdout_of host dig_command); simpl;
  (eexists; split; [reflexivity|]; split; simpl; try done; by rewrite <- ?app_assoc).
Qed.

Lemma effect_files_nil w w' evs p : effect w w' [] evs → files w' !! p = files w !! p.
Proof. intros [_ _ -> _]. done. Qed.

Lemma effect_dirs_in w w' fs evs d : effect w w' fs evs → d ∈ dirs w → d ∈ dirs w'.
Proof. intros [_ ? _ _]. set_solver. Qed.

Ltac eff_close :=
  eexists; split; [reflexivity|];
  rewrite <- ?app_assoc in *; simpl in *; rewrite ?app_nil_r in *; assumption.

Lemma createSelfSignedCert_run host options w :
  root_usable host options w →
  ∃ w', createSelfSignedCert host options w = ((bootstrap host options w).1.1, w')
  ∧ effect w w' (bootstrap host options w).1.2 (bootstrap host options w).2.
Proof.
  intros Hroot. unfold createSelfSignedCert, bootstrap, ca_step, leaf_step, made_dir, probes.
  fold (seeded options).
  set (dir := storage_root host options).
  change (dir, ?n) with (file host options n).
  destruct (mkdir_step host dir w) as (w0 & E0 & Eff0 & Hdir).
  specialize (Hdir Hroot).
  rewrite (bind_run _ _ _ _ _ E0).
  set (made_dir := if bool_decide (dir ∈ dirs w) then _ else _) in *.
  assert (Hf0 : ∀ p, files w0 !! p = files w !! p) by (intros; eapply effect_files_nil; eauto).
  (* the root certificate *)
  destruct (decide (ca_present host options w)) as [Hca|Hca].
  - rewrite (bind_run _ _ _ _ _ (ensure_ca_kept host _ _ _ w0 ltac:(unfold ca_present in Hca; by rewrite !Hf0))).
    simpl.
    destruct (gather_alt_names_spec host (seeded options).1 (seeded options).2 w0) as (w2 & E2 & Eff2).
    rewrite (bind_run _ _ _ _ _ E2).
    fold (san_set host options). fold (san_document host options).
    assert (Hf2 : ∀ p, files w2 !! p = files w !! p).
    { intros. erewrite effect_files_nil by eauto. apply Hf0. }
    destruct (decide (leaf_current host options w)) as [Hl|Hl].
    + destruct Hl as (Hl1 & Hl2 & Hl3).
      rewrite <- (Hf2 (file host options "symmetric.ext")) in Hl1.
      rewrite <- (Hf2 (file host options "symmetric.key")) in Hl2.
      rewrite <- (Hf2 (file host options "symmetric.crt")) in Hl3.
      rewrite (bind_run _ _ _ _ _ (ensure_leaf_reuse host (file host options "symmetric.key")
                  (file host options "symmetric.csr") (file host options "symmetric.crt")
                  (file host options "symmetric.ext") (file host options "symmetric_ca.key")
                  (file host options "symmetric_ca.crt") (san_document host options) w2
                  Hl1 Hl2 Hl3)).
      pose proof (effect_trans _ _ _ _ _ _ _ Eff0 Eff2) as Eff.
      simpl. eff_close.
    + destruct (ensure_leaf_renew host (file host options "symmetric.key")
                  (file host options "symmetric.csr") (file host options "symmetric.crt")
                  (file host options "symmetric.ext") (file host options "symmetric_ca.key")
                  (file host options "symmetric_ca.crt") (san_document host options) w2)
        as (w3 & E3 & Eff3);
        try exact (effect_dirs_in _ _ _ _ _ Eff2 Hdir).
      { unfold leaf_current in Hl. by rewrite !Hf2. }
      rewrite (bind_run _ _ _ _ _ E3).
      pose proof (effect_trans _ _ _ _ _ _ _ (effect_trans _ _ _ _ _ _ _ Eff0 Eff2) Eff3) as Eff.
      simpl in Eff.
      destruct (making_leaf _ _ _ _ _ _ _ _) as [[[[]|e] fs] evs]; simpl in *.
      all: eff_close.
  - destruct (ensure_ca_made host (file host options "symmetric_ca.key")
                (file host options "symmetric_ca.crt") (file host options "symmetric_ca.ext") w0)
      as (w1 & E1 & Eff1); try done.
    { unfold ca_present in Hca. by rewrite !Hf0. }
    rewrite (bind_run _ _ _ _ _ E1).
    pose proof (effect_trans _ _ _ _ _ _ _ Eff0 Eff1) as Eff01. simpl in Eff01.
    assert (Hleafsame : ∀ n, n ≠ "symmetric_ca.key" → n ≠ "symmetric_ca.crt" →
              n ≠ "symmetric_ca.ext" →
              files w1 !! file host options n = files w !! file host options n).
    { intros n N1 N2 N3. rewrite (effect_files _ _ _ _ Eff01).
      unfold making_ca. destruct (new_ca host) as [[k c]|]; simpl;
        rewrite ?lookup_insert_ne by (unfold file; congruence); done. }
    destruct (making_ca _ _ _ _) as [[[[]|e] fs1] evs1] eqn:Emk; simpl in *.
    2:{ eff_close. }
    destruct (gather_alt_names_spec host (seeded options).1 (seeded options).2 w1) as (w2 & E2 & Eff2).
    rewrite (bind_run _ _ _ _ _ E2).
    fold (san_set host options). fold (san_document host options).
    assert (Hf2 : ∀ n, n ≠ "symmetric_ca.key" → n ≠ "symmetric_ca.crt" →
              n ≠ "symmetric_ca.ext" →
              files w2 !! file host options n = files w !! file host options n).
    { intros. erewrite effect_files_nil by eauto. by apply Hleafsame. }
    destruct (decide (leaf_current host options w)) as [Hl|Hl].
    + destruct Hl as (Hl1 & Hl2 & Hl3).
      rewrite <- (Hf2 "symmetric.ext") in Hl1 by done.
      rewrite <- (Hf2 "symmetric.key") in Hl2 by done.
      rewrite <- (Hf2 "symmetric.crt") in Hl3 by done.
      rewrite (bind_run _ _ _ _ _ (ensure_leaf_reuse host (file host options "symmetric.key")
                  (file host options "symmetric.csr") (file host options "symmetric.crt")
                  (file host options "symmetric.ext") (file host options "symmetric_ca.key")
                  (file host options "symmetric_ca.crt") (san_document host options) w2
                  Hl1 Hl2 Hl3)).
      pose proof (effect_trans _ _ _ _ _ _ _ Eff01 Eff2) as Eff.
      simpl. eff_close.
    + destruct (ensure_leaf_renew host (file host options "symmetric.key")
                  (file host options "symmetric.csr") (file host options "symmetric.crt")
                  (file host options "symmetric.ext") (file host options "symmetric_ca.key")
                  (file host options "symmetric_ca.crt") (san_document host options) w2)
        as (w3 & E3 & Eff3);
        try exact (effect_dirs_in _ _ _ _ _ Eff2 (effect_dirs_in _ _ _ _ _ Eff1 Hdir)).
      { unfold leaf_current in Hl. by rewrite !Hf2. }
      rewrite (bind_run _ _ _ _ _ E3).
      pose proof (effect_trans _ _ _ _ _ _ _ (effect_trans _ _ _ _ _ _ _ Eff01 Eff2) Eff3) as Eff.
      simpl in Eff.
      destruct (making_leaf _ _ _ _ _ _ _ _) as [[[[]|e] fs] evs]; simpl in *.
      all: eff_close.
Qed.


Lemma not_in_made_dir host options w e :
  (∀ d, e ≠ Mkdir d) → e ∉ made_dir host options w.
Proof.
  intros He. unfold made_dir. case_bool_decide; [apply not_elem_of_nil|].
  destruct (can_mkdir _ _); [|apply not_elem_of_nil].
  rewrite not_elem_of_cons. split; [apply He | apply not_elem_of_nil].
Qed.

Lemma not_in_probes host e :
  (∀ c, c ∈ [uname_command; hostname_command; ifconfig_command; dig_command] → e ≠ Spawn c) →
  e ∉ probes host.
Proof.
  intros He. unfold probes. rewrite !not_elem_of_cons. repeat split.
  - apply He. set_solver.
  - apply He. case_bool_decide; set_solver.
  - apply He. set_solver.
  - apply not_elem_of_nil.
Qed.

Ltac event_neq :=
  let H := fresh in
  intros H;
  unfold request_command, sign_command, trust_command, ca_command, uname_command,
    hostname_command, ifconfig_command, dig_command, opensslCA, opensslReq, opensslSign,
    file in H;
  cbv [String.append] in H; discriminate H.

(** [e] is none of the events of a list given in full, nor of
    [made_dir] and [probes]. *)
Ltac not_in_events :=
  repeat lazymatch goal with
    | |- ?x ∈ ?l → False => change (x ∉ l)
    | |- _ ≠ Spawn (if ?b then _ else _) => destruct b
    | |- _ ∉ [] => apply not_elem_of_nil
    | |- _ ∉ _ ++ _ => apply not_elem_of_app; split
    | |- _ ∉ made_dir _ _ _ => apply not_in_made_dir; intros ?
    | |- _ ∉ probes _ =>
        let Hc := fresh in
        apply not_in_probes; intros ? Hc;
        rewrite !elem_of_cons, elem_of_nil in Hc;
        destruct Hc as [->|[->|[->|[->|[]]]]]
    | |- _ ∉ _ :: _ => apply not_elem_of_cons; split
    | |- _ ≠ _ => event_neq
    end.

Ltac lookups :=
  unfold put_all, file; simpl;
  repeat first [rewrite lookup_insert_eq | rewrite lookup_insert_ne by discriminate];
  try done.

Ltac ca_cases host options w :=
  unfold ca_step, making_ca;
  destruct (decide (ca_present host options w));
    [|destruct (new_ca host) as [[??]|]]; simpl.

Ltac leaf_cases host options w :=
  unfold leaf_step, making_leaf;
  destruct (decide (leaf_current host options w));
    [|destruct (new_request host) as [[??]|]; [destruct (new_cert host) as [[??]|]|]]; simpl.

(** C3.  On a usable storage root, [createSelfSignedCert] runs the
    command that makes the root certificate exactly when the CA key or
    the CA certificate is missing.  When both are there, neither file
    is written and both keep their content; when one is missing and
    [openssl] succeeds, the two files hold the new pair. *)
Theorem ca_made_iff_missing host options w r w' :
  createSelfSignedCert host options w = (r, w') →
  root_usable host options w →
  let caKey := file host options "symmetric_ca.key" in
  let caCert := file host options "symmetric_ca.crt" in
  let caExt := file host options "symmetric_ca.ext" in
  ∃ evs, trace w' = trace w ++ evs
  ∧ (Spawn (ca_command caKey caCert caExt) ∈ evs ↔ ¬ ca_present host options w)
  ∧ (ca_present host options w →
       files w' !! caKey = files w !! caKey ∧ files w' !! caCert = files w !! caCert
       ∧ (∀ data, (Wrote caKey data ∉ evs) ∧ (Wrote caCert data ∉ evs)))
  ∧ (¬ ca_present host options w → ∀ k c, new_ca host = Some (k, c) →
       files w' !! caKey = Some k ∧ files w' !! caCert = Some c).
Proof.
  intros Hrun Hroot caKey caCert caExt. subst caKey caCert caExt.
  destruct (createSelfSignedCert_run host options w Hroot) as (w'' & E & [_ _ Hfiles Htrace]).
  rewrite Hrun in E. injection E as Hr Hw. subst w''.
  exists (bootstrap host options w).2. split; [exact Htrace|].
  rewrite Hfiles. clear Hrun Hr Hfiles Htrace r.
  unfold bootstrap. split; [split|split].
  - (* run only when missing *)
    intros Hin Hp. revert Hin. unfold ca_step.
    destruct (decide (ca_present host options w)); [|done]. simpl.
    leaf_cases host options w; not_in_events.
  - (* run when missing *)
    intros Hp. unfold ca_step, making_ca.
    destruct (decide (ca_present host options w)); [done|].
    destruct (new_ca host) as [[??]|]; simpl; rewrite !elem_of_app, !elem_of_cons; tauto.
  - (* both files there: left as they are *)
    intros Hp. unfold ca_step.
    destruct (decide (ca_present host options w)); [|done]. simpl.
    split; [|split; [|intros data; split]];
      leaf_cases host options w; first [by lookups | not_in_events].
  - (* a file missing: the new pair is on disk *)
    intros Hp k c Hnew. unfold ca_step, making_ca.
    destruct (decide (ca_present host options w)); [done|]. rewrite Hnew. simpl.
    split; leaf_cases host options w; by lookups.
Qed.

Lemma each_of {A} (P : A → Prop) (l : list A) : Forall P l → ∀ x, x ∈ l → P x.
Proof. apply Forall_forall. Qed.

Ltac by_cases_of_list :=
  lazymatch goal with
  | |- ∀ x, x ∈ ?l → @?P x =>
      refine (each_of P l _); repeat apply Forall_cons_2; try apply Forall_nil_2; cbv beta
  end.

(** C2.  On a usable storage root with a root certificate at hand:
    when the leaf key, the leaf certificate and the SAN document are on
    disk and the document equals the one computed now, the call
    returns the existing paths, writes none of the four leaf files and
    runs neither the request nor the signing command.  Otherwise the
    new document is written, so the stored one equals it, the request
    command is run, and when [openssl] succeeds twice the key, the
    request and the certificate on disk are the new ones. *)
Theorem leaf_reused_or_renewed host options w r w' :
  createSelfSignedCert host options w = (r, w') →
  root_usable host options w →
  ca_present host options w ∨ is_Some (new_ca host) →
  let f := file host options in
  let leaf := ["symmetric.key"; "symmetric.csr"; "symmetric.crt"; "symmetric.ext"] in
  let request := request_command (f "symmetric.key") (f "symmetric.csr") in
  let sign := sign_command (f "symmetric_ca.crt") (f "symmetric_ca.key") (f "symmetric.csr")
                           (f "symmetric.crt") (f "symmetric.ext") in
  let result := Ok (mkFiles (f "symmetric.key") (f "symmetric.crt")
                            (f "symmetric_ca.key") (f "symmetric_ca.crt")) in
  ∃ evs, trace w' = trace w ++ evs
  ∧ (leaf_current host options w →
       r = result
       ∧ (∀ n, n ∈ leaf → files w' !! f n = files w !! f n)
       ∧ (∀ n, n ∈ leaf → ∀ data, Wrote (f n) data ∉ evs)
       ∧ (Spawn request ∉ evs) ∧ (Spawn sign ∉ evs))
  ∧ (¬ leaf_current host options w →
       files w' !! f "symmetric.ext" = Some (san_document host options)
       ∧ Wrote (f "symmetric.ext") (san_document host options) ∈ evs
       ∧ Spawn request ∈ evs
       ∧ ∀ k q c s, new_request host = Some (k, q) → new_cert host = Some (c, s) →
           r = result ∧ Spawn sign ∈ evs
           ∧ files w' !! f "symmetric.key" = Some k
           ∧ files w' !! f "symmetric.csr" = Some q
           ∧ files w' !! f "symmetric.crt" = Some c).
Proof.
  intros Hrun Hroot Hca f leaf request sign result. subst f leaf request sign result.
  destruct (createSelfSignedCert_run host options w Hroot) as (w'' & E & [_ _ Hfiles Htrace]).
  rewrite Hrun in E. injection E as Hr Hw. subst w'' r.
  exists (bootstrap host options w).2. split; [exact Htrace|].
  rewrite Hfiles. clear Hrun Hfiles Htrace.
  assert (Hok : (ca_step host options w).1.1 = Ok ()).
  { unfold ca_step, making_ca. destruct (decide _) as [|Hp]; [done|].
    destruct Hca as [?|[[??] ->]]; done. }
  unfold bootstrap. rewrite Hok. simpl. clear Hok. split.
  - (* the leaf certificate is kept *)
    intros Hl. unfold leaf_step. destruct (decide (leaf_current host options w)); [|done].
    simpl. rewrite !app_nil_r. split; [done|]. split; [|split; [|split]].
    + by_cases_of_list; ca_cases host options w; by lookups.
    + by_cases_of_list; intros data; ca_cases host options w; not_in_events.
    + ca_cases host options w; not_in_events.
    + ca_cases host options w; not_in_events.
  - (* a new leaf certificate *)
    intros Hl. unfold leaf_step.
    destruct (decide (leaf_current host options w)); [done|]. split; [|split; [|split]].
    + unfold making_leaf.
      destruct (new_request host) as [[??]|]; [destruct (new_cert host) as [[??]|]|];
        simpl; ca_cases host options w; by lookups.
    + unfold making_leaf.
      destruct (new_request host) as [[??]|]; [destruct (new_cert host) as [[??]|]|];
        simpl; rewrite !elem_of_app, !elem_of_cons; tauto.
    + unfold making_leaf.
      destruct (new_request host) as [[??]|]; [destruct (new_cert host) as [[??]|]|];
        simpl; rewrite !elem_of_app, !elem_of_cons; tauto.
    + intros k q c s Hq Hc. unfold making_leaf. rewrite Hq, Hc. simpl.
      split; [done|]. split; [rewrite !elem_of_app, !elem_of_cons; tauto|].
      repeat split; ca_cases host options w; by lookups.
Qed.

Lemma ca_made_iff_missing_witness :
  let host := Example.host in
  let w := Example.world in
  let ran := Ssl.createSelfSignedCert host None w in
  let caKey := Ssl.file host None "symmetric_ca.key" in
  let caCert := Ssl.file host None "symmetric_ca.crt" in
  let caExt := Ssl.file host None "symmetric_ca.ext" in
  Ssl.root_usable host None w
  ∧ ∃ evs, trace ran.2 = trace w ++ evs
    ∧ (Spawn (Ssl.ca_command caKey caCert caExt) ∈ evs ↔ ¬ Ssl.ca_present host None w)
    ∧ (Ssl.ca_present host None w →
         files ran.2 !! caKey = files w !! caKey ∧ files ran.2 !! caCert = files w !! caCert
         ∧ (∀ data, (Wrote caKey data ∉ evs) ∧ (Wrote caCert data ∉ evs)))
    ∧ (¬ Ssl.ca_present host None w → ∀ k c, new_ca host = Some (k, c) →
         files ran.2 !! caKey = Some k ∧ files ran.2 !! caCert = Some c).
Proof.
  assert (Hroot : Ssl.root_usable Example.host None Example.world) by (right; reflexivity).
  split; [exact Hroot|].
  exact (ca_made_iff_missing Example.host None Example.world _ _
           (surjective_pairing _) Hroot).
Defined.

Lemma leaf_reused_or_renewed_witness :
  let host := Example.host in
  let w := Example.world in
  let ran := Ssl.createSelfSignedCert host None w in
  let f := Ssl.file host None in
  let leaf := ["symmetric.key"; "symmetric.csr"; "symmetric.crt"; "symmetric.ext"] in
  let request := Ssl.request_command (f "symmetric.key") (f "symmetric.csr") in
  let sign := Ssl.sign_command (f "symmetric_ca.crt") (f "symmetric_ca.key")
                (f "symmetric.csr") (f "symmetric.crt") (f "symmetric.ext") in
  let result := Ok (Ssl.mkFiles (f "symmetric.key") (f "symmetric.crt")
                                (f "symmetric_ca.key") (f "symmetric_ca.crt")) in
  Ssl.root_usable host None w
  ∧ (Ssl.ca_present host None w ∨ is_Some (new_ca host))
  ∧ ∃ evs, trace ran.2 = trace w ++ evs
    ∧ (Ssl.leaf_current host None w →
         ran.1 = result
         ∧ (∀ n, n ∈ leaf → files ran.2 !! f n = files w !! f n)
         ∧ (∀ n, n ∈ leaf → ∀ data, Wrote (f n) data ∉ evs)
         ∧ (Spawn request ∉ evs) ∧ (Spawn sign ∉ evs))
    ∧ (¬ Ssl.leaf_current host None w →
         files ran.2 !! f "symmetric.ext" = Some (Ssl.san_document host None)
         ∧ Wrote (f "symmetric.ext") (Ssl.san_document host None) ∈ evs
         ∧ Spawn request ∈ evs
         ∧ ∀ k q c s, new_request host = Some (k, q) → new_cert host = Some (c, s) →
             ran.1 = result ∧ Spawn sign ∈ evs
             ∧ files ran.2 !! f "symmetric.key" = Some k
             ∧ files ran.2 !! f "symmetric.csr" = Some q
             ∧ files ran.2 !! f "symmetric.crt" = Some c).
Proof.
  assert (Hroot : Ssl.root_usable Example.host None Example.world) by (right; reflexivity).
  assert (Hca : Ssl.ca_present Example.host None Example.world ∨ is_Some (new_ca Example.host))
    by (right; by eexists).
  split; [exact Hroot|]. split; [exact Hca|].
  exact (leaf_reused_or_renewed Example.host None Example.world _ _
           (surjective_pairing _) Hroot Hca).
Defined.

(** C9, on the failing input.  On a machine that [uname -n] names
    localhost the domain list holds localhost twice, and so does the
    document written to disk: the host name is pushed without the
    check that [addDomain] makes. *)
Theorem hostname_pushed_without_check :
  let host := Example.machine "localhost" in
  let document :=
    Js.nl +:+ "subjectAltName = @alt_names" +:+ Js.nl +:+ Js.nl
    +:+ "[ alt_names ]" +:+ Js.nl
    +:+ "DNS.1 = localhost" +:+ Js.nl
    +:+ "DNS.2 = localhost" +:+ Js.nl
    +:+ "IP.1 = 127.0.0.1" +:+ Js.nl
    +:+ "IP.2 = 10.0.0.5" +:+ Js.nl
    +:+ "IP.3 = 192.168.1.20" +:+ Js.nl
    +:+ "IP.4 = 203.0.113.7" +:+ Js.nl in
  Ssl.san_set host None
  = (["localhost"; "localhost"], ["127.0.0.1"; "10.0.0.5"; "192.168.1.20"; "203.0.113.7"])
  ∧ ¬ NoDup (Ssl.san_set host None).1
  ∧ files (Ssl.createSelfSignedCert host None Example.world).2
      !! Ssl.file host None "symmetric.ext" = Some document.
Proof.
  split; [reflexivity|]. split.
  - intros Hn. vm_compute in Hn. apply NoDup_cons in Hn as [Hn _].
    apply Hn. by left.
  - vm_compute. reflexivity.
Qed.

Lemma add_NoDup x (l : list string) : NoDup l → NoDup (Ssl.add x l).
Proof.
  intros Hl. unfold Ssl.add. case_bool_decide; [done|].
  apply NoDup_app. split; [done|]. split; [|apply NoDup_singleton].
  intros y Hy Hx. apply list_elem_of_singleton in Hx as ->. done.
Qed.

Lemma add_each_NoDup xs (l : list string) : NoDup l → NoDup (Ssl.add_each xs l).
Proof.
  revert l. induction xs as [|x xs IH]; intros l Hl; [done|].
  apply IH. by apply add_NoDup.
Qed.

Lemma add_each_head xs x (l : list string) :
  ∃ rest, Ssl.add_each xs (x :: l) = x :: rest.
Proof.
  revert l. induction xs as [|y xs IH]; intros l; [by eexists|].
  cbn [Ssl.add_each foldl]. unfold Ssl.add. case_bool_decide; [apply IH|].
  apply (IH (l ++ [y])).
Qed.

(** What of C9 the code keeps: the address list has no duplicate and
    both lists start with their seed. *)
Lemma san_set_seeded host options :
  NoDup (Ssl.san_set host options).2
  ∧ (∃ rest, (Ssl.san_set host options).1 = "localhost" :: rest)
  ∧ (∃ rest, (Ssl.san_set host options).2 = "127.0.0.1" :: rest).
Proof.
  unfold Ssl.san_set, Ssl.discovered, Ssl.seeded. cbn [fst snd].
  set (ips := match options ≫= Ssl.additionalIPs with
              | Some ips => _ | None => _ end).
  set (ds := match options ≫= Ssl.additionalDomains with
             | Some ds => _ | None => _ end).
  assert (Hips : NoDup ips ∧ ∃ rest, ips = "127.0.0.1" :: rest).
  { subst ips. destruct (options ≫= Ssl.additionalIPs).
    - split; [apply add_each_NoDup, NoDup_singleton | apply add_each_head].
    - split; [apply NoDup_singleton | by eexists]. }
  assert (Hds : ∃ rest, ds = "localhost" :: rest).
  { subst ds. destruct (options ≫= Ssl.additionalDomains); [apply add_each_head | by eexists]. }
  destruct Hips as (Hnd & rest & Hips). destruct Hds as (drest & Hds).
  clearbody ips ds. subst ips ds.
  split; [|split].
  - destruct (stdout_of host Ssl.dig_command); [apply add_NoDup|];
      case_bool_decide;
      destruct (stdout_of host Ssl.hostname_command),
               (stdout_of host Ssl.ifconfig_command);
      try apply add_each_NoDup; done.
  - destruct (stdout_of host Ssl.uname_command); by eexists.
  - assert (∀ l : list string, (∃ r, l = "127.0.0.1" :: r) →
              ∀ x, ∃ r, Ssl.add x l = "127.0.0.1" :: r) as Hadd.
    { intros l (r & ->) x. unfold Ssl.add. case_bool_decide; by eexists. }
    destruct (stdout_of host Ssl.dig_command); [apply Hadd|];
      case_bool_decide;
      destruct (stdout_of host Ssl.hostname_command),
               (stdout_of host Ssl.ifconfig_command);
      first [apply add_each_head | by eexists].
Qed.

End SslFacts.

(** ** The distribution server *)

Module ServerFacts.
Import Node.

(** C8, on the failing inputs.  After the 200 response for [/] or for
    [/symmetric_ca.crt] the listener goes on to the 404 branch, and
    [writeHead] throws on the response already sent. *)
Theorem known_route_falls_through (index cert : Buffer) :
  Server.listener index cert "/" fresh_response
  = (Throw HeadersSent,
     mkRes 200 (list_to_map [("content-length", pretty (String.length index));
                             ("content-type", "text/html")] ∪ ∅)
           true [Bytes index] true)
  ∧ Server.listener index cert "/symmetric_ca.crt" fresh_response
    = (Throw HeadersSent,
       mkRes 200 (list_to_map [("content-length", pretty (String.length cert));
                               ("content-type", "application/x-x509-ca-cert")] ∪ ∅)
             true [Bytes cert] true).
Proof. split; reflexivity. Qed.

(** X11.  What of C8 the code keeps: any url but the two known ones
    gets one 404 response with the text [404 - Not Found], and the
    listener returns. *)
Lemma unknown_route_not_found (index cert : Buffer) url :
  url ≠ "/" → url ≠ "/symmetric_ca.crt" →
  Server.listener index cert url fresh_response
  = (Ok (),
     mkRes 404 (list_to_map [("content-length", "15"); ("content-type", "text/plain")] ∪ ∅)
           true [Text "404 - Not Found"] true).
Proof.
  intros H1 H2. unfold Server.listener.
  rewrite (bool_decide_eq_false_2 _ H1), (bool_decide_eq_false_2 _ H2). reflexivity.
Qed.

End ServerFacts.

(** ** Regular expressions *)

Module RegExpFacts.

Lemma replace_all_from_cons re c s :
  RegExp.replace_all_from re 0 (String c s)
  = match RegExp.match_at re (String c s) with
    | Some (S n) => RegExp.replace_all_from re n s
    | _ => String c (RegExp.replace_all_from re 0 s)
    end.
Proof. done. Qed.

Lemma match_terms_literal (l : string) ts s :
  RegExp.match_terms false (RegExp.literal l ++ ts) s
  = if String.prefix l s
    then (λ n, String.length l + n) <$> RegExp.match_terms false ts (Js.drop (String.length l) s)
    else None.
Proof.
  revert s. induction l as [|x l IH]; intros s.
  - simpl. destruct s; simpl; by destruct (RegExp.match_terms false ts _).
  - unfold RegExp.literal in *. cbn [String.list_ascii_of_string fmap list_fmap app].
    cbn [RegExp.match_terms]. unfold RegExp.one.
    destruct s as [|c s]; [done|]. cbn [RegExp.atom_ok String.prefix Js.drop String.length].
    destruct (Ascii.eqb_spec x c) as [->|Hne].
    + destruct (ascii_dec c c); [|done]. 
      change (list_fmap _ _ ?f (String.list_ascii_of_string l)) with (f <$> String.list_ascii_of_string l).
      rewrite IH.
      destruct (String.prefix l s); [|done].
      destruct (RegExp.match_terms false ts _); done.
    + destruct (ascii_dec x c); [done|]. done.
Qed.

Lemma star_total ok (k : string → option nat) s :
  (∀ t, is_Some (k t)) →
  RegExp.star ok k s = (λ n, Js.run ok s + n) <$> k (Js.drop (Js.run ok s) s).
Proof.
  intros Hk. induction s as [|c s IH]; simpl.
  - by destruct (k "").
  - destruct (ok c); simpl.
    + rewrite IH. destruct (Hk (Js.drop (Js.run ok s) s)) as [n ->]. done.
    + by destruct (k (String c s)).
Qed.

Lemma plain_unit c :
  Pattern.is_syntax_char c = false →
  Ascii.eqb c "\" = false ∧ Ascii.eqb c "|" = false ∧ Ascii.eqb c "." = false
  ∧ Ascii.eqb c "$" = false ∧ Pattern.is_quantifier c = None.
Proof.
  destruct c as [[] [] [] [] [] [] [] []]; vm_compute; intros; try discriminate; done.
Qed.

Lemma parse_plain s done cur rest :
  Pattern.plain s = true →
  Pattern.parse done cur false (s +:+ rest)
  = Pattern.parse done (rev (RegExp.literal s) ++ cur) false rest.
Proof.
  revert cur. induction s as [|c s IH]; intros cur Hs; [done|].
  unfold Pattern.plain in Hs. cbn [String.list_ascii_of_string forallb] in Hs.
  apply andb_true_iff in Hs as [Hc Hs]. apply negb_true_iff in Hc.
  destruct (plain_unit c Hc) as (E1 & E2 & E3 & E4 & E5).
  change (String c s +:+ rest) with (String c (s +:+ rest)).
  cbn [Pattern.parse]. rewrite E1, E2, E3, E4, E5, Hc.
  rewrite IH by exact Hs. unfold RegExp.literal.
  cbn [String.list_ascii_of_string fmap list_fmap rev]. by rewrite <- app_assoc.
Qed.

Lemma test_literal (l : string) s :
  RegExp.test (RegExp.mk [RegExp.literal l ++ [RegExp.T (RegExp.Chr ";") RegExp.Opt]] false false) s
  = Js.includes l s.
Proof.
  unfold RegExp.test.
  set (re := RegExp.mk _ _ _).
  assert (Hat : ∀ t, RegExp.match_at re t = None ↔ String.prefix l t = false).
  { intros t. unfold RegExp.match_at, re.
    cbn [RegExp.alternatives RegExp.ignoreCase RegExp.match_alternatives].
    rewrite match_terms_literal. destruct (String.prefix l t); [|done].
    cbn [RegExp.match_terms]. unfold RegExp.one.
    destruct (Js.drop _ t) as [|x u]; [done|]. cbn [RegExp.atom_ok].
    destruct (Ascii.eqb ";" x); done. }
  induction s as [|c s IH].
  - cbn [RegExp.exec Js.includes]. destruct (RegExp.match_at re "") eqn:E.
    + destruct (String.prefix l "") eqn:P; [done|]. apply Hat in P. congruence.
    + apply Hat in E. rewrite E. done.
  - cbn [RegExp.exec Js.includes]. destruct (RegExp.match_at re (String c s)) eqn:E.
    + destruct (String.prefix l (String c s)) eqn:P; [done|]. apply Hat in P. congruence.
    + apply Hat in E. rewrite E. rewrite <- IH. cbn [orb].
      by destruct (RegExp.exec re s) as [[??]|].
Qed.

Lemma append_empty_r s : s +:+ "" = s.
Proof.
  induction s as [|c s IH]; [done|].
  change (String c s +:+ "") with (String c (s +:+ "")). by rewrite IH.
Qed.

Lemma origin_unit c :
  Pattern.origin_unit_ok c = true → Ascii.eqb c "." = false →
  Ascii.eqb c "\" = false ∧ Ascii.eqb c "|" = false
  ∧ Ascii.eqb c "$" = false ∧ Pattern.is_quantifier c = None
  ∧ Pattern.is_syntax_char c = false.
Proof.
  unfold Pattern.origin_unit_ok. intros Hc Hd. rewrite Hd, orb_false_r in Hc.
  apply negb_true_iff in Hc. destruct (plain_unit c Hc) as (?&?&?&?&?). done.
Qed.

Lemma parse_origin o done cur rest :
  forallb Pattern.origin_unit_ok (String.list_ascii_of_string o) = true →
  Pattern.parse done cur false (o +:+ rest)
  = Pattern.parse done (rev (Pattern.origin_terms o) ++ cur) false rest.
Proof.
  revert cur. induction o as [|c o IH]; intros cur Ho; [done|].
  cbn [String.list_ascii_of_string forallb] in Ho.
  apply andb_true_iff in Ho as [Hc Ho].
  change (String c o +:+ rest) with (String c (o +:+ rest)).
  unfold Pattern.origin_terms. cbn [String.list_ascii_of_string fmap list_fmap rev].
  rewrite <- app_assoc. cbn [app]. cbn [Pattern.parse].
  destruct (Ascii.eqb c ".") eqn:Hd.
  - apply Ascii.eqb_eq in Hd as ->. cbn -[Pattern.parse]. by rewrite IH.
  - destruct (origin_unit c Hc Hd) as (E1 & E2 & E4 & E5 & E6).
    rewrite E1, E2, E4, E5, E6. by rewrite IH.
Qed.

Lemma parse_origins origins done :
  origins ≠ [] →
  Forall (λ o, forallb Pattern.origin_unit_ok (String.list_ascii_of_string o) = true) origins →
  Pattern.parse done [] false (Js.join "|" origins)
  = Some (rev done ++ (Pattern.origin_terms <$> origins)).
Proof.
  intros Hne Hall. revert done. induction Hall as [|o os Ho Hos IH]; [done|]. intros done.
  destruct os as [|o' os].
  - cbn [Js.join]. rewrite <- (append_empty_r o) at 1. rewrite parse_origin by done.
    cbn. by rewrite app_nil_r, rev_involutive.
  - change (Js.join "|" (o :: o' :: os)) with (o +:+ "|" +:+ Js.join "|" (o' :: os)).
    rewrite parse_origin by done.
    change ("|" +:+ ?s) with (String "|" s). cbn [Pattern.parse]. cbn -[Pattern.parse Js.join].
    rewrite IH by done. rewrite app_nil_r, rev_involutive. cbn [rev fmap list_fmap].
    by rewrite <- app_assoc.
Qed.

Lemma match_origin o s :
  RegExp.match_terms true (Pattern.origin_terms o) s
  = if Pattern.fits o s then Some (String.length o) else None.
Proof.
  revert s. induction o as [|x o IH]; intros s; [done|].
  unfold Pattern.origin_terms. cbn [String.list_ascii_of_string fmap list_fmap].
  change (list_fmap _ _ ?f (String.list_ascii_of_string o)) with (Pattern.origin_terms o).
  destruct s as [|c s].
  - cbn. by destruct (Ascii.eqb x ".").
  - cbn [Pattern.fits String.length]. unfold Pattern.unit_fits.
    destruct (Ascii.eqb x ".") eqn:Hd; cbn [RegExp.match_terms]; unfold RegExp.one;
      cbn [RegExp.atom_ok].
    + destruct (negb (Js.is_line_terminator c)); [|done]. cbn [andb].
      fold (Pattern.origin_terms o). rewrite IH. by destruct (Pattern.fits o s).
    + destruct (Ascii.eqb (Js.canonicalize x) (Js.canonicalize c)); [|done].
      cbn [andb]. fold (Pattern.origin_terms o). rewrite IH. by destruct (Pattern.fits o s).
Qed.

Lemma match_origins origins s :
  RegExp.match_alternatives true (Pattern.origin_terms <$> origins) s
  = (λ o, String.length o) <$> list_find (λ o, Pattern.fits o s = true) origins ≫= (λ x, Some x.2).
Proof.
  induction origins as [|o os IH]; [done|].
  cbn [fmap list_fmap RegExp.match_alternatives list_find].
  change (list_fmap _ _ Pattern.origin_terms os) with (Pattern.origin_terms <$> os).
  rewrite match_origin. destruct (Pattern.fits o s) eqn:E.
  - rewrite decide_True by done. done.
  - rewrite decide_False by done. rewrite IH.
    destruct (list_find _ os) as [[i y]|]; done.
Qed.

Lemma replace_skip re n s :
  RegExp.replace_all_from re n s = RegExp.replace_all_from re 0 (Js.drop n s).
Proof.
  revert n. induction s as [|c s IH]; intros n.
  - by destruct n.
  - destruct n as [|n]; [done|]. cbn [RegExp.replace_all_from Js.drop]. apply IH.
Qed.

Lemma length_drop n s : String.length (Js.drop n s) ≤ String.length s.
Proof.
  revert n. induction s as [|c s IH]; intros n; [by destruct n|].
  destruct n as [|n]; [done|]. cbn [Js.drop String.length]. specialize (IH n). lia.
Qed.

Lemma list_find_fits origins s :
  match list_find (λ o, Pattern.fits o s = true) origins with
  | Some (_, o) => o ∈ origins ∧ Pattern.fits o s = true
  | None => ∀ o, o ∈ origins → Pattern.fits o s = false
  end.
Proof.
  destruct (list_find _ origins) as [[i o]|] eqn:E.
  - apply list_find_Some in E as (Hi & Ho & _). split; [|done].
    by eapply list_elem_of_lookup_2.
  - intros o Ho. apply list_find_None in E. rewrite Forall_forall in E.
    specialize (E o Ho). by destruct (Pattern.fits o s).
Qed.

Lemma removed_by_replace origins s :
  Forall Pattern.origin_ok origins →
  Pattern.Removed origins s
    (RegExp.replace_all_from (RegExp.mk (Pattern.origin_terms <$> origins) true true) 0 s).
Proof.
  intros Hok. set (re := RegExp.mk _ _ _).
  remember (String.length s) as m eqn:Hm. revert s Hm.
  induction m as [m IH] using lt_wf_ind. intros s ->.
  destruct s as [|c s]; [constructor|].
  rewrite replace_all_from_cons. unfold RegExp.match_at, re.
  cbn [RegExp.alternatives RegExp.ignoreCase]. rewrite match_origins.
  pose proof (list_find_fits origins (String c s)) as Hfind.
  destruct (list_find _ origins) as [[i o]|]; cbn [mbind option_bind fmap option_fmap option_map snd].
  - destruct Hfind as (Ho & Hfit).
    rewrite Forall_forall in Hok. destruct (Hok o Ho) as (Hne & _).
    destruct o as [|x o]; [done|]. cbn [String.length].
    fold re. rewrite replace_skip.
    apply (Pattern.removed_cut _ (String x o)); [done|done|].
    cbn [String.length Js.drop].
    eapply IH; [|reflexivity]. cbn [String.length].
    pose proof (length_drop (String.length o) s). lia.
  - fold re. apply Pattern.removed_keep; [exact Hfind|].
    eapply IH; [|reflexivity]. cbn [String.length]. lia.
Qed.

Lemma compile_origins o os :
  Forall Pattern.origin_ok (o :: os) →
  Pattern.compile (Js.join "|" (o :: os)) true true
  = Some (RegExp.mk (Pattern.origin_terms <$> o :: os) true true).
Proof.
  intros Hok. unfold Pattern.compile. rewrite parse_origins; [done|done|].
  eapply Forall_impl; [exact Hok|]. by intros ? [_ ?].
Qed.

End RegExpFacts.

(** ** The proxy policy *)

Module ProxyFacts.
Import Node Proxy NodeFacts SslFacts RegExpFacts.

Lemma heap_kept_ret {A} (a : A) : heap_kept (mret a).
Proof. intros w r w' [= _ <-]. done. Qed.

Lemma heap_kept_throw {A} e : heap_kept (throw e : M A).
Proof. intros w r w' [= _ <-]. done. Qed.

Lemma heap_kept_bind {A B} (m : M A) (f : A → M B) :
  heap_kept m → (∀ a, heap_kept (f a)) → heap_kept (m ≫= f).
Proof.
  intros Hm Hf w r w'. unfold mbind, St_bind.
  destruct (m w) as [[a|e] w1] eqn:E.
  - intros E2. rewrite (Hf _ _ _ _ E2). eauto.
  - intros [= _ <-]. eauto.
Qed.

Lemma heap_kept_catch {A} (m : M A) (h : Error → M A) :
  heap_kept m → (∀ e, heap_kept (h e)) → heap_kept (catch m h).
Proof.
  intros Hm Hh w r w'. unfold catch.
  destruct (m w) as [[a|e] w1] eqn:E.
  - intros [= _ <-]. eauto.
  - intros E2. rewrite (Hh _ _ _ _ E2). eauto.
Qed.

Lemma heap_kept_emit e : heap_kept (emit e).
Proof. intros w r w' [= _ <-]. done. Qed.

Lemma heap_kept_existsSync p : heap_kept (existsSync p).
Proof. intros w r w' [= _ <-]. done. Qed.

Lemma heap_kept_readFileSync p : heap_kept (readFileSync p).
Proof. intros w r w'. unfold readFileSync. destruct (files w !! p); intros [= _ <-]; done. Qed.

Lemma heap_kept_store p d : heap_kept (store p d).
Proof. intros w r w'. unfold store. case_bool_decide; intros [= _ <-]; done. Qed.

Lemma heap_kept_mkdirSync host d : heap_kept (mkdirSync host d).
Proof.
  intros w r w'. unfold mkdirSync. case_bool_decide; [intros [= _ <-]; done|].
  destruct (can_mkdir host d); intros [= _ <-]; done.
Qed.

Lemma heap_kept_stores (outs : list (path * string)) :
  heap_kept (foldr (λ o k, store o.1 o.2;; k) (mret ()) outs).
Proof.
  induction outs as [|o outs IH]; simpl; [apply heap_kept_ret|].
  apply heap_kept_bind; [apply heap_kept_store|done].
Qed.

Create HintDb heap_kept.
#[local] Hint Resolve heap_kept_ret heap_kept_throw heap_kept_emit heap_kept_existsSync
  heap_kept_readFileSync heap_kept_store heap_kept_mkdirSync heap_kept_stores : heap_kept.

Ltac heap_kept :=
  repeat first
    [ progress intros
    | apply heap_kept_bind
    | apply heap_kept_catch
    | solve [auto with heap_kept]
    | match goal with
      | |- heap_kept (match ?x with _ => _ end) => destruct x
      | |- heap_kept (if ?x then _ else _) => destruct x
      end ].

Lemma heap_kept_execSync host cmd : heap_kept (execSync host cmd).
Proof. unfold execSync. heap_kept. Qed.

Lemma heap_kept_execSync_writing cmd outs : heap_kept (execSync_writing cmd outs).
Proof. unfold execSync_writing. heap_kept. Qed.

#[local] Hint Resolve heap_kept_execSync heap_kept_execSync_writing : heap_kept.

Lemma heap_kept_createSelfSignedCert host options :
  heap_kept (Ssl.createSelfSignedCert host options).
Proof.
  unfold Ssl.createSelfSignedCert, Ssl.ensure_ca, Ssl.gather_alt_names, Ssl.ensure_leaf,
    writeFileSync.
  heap_kept.
Qed.

Lemma heap_kept_certServer host caCert : heap_kept (Server.certServer host caCert).
Proof. unfold Server.certServer. heap_kept. Qed.


Section WithDate.
Context `{DateApi}.

Lemma place_run (l : option nat) w :
  (match l with Some l => mret l | None => alloc [] end) w
  = (Ok (place l (heap w)).1,
     mkWorld (place l (heap w)).2 (dirs w) (files w) (trace w)).
Proof. destruct l; [|done]. simpl. by destruct w. Qed.

Lemma update_run l f w :
  update l f w = (Ok (), mkWorld (change l f (heap w)) (dirs w) (files w) (trace w)).
Proof. done. Qed.

Lemma new_RegExp_run {S : Type} source i g (w : S) :
  new_RegExp source i g w
  = (match Pattern.compile source i g with
     | Some re => Ok re
     | None => Throw (SyntaxError source)
     end, w).
Proof. unfold new_RegExp. by destruct (Pattern.compile source i g). Qed.

Lemma createBackendProxy_inv host options w p w' :
  createBackendProxy host options w = (Ok p, w') →
  let lp := (place (paths options) (heap w)).1 in
  let h1 := (place (paths options) (heap w)).2 in
  let ls := (place (subpaths options) h1).1 in
  let h2 := (place (subpaths options) h1).2 in
  heap w' = normalized lp ls h2
  ∧ ∃ re re2,
      Pattern.compile (BACKEND_COOKIE +:+ "=" +:+ backend options +:+ ";?") false false = Some re
      ∧ origin_pattern options re2
      ∧ bypass p = Hooks.bypass lp ls
      ∧ onProxyReq p = Hooks.onProxyReq re
      ∧ onProxyRes p = response_hook options re re2
      ∧ protocolRewrite p = Some (if insecure options then "http" else "https")
      ∧ target p = backend options
      ∧ headers_Referer p = backend options.
Proof.
  intros Hrun lp h1 ls h2. revert Hrun. unfold createBackendProxy.
  rewrite (bind_run _ _ _ _ _ (place_run (paths options) w)).
  rewrite (bind_run _ _ _ _ _ (place_run (subpaths options) _)).
  simpl heap. fold lp h1 ls h2.
  rewrite (bind_run _ _ _ _ _ (new_RegExp_run _ _ _ _)).
  destruct (Pattern.compile (BACKEND_COOKIE +:+ "=" +:+ backend options +:+ ";?") false false)
    as [re|] eqn:Ere; [|intros [=]].
  rewrite !(bind_run _ _ _ _ _ (update_run _ _ _)). simpl heap.
  fold (normalized lp ls h2).
  set (w1 := mkWorld (normalized lp ls h2) _ _ _).
  set (proxy := mkPolicy _ _ _ _ _ _ _ _ _ _ _).
  set (branch := (if insecure options then _ else _) : M Policy).
  assert (Hbranch : ∀ r w2, branch w1 = (r, w2) →
            heap w2 = normalized lp ls h2
            ∧ ∀ q, r = Ok q →
                bypass q = Hooks.bypass lp ls
                ∧ onProxyReq q = Hooks.onProxyReq re
                ∧ onProxyRes q = response_hook options re None
                ∧ protocolRewrite q = Some (if insecure options then "http" else "https")
                ∧ target q = backend options
                ∧ headers_Referer q = backend options).
  { assert (Hw1 : heap w1 = normalized lp ls h2) by done.
    subst branch. clearbody w1. unfold response_hook. destruct (insecure options).
    - intros r w2 [= <- <-]. split; [done|]. intros q [= <-]. done.
    - destruct (_ || _).
      + intros r w2.
        destruct (Ssl.createSelfSignedCert host (ssl options) w1) as [[sslFiles|e] wa] eqn:Ea;
          rewrite (bind_run _ _ _ _ _ Ea); [|intros [= <- <-]; split; [|done];
            rewrite (heap_kept_createSelfSignedCert _ _ _ _ _ Ea); done].
        pose proof (heap_kept_createSelfSignedCert _ _ _ _ _ Ea) as Ha.
        destruct (readFileSync (Ssl.key sslFiles) wa) as [[key|e] wb] eqn:Eb;
          rewrite (bind_run _ _ _ _ _ Eb);
          pose proof (heap_kept_readFileSync _ _ _ _ Eb) as Hb;
          [|intros [= <- <-]; split; [congruence|done]].
        destruct (readFileSync (Ssl.cert sslFiles) wb) as [[cert|e] wc] eqn:Ec;
          rewrite (bind_run _ _ _ _ _ Ec);
          pose proof (heap_kept_readFileSync _ _ _ _ Ec) as Hc;
          [|intros [= <- <-]; split; [congruence|done]].
        destruct (certServer options || _).
        * destruct (Server.certServer host (Ssl.caCert sslFiles) wc) as [[l|e] wd] eqn:Ed;
            pose proof (heap_kept_certServer _ _ _ _ _ Ed) as Hd;
            unfold mbind at 1, St_bind at 1; unfold mbind at 1, St_bind at 1; rewrite Ed;
            intros [= <- <-]; (split; [congruence|]); [|done].
          intros q [= <-]. done.
        * intros [= <- <-]. split; [congruence|]. intros q [= <-]. done.
      + intros r w2 [= <- <-]. split; [done|]. intros q [= <-]. done. }
  destruct (branch w1) as [[q|e] w2] eqn:Eb; rewrite (bind_run _ _ _ _ _ Eb); [|intros [=]].
  destruct (Hbranch _ _ eq_refl) as (Hheap & Hq). specialize (Hq q eq_refl).
  destruct Hq as (Q1 & Q2 & Q3 & Q4 & Q5 & Q6).
  unfold origin_pattern.
  destruct (originRewrites options) as [[|o os]|].
  - intros [= <- <-]. split; [done|]. exists re, None. done.
  - rewrite (bind_run _ _ _ _ _ (new_RegExp_run _ _ _ _)).
    destruct (Pattern.compile (Js.join "|" (o :: os)) true true) as [re2|] eqn:E2; [|intros [=]].
    intros [= <- <-]. split; [done|]. exists re, (Some re2).
    simpl. rewrite Q3. unfold response_hook. done.
  - intros [= <- <-]. split; [done|]. exists re, None. done.
Qed.


End WithDate.

Lemma match_at_slashes x s :
  RegExp.match_at slashes (String x s) = if Ascii.eqb "/" x then Some 1 else None.
Proof.
  unfold RegExp.match_at, slashes. cbn -[Ascii.eqb]. by destruct (Ascii.eqb "/" x).
Qed.

Lemma replace_slashes s : RegExp.replace slashes s = Js.without "/" s.
Proof.
  unfold RegExp.replace. change (RegExp.global slashes) with true. cbv iota.
  induction s as [|x s IH]; [done|].
  rewrite replace_all_from_cons, match_at_slashes, IH.
  cbn -[Ascii.eqb]. rewrite (Ascii.eqb_sym x "/"). by destruct (Ascii.eqb "/" x).
Qed.

Lemma array_change_eq l f h : array (change l f h) l = f (array h l).
Proof. unfold array, change. by rewrite lookup_insert_eq. Qed.

Lemma array_change_ne l l' f h : l ≠ l' → array (change l f h) l' = array h l'.
Proof. intros. unfold array, change. by rewrite lookup_insert_ne. Qed.

Lemma splice_nothing back arr : Js.splice_insert_back back [] arr = arr.
Proof. unfold Js.splice_insert_back. simpl. apply firstn_skipn. Qed.

Lemma splice_parts back items arr :
  ∃ a b, arr = a ++ b ∧ Js.splice_insert_back back items arr = a ++ items ++ b.
Proof.
  exists (firstn (length arr - back) arr), (skipn (length arr - back) arr).
  split; [symmetry; apply firstn_skipn | done].
Qed.

Lemma elem_of_splice x back items arr :
  x ∈ Js.splice_insert_back back items arr ↔ x ∈ arr ∨ x ∈ items.
Proof.
  destruct (splice_parts back items arr) as (a & b & -> & ->).
  rewrite !elem_of_app. tauto.
Qed.

Lemma length_splice back items arr :
  length (Js.splice_insert_back back items arr) = length arr + length items.
Proof.
  destruct (splice_parts back items arr) as (a & b & -> & ->).
  rewrite !length_app. lia.
Qed.

Lemma place_arrays options h :
  options_wf options h →
  let lp := (place (paths options) h).1 in
  let h1 := (place (paths options) h).2 in
  let ls := (place (subpaths options) h1).1 in
  let h2 := (place (subpaths options) h1).2 in
  lp ≠ ls
  ∧ array h2 lp = given h (paths options)
  ∧ array h2 ls = given h (subpaths options)
  ∧ (∀ l, l ≠ lp → l ≠ ls → h2 !! l = h !! l).
Proof.
  intros (Hp & Hs & Hne). unfold place, given, array.
  destruct (paths options) as [lp|], (subpaths options) as [ls|]; simpl.
  - split; [by eapply Hne|]. done.
  - pose proof (is_fresh (dom h)) as Hf. destruct (Hp lp eq_refl) as [v Hv].
    assert (lp ≠ fresh (dom h)).
    { intros ->. apply Hf. apply elem_of_dom. eauto. }
    split; [done|]. rewrite lookup_insert_ne by done. rewrite lookup_insert_eq.
    split; [done|]. split; [done|]. intros. by rewrite lookup_insert_ne.
  - pose proof (is_fresh (dom h)) as Hf. destruct (Hs ls eq_refl) as [v Hv].
    assert (fresh (dom h) ≠ ls).
    { intros <-. apply Hf. apply elem_of_dom. eauto. }
    split; [done|]. rewrite lookup_insert_eq. rewrite lookup_insert_ne by done.
    split; [done|]. split; [done|]. intros. by rewrite lookup_insert_ne.
  - set (l1 := fresh (dom h)). set (l2 := fresh (dom (<[l1:=[]]> h))).
    assert (l1 ≠ l2).
    { intros E. pose proof (is_fresh (dom (<[l1:=[]]> h))) as Hf. fold l2 in Hf.
      apply Hf. rewrite <- E. apply elem_of_dom. rewrite lookup_insert_eq. eauto. }
    split; [done|]. rewrite lookup_insert_ne by done. rewrite !lookup_insert_eq.
    split; [done|]. split; [done|]. intros. by rewrite !lookup_insert_ne.
Qed.

Lemma normalized_arrays lp ls h :
  lp ≠ ls →
  array (normalized lp ls h) lp
    = Js.splice_insert_back 1 STANDARD_PATHS (RegExp.replace slashes <$> array h lp)
  ∧ array (normalized lp ls h) ls = RegExp.replace slashes <$> array h ls
  ∧ (∀ l, l ≠ lp → l ≠ ls → normalized lp ls h !! l = h !! l).
Proof.
  intros Hne. unfold normalized. split; [|split].
  - rewrite array_change_ne by done. rewrite array_change_eq.
    rewrite array_change_ne by done. by rewrite array_change_eq.
  - rewrite array_change_eq. unfold STANDARD_SUBPATHS. rewrite splice_nothing.
    rewrite array_change_ne by done. rewrite array_change_eq. by rewrite array_change_ne.
  - intros l H1 H2. unfold change. by rewrite !lookup_insert_ne.
Qed.


Section Paths.
Context `{DateApi}.

Lemma fmap_replace_slashes (l : list string) :
  RegExp.replace slashes <$> l = Js.without "/" <$> l.
Proof. apply list_fmap_ext. intros. apply replace_slashes. Qed.

Lemma policy_arrays host options w p w' :
  createBackendProxy host options w = (Ok p, w') →
  options_wf options (heap w) →
  ∃ lp ls, lp ≠ ls
    ∧ bypass p = Hooks.bypass lp ls
    ∧ (∀ l, paths options = Some l → lp = l)
    ∧ (∀ l, subpaths options = Some l → ls = l)
    ∧ array (heap w') lp
      = Js.splice_insert_back 1 STANDARD_PATHS (Js.without "/" <$> given (heap w) (paths options))
    ∧ array (heap w') ls = Js.without "/" <$> given (heap w) (subpaths options).
Proof.
  intros Hrun Hwf.
  destruct (createBackendProxy_inv _ _ _ _ _ Hrun) as (Hheap & re & re2 & _ & _ & Hb & _).
  destruct (place_arrays options (heap w) Hwf) as (Hne & Hlp & Hls & _).
  destruct (normalized_arrays _ _ (place (subpaths options) (place (paths options) (heap w)).2).2
              Hne) as (N1 & N2 & _).
  eexists _, _. split; [exact Hne|]. split; [exact Hb|].
  split; [|split; [|split]].
  - intros l E. rewrite E. done.
  - intros l E. rewrite E. done.
  - rewrite Hheap, N1, Hlp. by rewrite fmap_replace_slashes.
  - rewrite Hheap, N2, Hls. by rewrite fmap_replace_slashes.
Qed.

Lemma index_of_found_spec arr x :
  Js.index_of_found arr x = true ↔ ∃ s, x = Some s ∧ s ∈ arr.
Proof.
  unfold Js.index_of_found. destruct x as [s|].
  - rewrite bool_decide_eq_true. split; [eauto|]. by intros (? & [= <-] & ?).
  - split; [done|]. by intros (? & [=] & _).
Qed.

(** X27.  For a policy that [createBackendProxy] returns, [bypass]
    answers [false] (the request is proxied) exactly when the method is
    neither GET nor HEAD, or [parts[1]] of [req.url.split('/')] is one
    of the caller's paths without its slashes or a standard path, or
    [parts[2]] is one of the caller's subpaths without its slashes; in
    every other case it answers with the url of the request.  So GET
    /api/x and POST /foo are proxied, and GET /foo/bar is served
    locally when foo and bar are in neither set. *)
Theorem bypass_decision host options w p w' :
  createBackendProxy host options w = (Ok p, w') →
  options_wf options (heap w) →
  (∀ req,
     (routed options (heap w) req → bypass p (heap w') req = Proxied)
     ∧ (¬ routed options (heap w) req → bypass p (heap w') req = Local (url req)))
  ∧ (∀ c, bypass p (heap w') (mkReq "GET" "/api/x" c) = Proxied)
  ∧ (∀ c, bypass p (heap w') (mkReq "POST" "/foo" c) = Proxied)
  ∧ (∀ c, "foo" ∉ top_level options (heap w) → "bar" ∉ second_level options (heap w) →
       bypass p (heap w') (mkReq "GET" "/foo/bar" c) = Local "/foo/bar").
Proof.
  intros Hrun Hwf.
  destruct (policy_arrays _ _ _ _ _ Hrun Hwf) as (lp & ls & _ & Hb & _ & _ & Hlp & Hls).
  assert (Hgen : ∀ req,
     (routed options (heap w) req → bypass p (heap w') req = Proxied)
     ∧ (¬ routed options (heap w) req → bypass p (heap w') req = Local (url req))).
  { intros req. rewrite Hb. unfold Hooks.bypass.
    destruct (_ || _ || _) eqn:E.
    - split; [done|]. intros Hn. exfalso. apply Hn. unfold routed.
      apply orb_true_iff in E as [E|E]; [apply orb_true_iff in E as [E|E]|].
      + left. apply andb_true_iff in E as [E1 E2].
        apply negb_true_iff, bool_decide_eq_false in E1, E2. done.
      + right; left. apply index_of_found_spec in E as (s & Es & Hin).
        exists s. split; [done|]. unfold top_level. rewrite Hlp in Hin.
        apply elem_of_splice in Hin. rewrite elem_of_app. done.
      + right; right. apply index_of_found_spec in E as (s & Es & Hin).
        exists s. split; [done|]. unfold second_level. rewrite Hls in Hin.
        rewrite elem_of_app. by left.
    - split; [|done]. intros Hr. exfalso.
      apply orb_false_iff in E as [E E3]. apply orb_false_iff in E as [E1 E2].
      destruct Hr as [[Hg Hh]|[(s & Es & Hin)|(s & Es & Hin)]].
      + apply andb_false_iff in E1 as [E1|E1];
          apply negb_false_iff, bool_decide_eq_true in E1; done.
      + apply not_true_iff_false in E2. apply E2. apply index_of_found_spec.
        exists s. split; [done|]. rewrite Hlp. apply elem_of_splice.
        unfold top_level in Hin. rewrite elem_of_app in Hin. done.
      + apply not_true_iff_false in E3. apply E3. apply index_of_found_spec.
        exists s. split; [done|]. rewrite Hls.
        unfold second_level, STANDARD_SUBPATHS in Hin. by rewrite app_nil_r in Hin. }
  split; [exact Hgen|]. split; [|split].
  - intros c. apply Hgen. right; left. exists "api". split; [done|].
    unfold top_level, STANDARD_PATHS. rewrite elem_of_app, !elem_of_cons. tauto.
  - intros c. apply Hgen. left. done.
  - intros c Hfoo Hbar. apply (Hgen (mkReq "GET" "/foo/bar" c)).
    intros [[Hg _]|[(s & [= <-] & Hin)|(s & [= <-] & Hin)]]; done.
Qed.


Lemma occurrences_app s l1 l2 : occurrences s (l1 ++ l2) = occurrences s l1 + occurrences s l2.
Proof. unfold occurrences. by rewrite filter_app, length_app. Qed.

Lemma occurrences_splice s back items arr :
  occurrences s (Js.splice_insert_back back items arr)
  = occurrences s arr + occurrences s items.
Proof.
  destruct (splice_parts back items arr) as (a & b & -> & ->).
  rewrite !occurrences_app. lia.
Qed.

Lemma occurrences_fmap_standard s (l : list string) :
  s ∈ STANDARD_PATHS → occurrences s l ≤ occurrences s (Js.without "/" <$> l).
Proof.
  intros Hs. assert (Hw : Js.without "/" s = s).
  { unfold STANDARD_PATHS in Hs. rewrite !elem_of_cons, elem_of_nil in Hs.
    destruct Hs as [->|[->|[->|[->|[->|[->|[->|[->|[->|[]]]]]]]]]]; reflexivity. }
  unfold occurrences. induction l as [|x l IH]; [done|].
  rewrite fmap_cons, !filter_cons.
  destruct (decide (x = s)) as [->|Hx].
  - rewrite Hw. rewrite decide_True by done. simpl. lia.
  - destruct (decide (Js.without "/" x = s)); simpl; lia.
Qed.

Lemma occurrences_standard s : s ∈ STANDARD_PATHS → occurrences s STANDARD_PATHS = 1.
Proof.
  unfold STANDARD_PATHS. rewrite !elem_of_cons, elem_of_nil.
  intros [->|[->|[->|[->|[->|[->|[->|[->|[->|[]]]]]]]]]]; reflexivity.
Qed.

Lemma createBackendProxy_keeps_arrays host options w p w' :
  createBackendProxy host options w = (Ok p, w') →
  options_wf options (heap w) → options_wf options (heap w').
Proof.
  intros Hrun (Hp & Hs & Hne).
  destruct (createBackendProxy_inv _ _ _ _ _ Hrun) as (Hheap & _).
  split; [|split; [|exact Hne]].
  - intros l E. rewrite Hheap. rewrite E. simpl. unfold normalized.
    destruct (decide ((place (subpaths options) (heap w)).1 = l)) as [<-|Hd].
    + unfold change at 1. rewrite lookup_insert_eq. eauto.
    + unfold change at 1. rewrite lookup_insert_ne by done.
      unfold change at 1. rewrite lookup_insert_eq. eauto.
  - intros l E. rewrite Hheap. rewrite E. simpl. unfold normalized.
    unfold change at 1. rewrite lookup_insert_eq. eauto.
Qed.

(** C10, as amended.  [createBackendProxy] changes the caller's two
    arrays in place: every element loses its slashes, the nine
    standard paths are spliced into [options.paths], which grows by
    nine, and nothing is spliced into [options.subpaths], which keeps
    its length.  A second call with the same object inserts the
    standard paths again: [options.paths] is then longer by eighteen
    and holds every standard path twice at least, and the closures of
    both policies read the same two arrays. *)
Theorem caller_arrays_changed_in_place host options w p w' lp ls :
  createBackendProxy host options w = (Ok p, w') →
  options_wf options (heap w) →
  paths options = Some lp → subpaths options = Some ls →
  array (heap w') lp
    = Js.splice_insert_back 1 STANDARD_PATHS (Js.without "/" <$> array (heap w) lp)
  ∧ array (heap w') ls = Js.without "/" <$> array (heap w) ls
  ∧ length (array (heap w') lp) = length (array (heap w) lp) + 9
  ∧ length (array (heap w') ls) = length (array (heap w) ls)
  ∧ bypass p = Hooks.bypass lp ls
  ∧ ∀ p2 w'', createBackendProxy host options w' = (Ok p2, w'') →
      length (array (heap w'') lp) = length (array (heap w) lp) + 18
      ∧ length (array (heap w'') ls) = length (array (heap w) ls)
      ∧ (∀ s, s ∈ STANDARD_PATHS → 2 ≤ occurrences s (array (heap w'') lp))
      ∧ bypass p2 = bypass p.
Proof.
  intros Hrun Hwf Ep Es.
  destruct (policy_arrays _ _ _ _ _ Hrun Hwf) as (lp' & ls' & _ & Hb & Hlp & Hls & Ap & As).
  rewrite (Hlp _ Ep) in *. rewrite (Hls _ Es) in *. clear Hlp Hls.
  rewrite Ep in Ap. rewrite Es in As. simpl in Ap, As.
  split; [exact Ap|]. split; [exact As|].
  split; [by rewrite Ap, length_splice, length_fmap|].
  split; [by rewrite As, length_fmap|].
  split; [exact Hb|].
  intros p2 w'' Hrun2.
  pose proof (createBackendProxy_keeps_arrays _ _ _ _ _ Hrun Hwf) as Hwf'.
  destruct (policy_arrays _ _ _ _ _ Hrun2 Hwf') as (lp2 & ls2 & _ & Hb2 & Hlp & Hls & Ap2 & As2).
  rewrite (Hlp _ Ep) in *. rewrite (Hls _ Es) in *. clear Hlp Hls.
  rewrite Ep in Ap2. rewrite Es in As2. simpl in Ap2, As2.
  split; [|split; [|split]].
  - rewrite Ap2, length_splice, length_fmap, Ap, length_splice, length_fmap. simpl. lia.
  - by rewrite As2, length_fmap, As, length_fmap.
  - intros s Hs. rewrite Ap2, occurrences_splice.
    pose proof (occurrences_fmap_standard s (array (heap w') lp) Hs) as Hle.
    rewrite Ap in Hle at 1. rewrite occurrences_splice in Hle.
    rewrite (occurrences_standard s Hs) in *. lia.
  - congruence.
Qed.


End Paths.

Lemma match_at_session s : RegExp.match_at sessionCookieRe s = session_cookie s.
Proof.
  unfold RegExp.match_at, sessionCookieRe, session_cookie.
  cbn [RegExp.alternatives RegExp.ignoreCase RegExp.match_alternatives].
  rewrite match_terms_literal. change (String.length "sessionid=") with 10.
  destruct (String.prefix "sessionid=" s); [|done].
  generalize (Js.drop 10 s). clear s. intros v.
  cbn [RegExp.match_terms]. unfold RegExp.one at 1.
  destruct v as [|c v]; [done|]. cbn [RegExp.atom_ok Js.run].
  destruct (Js.is_word c); [|done].
  rewrite star_total.
  2:{ intros t. unfold RegExp.one. destruct t as [|x t]; [by eexists|].
      cbn [RegExp.atom_ok]. destruct (Ascii.eqb ";" x); by eexists. }
  cbn [Js.drop]. change (RegExp.atom_ok false RegExp.Word) with Js.is_word.
  destruct (Js.drop (Js.run Js.is_word v) v) as [|x t]; cbn -[Ascii.eqb].
  - f_equal; lia.
  - destruct (Ascii.eqb ";" x); cbn; f_equal; lia.
Qed.

Lemma replace_session s : RegExp.replace sessionCookieRe s = strip_first s.
Proof.
  unfold RegExp.replace. change (RegExp.global sessionCookieRe) with false. cbv iota.
  induction s as [|c s IH].
  - cbn [RegExp.replace_first strip_first]. by rewrite match_at_session.
  - cbn [RegExp.replace_first strip_first]. rewrite match_at_session, IH. done.
Qed.

Lemma compile_marker backend :
  Pattern.plain backend = true →
  Pattern.compile (BACKEND_COOKIE +:+ "=" +:+ backend +:+ ";?") false false
  = Some (RegExp.mk [RegExp.literal (BACKEND_COOKIE +:+ "=" +:+ backend)
                     ++ [RegExp.T (RegExp.Chr ";") RegExp.Opt]] false false).
Proof.
  intros Hb. unfold Pattern.compile.
  replace (BACKEND_COOKIE +:+ "=" +:+ backend +:+ ";?")
    with ((BACKEND_COOKIE +:+ "=" +:+ backend) +:+ ";?").
  2:{ unfold BACKEND_COOKIE. cbn [String.append]. done. }
  rewrite parse_plain.
  2:{ unfold Pattern.plain, BACKEND_COOKIE. cbn [String.append String.list_ascii_of_string forallb].
      exact Hb. }
  cbn. rewrite rev_app_distr, rev_involutive. done.
Qed.

Lemma marker_test_plain backend :
  Pattern.plain backend = true →
  ∃ re, Pattern.compile (BACKEND_COOKIE +:+ "=" +:+ backend +:+ ";?") false false = Some re
  ∧ ∀ c, RegExp.test re c = Js.includes (BACKEND_COOKIE +:+ "=" +:+ backend) c.
Proof.
  intros Hb. eexists. split; [by apply compile_marker|]. intros c. apply test_literal.
Qed.

Section Cookies.
Context `{DateApi}.

(** X28.  The request hook leaves an absent cookie header absent
    and a header in which the marker RegExp matches as it is.  In any
    other header it deletes the first match of [/sessionid=\w+;?/]
    only: the leftmost [sessionid=] that is followed by a word
    character, with the word characters after it and the [;] that
    follows them, if any. *)
Theorem session_cookie_stripped_once host options w p w' :
  createBackendProxy host options w = (Ok p, w') →
  ∃ re,
    Pattern.compile (BACKEND_COOKIE +:+ "=" +:+ backend options +:+ ";?") false false = Some re
    ∧ onProxyReq p None = None
    ∧ ∀ c, (RegExp.test re c = true → onProxyReq p (Some c) = Some c)
         ∧ (RegExp.test re c = false → onProxyReq p (Some c) = Some (strip_first c)).
Proof.
  intros Hrun.
  destruct (createBackendProxy_inv _ _ _ _ _ Hrun) as (_ & re & re2 & Hre & _ & _ & Hq & _).
  exists re. split; [exact Hre|]. rewrite Hq. split; [done|].
  intros c. unfold Hooks.onProxyReq. destruct c as [|x c].
  - simpl. done.
  - cbn [truthy]. rewrite replace_session.
    split; intros ->; done.
Qed.

Lemma no_session_cookie (l : list string) :
  (length (filter (λ c, RegExp.test sessionCookieRe c = true) l) =? 0)%nat
  = negb (existsb (RegExp.test sessionCookieRe) l).
Proof.
  induction l as [|c l IH]; [done|]. rewrite filter_cons. cbn [existsb].
  destruct (RegExp.test sessionCookieRe c) eqn:E.
  - rewrite decide_True by done. done.
  - rewrite decide_False by done. done.
Qed.

Lemma set_cookie_rewrite re2 hook now proxyRes req :
  set_cookie (Hooks.onProxyRes_rewrite re2 hook now proxyRes req)
  = set_cookie (hook now proxyRes req).
Proof.
  unfold Hooks.onProxyRes_rewrite.
  destruct (truthy (content_type (hook now proxyRes req))); [|done].
  by destruct (Js.includes "text/html" _).
Qed.

(** X29.  When the marker RegExp does not match the cookie header
    of the request (an absent header counts as the empty one), the
    response hook makes the [set-cookie] header the array of its
    values followed by the marker cookie, which expires 365 days after
    [new Date()] and has [path=/], and, when [/sessionid=\w+;?/]
    matches in no value of that array, by the cookie that expires
    [sessionid] at the first second of 1970.  When the marker RegExp
    matches, the hook leaves the values as insecure mode's wrapper has
    left them, which is as they came when the policy is not
    insecure. *)
Theorem marker_set_on_response host options w p w' :
  createBackendProxy host options w = (Ok p, w') →
  ∃ re,
    Pattern.compile (BACKEND_COOKIE +:+ "=" +:+ backend options +:+ ";?") false false = Some re
    ∧ ∀ now proxyRes req,
        let out := set_cookie (onProxyRes p now proxyRes req) in
        let before := Hooks.as_array (incoming options (set_cookie proxyRes)) in
        let marker :=
          BACKEND_COOKIE +:+ "=" +:+ backend options +:+ "; expires="
          +:+ toUTCString (setDate now (getDate now + 365)) +:+ "; path=/" in
        let expired := "sessionid=; expires=Thu, 01 Jan 1970 00:00:01 GMT; path=/" in
        (RegExp.test re (default "" (cookie req)) = true →
           out = incoming options (set_cookie proxyRes))
        ∧ (RegExp.test re (default "" (cookie req)) = false →
             out = Many (before ++ [marker]
                         ++ if existsb (RegExp.test sessionCookieRe) (before ++ [marker])
                            then [] else [expired])
             ∧ (RegExp.test sessionCookieRe marker = false →
                  out = Many (before ++ [marker]
                              ++ if existsb (RegExp.test sessionCookieRe) before
                                 then [] else [expired]))).
Proof.
  intros Hrun.
  destruct (createBackendProxy_inv _ _ _ _ _ Hrun)
    as (_ & re & re2 & Hre & _ & _ & _ & Hq & _).
  exists re. split; [exact Hre|]. intros now proxyRes req. cbv zeta.
  rewrite Hq. unfold response_hook.
  assert (Hlayer :
    set_cookie ((if insecure options
                 then Hooks.onProxyRes_insecure (Hooks.onProxyRes (backend options) re)
                 else Hooks.onProxyRes (backend options) re) now proxyRes req)
    = set_cookie (Hooks.onProxyRes (backend options) re now
                    (mkProxyRes (incoming options (set_cookie proxyRes))
                       (content_type proxyRes) (pipe proxyRes) (rewriting proxyRes)) req)).
  { unfold incoming, Hooks.onProxyRes_insecure. destruct (insecure options);
      [by destruct (set_cookie proxyRes) | by destruct proxyRes]. }
  assert (Hout : set_cookie (onProxyRes p now proxyRes req)
                 = set_cookie (Hooks.onProxyRes (backend options) re now
                    (mkProxyRes (incoming options (set_cookie proxyRes))
                       (content_type proxyRes) (pipe proxyRes) (rewriting proxyRes)) req)).
  { rewrite Hq. unfold response_hook. destruct re2; [rewrite set_cookie_rewrite|]; exact Hlayer. }
  rewrite Hq in Hout. unfold response_hook in Hout. rewrite Hout. clear Hout Hlayer.
  unfold Hooks.onProxyRes. cbn [set_cookie].
  split.
  - intros ->. done.
  - intros ->. cbn [negb set_cookie]. rewrite no_session_cookie.
    unfold Hooks.backend_cookie, Hooks.expired_session.
    set (before := Hooks.as_array _). set (marker := BACKEND_COOKIE +:+ _).
    split.
    + destruct (existsb _ _); cbn [negb]; by rewrite <- ?app_assoc, ?app_nil_r.
    + intros Hm. rewrite existsb_app. cbn [existsb]. rewrite Hm, !orb_false_r.
      destruct (existsb _ _); cbn [negb]; by rewrite <- ?app_assoc, ?app_nil_r.
Qed.

End Cookies.

Section Bodies.
Context `{DateApi}.

Lemma session_hook_frame backend re now proxyRes req :
  let out := Hooks.onProxyRes backend re now proxyRes req in
  content_type out = content_type proxyRes ∧ pipe out = pipe proxyRes
  ∧ rewriting out = rewriting proxyRes.
Proof. unfold Hooks.onProxyRes. by destruct (negb _). Qed.

Lemma inner_hook_frame options re now proxyRes req :
  let out := response_hook options re None now proxyRes req in
  content_type out = content_type proxyRes ∧ pipe out = pipe proxyRes
  ∧ rewriting out = rewriting proxyRes.
Proof.
  unfold response_hook. destruct (insecure options).
  - unfold Hooks.onProxyRes_insecure.
    apply (session_hook_frame (backend options) re now
             (mkProxyRes _ (content_type proxyRes) (pipe proxyRes) (rewriting proxyRes)) req).
  - apply session_hook_frame.
Qed.

Lemma respond_piped codec proxyRes chunks res :
  pipe proxyRes = true → rewriting proxyRes = [] → finished res = false →
  ∃ sent, respond codec proxyRes chunks res
    = (Ok (), mkRes (statusCode res) (headers res) sent (body res ++ (Bytes <$> chunks)) true).
Proof.
  intros Hp Hr Hf. unfold respond. rewrite Hp, Hr. cbn [foldr].
  assert (Hw : ∀ r, finished r = false →
            ∃ sent, foldr (λ chunk k, write (Bytes chunk);; k) (mret ()) chunks r
              = (Ok (), mkRes (statusCode r) (headers r) sent
                          (body r ++ (Bytes <$> chunks)) false)).
  { induction chunks as [|c cs IH]; intros r Hr'.
    - exists (headersSent r). cbn. rewrite app_nil_r. destruct r. cbn in *. by subst.
    - cbn [foldr]. unfold mbind at 1, St_bind at 1. unfold write at 1. rewrite Hr'.
      destruct (IH (mkRes (statusCode r) (headers r) true (body r ++ [Bytes c]) false) eq_refl)
        as (sent & ->).
      exists sent. cbn. by rewrite <- app_assoc. }
  destruct (Hw res Hf) as (sent & E).
  rewrite (bind_run _ _ _ _ _ E). rewrite (bind_run (mret ()) _ _ (Ok ()) _ eq_refl).
  exists true. done.
Qed.

Lemma respond_buffered codec proxyRes re chunks res plain :
  pipe proxyRes = false → rewriting proxyRes = [re] →
  headersSent res = false → finished res = false →
  (if bool_decide (headers res !! "content-encoding" = Some "gzip")
   then gunzipSync codec (foldl Hooks.on_data "" chunks) = Some plain
   else plain = foldl Hooks.on_data "" chunks) →
  respond codec proxyRes chunks res
  = (Ok (), mkRes (statusCode res) (delete "content-encoding" (headers res)) true
              (body res ++ [Text (RegExp.replace re (utf8_decode codec plain))]) true).
Proof.
  intros Hp Hr Hs Hf Hplain. unfold respond. rewrite Hp, Hr. cbn [foldr].
  rewrite (bind_run (mret ()) _ _ (Ok ()) _ eq_refl).
  unfold Hooks.on_end, hasHeader, getHeader, removeHeader, end_.
  unfold mbind, St_bind, mret, St_ret, throw. cbn.
  assert (Hg : bool_decide (is_Some (headers res !! "content-encoding"))
               && bool_decide (headers res !! "content-encoding" = Some "gzip")
               = bool_decide (headers res !! "content-encoding" = Some "gzip")).
  { destruct (headers res !! "content-encoding") as [e|]; [|done].
    by rewrite (bool_decide_eq_true_2 (is_Some (Some e))). }
  rewrite Hg. destruct (bool_decide (headers res !! "content-encoding" = Some "gzip")).
  - rewrite Hplain. cbn. rewrite Hs. cbn. rewrite Hf. done.
  - subst plain. cbn. rewrite Hs. cbn. rewrite Hf. done.
Qed.

(** X30.  With origins to rewrite, on a response whose
    content-type contains [text/html] the hook takes the body off the
    pipe: what reaches the client is one text, the whole buffered body
    (gunzipped first when the content-encoding of the response is
    gzip) with every match of the RegExp of the origins deleted, and
    the content-encoding header is removed.  The origins are joined
    into that RegExp as they are: for origins that are not empty and
    have no syntax character but the dot, the text is the body read
    from left to right with every origin met cut out, letter case
    aside, a dot of an origin standing for any character but a line
    break.  On any other response, one without a content-type
    included, the chunks reach the client as they came and the headers
    stay. *)
Theorem html_body_rewritten host options w p w' o os :
  createBackendProxy host options w = (Ok p, w') →
  originRewrites options = Some (o :: os) →
  ∃ re, Pattern.compile (Js.join "|" (o :: os)) true true = Some re
  ∧ ∀ codec now proxyRes req res chunks,
      pipe proxyRes = true → rewriting proxyRes = [] →
      headersSent res = false → finished res = false → body res = [] →
      let stream := foldl Hooks.on_data "" chunks in
      let ran := respond codec (onProxyRes p now proxyRes req) chunks res in
      (∀ ct plain,
         content_type proxyRes = Some ct → Js.includes "text/html" ct = true →
         (if bool_decide (headers res !! "content-encoding" = Some "gzip")
          then gunzipSync codec stream = Some plain
          else plain = stream) →
         ran.1 = Ok ()
         ∧ body ran.2 = [Text (RegExp.replace re (utf8_decode codec plain))]
         ∧ headers ran.2 = delete "content-encoding" (headers res)
         ∧ finished ran.2 = true
         ∧ (Forall Pattern.origin_ok (o :: os) →
              Pattern.Removed (o :: os) (utf8_decode codec plain)
                      (RegExp.replace re (utf8_decode codec plain))))
      ∧ ((∀ ct, content_type proxyRes = Some ct → Js.includes "text/html" ct = false) →
           ran.1 = Ok () ∧ body ran.2 = Bytes <$> chunks
           ∧ headers ran.2 = headers res ∧ finished ran.2 = true).
Proof.
  intros Hrun Horigins.
  destruct (createBackendProxy_inv _ _ _ _ _ Hrun)
    as (_ & re & re2 & _ & Hre2 & _ & _ & Hq & _).
  unfold origin_pattern in Hre2. rewrite Horigins in Hre2.
  destruct Hre2 as (Hc & [r2 ->]). exists r2. split; [exact Hc|].
  intros codec now proxyRes req res chunks Hp Hr Hs Hf Hb stream ran.
  subst ran. rewrite Hq. unfold response_hook.
  change (if insecure options
          then Hooks.onProxyRes_insecure (Hooks.onProxyRes (backend options) re)
          else Hooks.onProxyRes (backend options) re)
    with (response_hook options re None).
  unfold Hooks.onProxyRes_rewrite.
  destruct (inner_hook_frame options re now proxyRes req) as (Hct & Hpipe & Hrw).
  set (inner := response_hook options re None now proxyRes req) in *.
  rewrite Hct. split.
  - intros ct plain Ect Hhtml Hplain. rewrite Ect.
    assert (truthy (Some ct) = Some ct) as -> by (destruct ct; [done|done]).
    rewrite Hhtml.
    erewrite respond_buffered;
      [| done | cbn [rewriting]; by rewrite Hrw, Hr | done | done | exact Hplain].
    cbn. rewrite Hb. split; [done|]. split; [done|]. split; [done|]. split; [done|].
    intros Hok. rewrite (compile_origins _ _ Hok) in Hc. injection Hc as <-.
    unfold RegExp.replace. cbn [RegExp.global]. by apply removed_by_replace.
  - intros Hnot.
    assert (Hsame : match truthy (content_type proxyRes) with
                    | Some ct =>
                        if Js.includes "text/html" ct
                        then mkProxyRes (set_cookie inner) (content_type proxyRes) false
                                        (rewriting inner ++ [r2])
                        else inner
                    | None => inner
                    end = inner).
    { destruct (content_type proxyRes) as [ct|] eqn:Ect; [|done].
      destruct ct as [|c ct]; [done|]. cbn [truthy]. by rewrite (Hnot _ eq_refl). }
    rewrite Hsame.
    destruct (respond_piped codec inner chunks res) as (sent & ->);
      [by rewrite Hpipe | by rewrite Hrw | done |].
    cbn. by rewrite Hb.
Qed.

End Bodies.

(** X25.  The older request hook forwards every cookie header as it
    came, a session cookie included, and throws a TypeError on a
    request without a cookie header when the marker RegExp does not
    match the empty string. *)
Lemma legacy_request_hook_forwards re :
  (∀ c, Legacy.onProxyReq re (Some c) = Ok (Some c))
  ∧ (RegExp.test re "" = false → Legacy.onProxyReq re None = Throw TypeError).
Proof.
  split.
  - intros c. unfold Legacy.onProxyReq. by destruct (negb _).
  - intros Ht. unfold Legacy.onProxyReq. cbn [default]. by rewrite Ht.
Qed.

Section Totality.
Context `{DateApi}.

Lemma createBackendProxy_returns host options w :
  insecure options = true →
  Pattern.plain (backend options) = true →
  match originRewrites options with
  | Some (o :: os) => Forall Pattern.origin_ok (o :: os)
  | _ => True
  end →
  ∃ p w', createBackendProxy host options w = (Ok p, w').
Proof.
  intros Hi Hb Ho. unfold createBackendProxy.
  rewrite (bind_run _ _ _ _ _ (place_run (paths options) w)).
  rewrite (bind_run _ _ _ _ _ (place_run (subpaths options) _)).
  rewrite (bind_run _ _ _ _ _ (new_RegExp_run _ _ _ _)).
  rewrite (compile_marker _ Hb).
  rewrite !(bind_run _ _ _ _ _ (update_run _ _ _)).
  rewrite Hi. rewrite (bind_run (mret _) _ _ (Ok _) _ eq_refl).
  destruct (originRewrites options) as [[|o os]|]; [by eexists _, _| |by eexists _, _].
  rewrite (bind_run _ _ _ _ _ (new_RegExp_run _ _ _ _)).
  rewrite (compile_origins _ _ Ho). by eexists _, _.
Qed.

Lemma plain_policy host options w p w' :
  createBackendProxy host options w = (Ok p, w') →
  Pattern.plain (backend options) = true →
  onProxyReq p = Hooks.onProxyReq (marker_re (backend options))
  ∧ protocolRewrite p = Some (if insecure options then "http" else "https")
  ∧ heap w' = normalized (place (paths options) (heap w)).1
                (place (subpaths options) (place (paths options) (heap w)).2).1
                (place (subpaths options) (place (paths options) (heap w)).2).2
  ∧ ∃ re2, origin_pattern options re2
      ∧ onProxyRes p = response_hook options (marker_re (backend options)) re2.
Proof.
  intros Hrun Hb.
  destruct (createBackendProxy_inv _ _ _ _ _ Hrun)
    as (Hh & re & re2 & Hre & Hre2 & _ & Hq & Hs & Hp & _).
  rewrite (compile_marker _ Hb) in Hre. injection Hre as <-.
  split; [exact Hq|]. split; [exact Hp|]. split; [exact Hh|]. by exists re2.
Qed.

End Totality.

Lemma example_wf : options_wf Example.options (heap Example.world).
Proof.
  split; [|split].
  - intros l [= <-]. by eexists.
  - intros l [= <-]. by eexists.
  - intros l l' [= <-] [= <-]. done.
Qed.

Lemma bypass_decision_witness :
  match createBackendProxy Example.host Example.options Example.world with
  | (Ok p, w') =>
      options_wf Example.options (heap Example.world)
      ∧ (∀ req,
           (routed Example.options (heap Example.world) req →
              bypass p (heap w') req = Proxied)
           ∧ (¬ routed Example.options (heap Example.world) req →
                bypass p (heap w') req = Local (url req)))
      ∧ (∀ c, bypass p (heap w') (mkReq "GET" "/api/x" c) = Proxied)
      ∧ (∀ c, bypass p (heap w') (mkReq "POST" "/foo" c) = Proxied)
      ∧ (∀ c, "foo" ∉ top_level Example.options (heap Example.world) →
           "bar" ∉ second_level Example.options (heap Example.world) →
           bypass p (heap w') (mkReq "GET" "/foo/bar" c) = Local "/foo/bar")
  | _ => False
  end.
Proof.
  destruct (createBackendProxy_returns Example.host Example.options Example.world
              eq_refl eq_refl I) as (p & w' & E).
  rewrite E. split; [exact example_wf|].
  exact (bypass_decision _ _ _ _ _ E example_wf).
Defined.

Lemma session_cookie_stripped_once_witness :
  match createBackendProxy Example.host Example.options Example.world with
  | (Ok p, _) =>
      ∃ re,
        Pattern.compile (BACKEND_COOKIE +:+ "=" +:+ backend Example.options +:+ ";?")
                        false false = Some re
        ∧ onProxyReq p None = None
        ∧ ∀ c, (RegExp.test re c = true → onProxyReq p (Some c) = Some c)
             ∧ (RegExp.test re c = false → onProxyReq p (Some c) = Some (strip_first c))
  | _ => False
  end.
Proof.
  destruct (createBackendProxy_returns Example.host Example.options Example.world
              eq_refl eq_refl I) as (p & w' & E).
  rewrite E. exact (session_cookie_stripped_once _ _ _ _ _ E).
Defined.

Lemma marker_set_on_response_witness :
  match createBackendProxy Example.host Example.options Example.world with
  | (Ok p, _) =>
      ∃ re,
        Pattern.compile (BACKEND_COOKIE +:+ "=" +:+ backend Example.options +:+ ";?")
                        false false = Some re
        ∧ ∀ now proxyRes req,
            let out := set_cookie (onProxyRes p now proxyRes req) in
            let before :=
              Hooks.as_array (incoming Example.options (set_cookie proxyRes)) in
            let marker :=
              BACKEND_COOKIE +:+ "=" +:+ backend Example.options +:+ "; expires="
              +:+ toUTCString (setDate now (getDate now + 365)) +:+ "; path=/" in
            let expired := "sessionid=; expires=Thu, 01 Jan 1970 00:00:01 GMT; path=/" in
            (RegExp.test re (default "" (cookie req)) = true →
               out = incoming Example.options (set_cookie proxyRes))
            ∧ (RegExp.test re (default "" (cookie req)) = false →
                 out = Many (before ++ [marker]
                             ++ if existsb (RegExp.test sessionCookieRe) (before ++ [marker])
                                then [] else [expired])
                 ∧ (RegExp.test sessionCookieRe marker = false →
                      out = Many (before ++ [marker]
                                  ++ if existsb (RegExp.test sessionCookieRe) before
                                     then [] else [expired])))
  | _ => False
  end.
Proof.
  destruct (createBackendProxy_returns Example.host Example.options Example.world
              eq_refl eq_refl I) as (p & w' & E).
  rewrite E. exact (marker_set_on_response _ _ _ _ _ E).
Defined.

(** C6, on the failing input.  Insecure mode sets the protocol rewrite
    to http, but its wrapper deletes [secure] in lower case only: the
    value [token=1; Secure] of the claim comes out as it went in, and
    [token=1; secure] comes out as [token=1; ] with its blank. *)
Theorem insecure_leaves_capital_Secure :
  match createBackendProxy Example.host Example.options Example.world with
  | (Ok p, _) =>
      let req := mkReq "GET" "/api/x" (Some "proxybackend=http://b1") in
      let response v := mkProxyRes (Many [v]) None true [] in
      protocolRewrite p = Some "http"
      ∧ set_cookie (onProxyRes p 1793700000000%Z (response "token=1; Secure") req)
        = Many ["token=1; Secure"]
      ∧ set_cookie (onProxyRes p 1793700000000%Z (response "token=1; secure") req)
        = Many ["token=1; "]
  | _ => False
  end.
Proof.
  destruct (createBackendProxy_returns Example.host Example.options Example.world
              eq_refl eq_refl I) as (p & w' & E).
  rewrite E. destruct (plain_policy _ _ _ _ _ E eq_refl) as (_ & Hp & _ & re2 & Hre2 & ->).
  unfold origin_pattern in Hre2. cbn in Hre2. subst re2.
  split; [exact Hp|]. split; vm_compute; reflexivity.
Qed.

Lemma html_body_rewritten_witness :
  match createBackendProxy Example.host Example.rewriting_options Example.world with
  | (Ok p, _) =>
      originRewrites Example.rewriting_options = Some ["http://internal.example"]
      ∧ ∃ re, Pattern.compile (Js.join "|" ["http://internal.example"]) true true = Some re
        ∧ ∀ codec now proxyRes req res chunks,
            pipe proxyRes = true → rewriting proxyRes = [] →
            headersSent res = false → finished res = false → body res = [] →
            let stream := foldl Hooks.on_data "" chunks in
            let ran := respond codec (onProxyRes p now proxyRes req) chunks res in
            (∀ ct plain,
               content_type proxyRes = Some ct → Js.includes "text/html" ct = true →
               (if bool_decide (headers res !! "content-encoding" = Some "gzip")
                then gunzipSync codec stream = Some plain
                else plain = stream) →
               ran.1 = Ok ()
               ∧ body ran.2 = [Text (RegExp.replace re (utf8_decode codec plain))]
               ∧ headers ran.2 = delete "content-encoding" (headers res)
               ∧ finished ran.2 = true
               ∧ (Forall Pattern.origin_ok ["http://internal.example"] →
                    Pattern.Removed ["http://internal.example"] (utf8_decode codec plain)
                      (RegExp.replace re (utf8_decode codec plain))))
            ∧ ((∀ ct, content_type proxyRes = Some ct → Js.includes "text/html" ct = false) →
                 ran.1 = Ok () ∧ body ran.2 = Bytes <$> chunks
                 ∧ headers ran.2 = headers res ∧ finished ran.2 = true)
  | _ => False
  end.
Proof.
  assert (Hok : Forall Pattern.origin_ok ["http://internal.example"]).
  { repeat constructor. done. }
  destruct (createBackendProxy_returns Example.host Example.rewriting_options Example.world
              eq_refl eq_refl Hok) as (p & w' & E).
  rewrite E. split; [reflexivity|].
  exact (html_body_rewritten _ _ _ _ _ _ _ E eq_refl).
Defined.

(** C7, on the failing input.  The origins are joined into the
    RegExp without escaping, so the dots of [http://internal.example]
    stand for any character: the body holds no occurrence of the
    origin, in any letter case, and yet a part of it is deleted.  The
    documentation calls the option an array of origins. *)
Theorem dot_of_an_origin_is_a_wildcard :
  match createBackendProxy Example.host Example.rewriting_options Example.world with
  | (Ok p, _) =>
      let html := "<img src=http://internalXexample/a.png>" in
      let proxyRes := mkProxyRes Absent (Some "text/html; charset=utf-8") true [] in
      let proxyRes := onProxyRes p 0%Z proxyRes (mkReq "GET" "/" None) in
      Js.includes (Js.canonical "http://internal.example") (Js.canonical html) = false
      ∧ body (respond Example.codec proxyRes [html] fresh_response).2
        = [Text "<img src=/a.png>"]
  | _ => False
  end.
Proof.
  assert (Hok : Forall Pattern.origin_ok ["http://internal.example"]).
  { repeat constructor. done. }
  destruct (createBackendProxy_returns Example.host Example.rewriting_options Example.world
              eq_refl eq_refl Hok) as (p & w' & E).
  rewrite E. destruct (plain_policy _ _ _ _ _ E eq_refl) as (_ & _ & _ & re2 & Hre2 & ->).
  unfold origin_pattern in Hre2. cbn [originRewrites Example.rewriting_options] in Hre2.
  destruct Hre2 as (Hc & _). rewrite (compile_origins _ _ Hok) in Hc. subst re2.
  split; vm_compute; reflexivity.
Qed.

(** C1, on the failing input.  [bypass] cuts the segments out of
    the url with its query.  A GET for [/api?x=1], or for
    [/login?next=home], is a request whose first path segment is a
    standard path, and [bypass] answers with the url: the request is
    served locally.  The same path without a query is proxied. *)
Theorem standard_path_with_query_is_served_locally :
  match createBackendProxy Example.host Example.options Example.world with
  | (Ok p, w') =>
      let h := heap Example.world in
      Intent.routed Example.options h (mkReq "GET" "/api?x=1" None) = true
      ∧ bypass p (heap w') (mkReq "GET" "/api?x=1" None) = Local "/api?x=1"
      ∧ Intent.routed Example.options h (mkReq "GET" "/login?next=home" None) = true
      ∧ bypass p (heap w') (mkReq "GET" "/login?next=home" None) = Local "/login?next=home"
      ∧ bypass p (heap w') (mkReq "GET" "/api" None) = Proxied
  | _ => False
  end.
Proof.
  destruct (createBackendProxy_returns Example.host Example.options Example.world
              eq_refl eq_refl I) as (p & w' & E).
  rewrite E.
  destruct (createBackendProxy_inv _ _ _ _ _ E) as (-> & _ & _ & _ & _ & -> & _).
  repeat split; vm_compute; reflexivity.
Qed.

(** C4, on the failing inputs.  The marker RegExp is not anchored:
    for the backend [http://localhost:80] a header with the marker of
    [http://localhost:8000] counts as marked, and the session cookie
    made against the other backend is forwarded.  Of two session
    cookies in a header without a marker the second is forwarded.
    The older request hook forwards the session cookie of a header
    without a marker as it came. *)
Theorem session_of_another_backend_is_forwarded :
  match createBackendProxy Example.host Scenario.switched Example.world with
  | (Ok p, _) =>
      let header := "sessionid=abc; proxybackend=http://localhost:8000" in
      Intent.marked (backend Scenario.switched) header = false
      ∧ onProxyReq p (Some header) = Some header
      ∧ Intent.marked (backend Scenario.switched) "sessionid=a; sessionid=b" = false
      ∧ onProxyReq p (Some "sessionid=a; sessionid=b") = Some " sessionid=b"
      ∧ Legacy.onProxyReq (marker_re (backend Scenario.switched)) (Some "sessionid=abc")
        = Ok (Some "sessionid=abc")
  | _ => False
  end.
Proof.
  destruct (createBackendProxy_returns Example.host Scenario.switched Example.world
              eq_refl eq_refl I) as (p & w' & E).
  rewrite E. destruct (plain_policy _ _ _ _ _ E eq_refl) as (-> & _).
  repeat split; vm_compute; reflexivity.
Qed.

(** C5, on the failing inputs.  For the backend
    [http://localhost:80], the response to a request that carries the
    marker of [http://localhost:8000] gets no marker cookie: its
    [set-cookie] values are as they came.  And a new session cookie
    whose value starts with a character that is not a word character,
    as [.eJxabc] does, is not taken for one: the cookie that expires
    [sessionid] is put after it. *)
Theorem marker_of_another_backend_gets_no_cookie :
  match createBackendProxy Example.host Scenario.switched Example.world with
  | (Ok p, _) =>
      let now := 1793700000000%Z in
      let header := "sessionid=abc; proxybackend=http://localhost:8000" in
      let response v := mkProxyRes (Many [v]) None true [] in
      Intent.marked (backend Scenario.switched) header = false
      ∧ set_cookie (onProxyRes p now (response "csrftoken=x; Path=/")
                      (mkReq "GET" "/api/x" (Some header)))
        = Many ["csrftoken=x; Path=/"]
      ∧ Intent.sets_session "sessionid=.eJxabc; Path=/" = true
      ∧ set_cookie (onProxyRes p now (response "sessionid=.eJxabc; Path=/")
                      (mkReq "POST" "/login" None))
        = Many ["sessionid=.eJxabc; Path=/";
                "proxybackend=http://localhost:80; expires=Wed, 03 Nov 2027 10:00:00 GMT; path=/";
                "sessionid=; expires=Thu, 01 Jan 1970 00:00:01 GMT; path=/"]
  | _ => False
  end.
Proof.
  destruct (createBackendProxy_returns Example.host Scenario.switched Example.world
              eq_refl eq_refl I) as (p & w' & E).
  rewrite E. destruct (plain_policy _ _ _ _ _ E eq_refl) as (_ & _ & _ & re2 & Hre2 & ->).
  unfold origin_pattern in Hre2. cbn in Hre2. subst re2.
  repeat split; vm_compute; reflexivity.
Qed.

Lemma caller_arrays_changed_in_place_witness :
  match createBackendProxy Example.host Example.options Example.world with
  | (Ok p, w') =>
      let w := Example.world in
      options_wf Example.options (heap w)
      ∧ paths Example.options = Some 0 ∧ subpaths Example.options = Some 1
      ∧ array (heap w') 0
        = Js.splice_insert_back 1 STANDARD_PATHS (Js.without "/" <$> array (heap w) 0)
      ∧ array (heap w') 1 = Js.without "/" <$> array (heap w) 1
      ∧ length (array (heap w') 0) = length (array (heap w) 0) + 9
      ∧ length (array (heap w') 1) = length (array (heap w) 1)
      ∧ bypass p = Hooks.bypass 0 1
      ∧ ∀ p2 w'', createBackendProxy Example.host Example.options w' = (Ok p2, w'') →
          length (array (heap w'') 0) = length (array (heap w) 0) + 18
          ∧ length (array (heap w'') 1) = length (array (heap w) 1)
          ∧ (∀ s, s ∈ STANDARD_PATHS → 2 ≤ occurrences s (array (heap w'') 0))
          ∧ bypass p2 = bypass p
  | _ => False
  end.
Proof.
  destruct (createBackendProxy_returns Example.host Example.options Example.world
              eq_refl eq_refl I) as (p & w' & E).
  rewrite E. split; [exact example_wf|]. split; [reflexivity|]. split; [reflexivity|].
  exact (caller_arrays_changed_in_place _ _ _ _ _ 0 1 E example_wf eq_refl eq_refl).
Defined.

(** C10 as stated fails: after two calls with the same object the
    caller's subpaths array is as long as it was, while the paths
    array has gone from two elements to twenty. *)
Lemma subpaths_keep_their_length :
  match createBackendProxy Example.host Example.options Example.world with
  | (Ok _, w') =>
      match createBackendProxy Example.host Example.options w' with
      | (Ok _, w'') =>
          array (heap Example.world) 1 = ["export"]
          ∧ array (heap w') 1 = ["export"]
          ∧ array (heap w'') 1 = ["export"]
          ∧ length (array (heap w'') 0) = 20
      | _ => False
      end
  | _ => False
  end.
Proof.
  destruct (createBackendProxy_returns Example.host Example.options Example.world
              eq_refl eq_refl I) as (p & w' & E).
  rewrite E.
  destruct (createBackendProxy_returns Example.host Example.options w'
              eq_refl eq_refl I) as (p2 & w'' & E2).
  rewrite E2.
  destruct (plain_policy _ _ _ _ _ E2 eq_refl) as (_ & _ & -> & _).
  destruct (plain_policy _ _ _ _ _ E eq_refl) as (_ & _ & -> & _).
  repeat split; vm_compute; reflexivity.
Qed.

End ProxyFacts.

(** ** What a run may touch *)

Module ConfineFacts.
Import Node NodeFacts Confine.

Lemma keeps_ret {A} P (a : A) : keeps P (mret a).
Proof.
  intros w r w' [= _ <-]. split; [done|]. split; [done|]. split; [|done].
  exists []. by rewrite app_nil_r.
Qed.

Lemma keeps_throw {A} P e : keeps P (throw e : M A).
Proof.
  intros w r w' [= _ <-]. split; [done|]. split; [done|]. split; [|done].
  exists []. by rewrite app_nil_r.
Qed.

Lemma keeps_step {A B} P (m : M A) (k : Result A → M B) :
  keeps P m → (∀ r, keeps P (k r)) →
  ∀ w r w', (match m w with (r1, w1) => k r1 w1 end) = (r, w') →
    heap w' = heap w
    ∧ dirs w ⊆ dirs w'
    ∧ (∃ evs, trace w' = trace w ++ evs ∧ Forall P evs)
    ∧ ∀ p, (∀ data, ¬ P (Wrote p data)) → files w' !! p = files w !! p.
Proof.
  intros Hm Hk w r w'. destruct (m w) as [r1 w1] eqn:E. intros E2.
  destruct (Hm _ _ _ E) as (H1 & H2 & (e1 & H3 & H3') & H4).
  destruct (Hk _ _ _ _ E2) as (G1 & G2 & (e2 & G3 & G3') & G4).
  split; [congruence|]. split; [set_solver|]. split.
  - exists (e1 ++ e2). split; [by rewrite G3, H3, app_assoc | by apply Forall_app].
  - intros p Hp. rewrite G4, H4; done.
Qed.

Lemma keeps_bind {A B} P (m : M A) (f : A → M B) :
  keeps P m → (∀ a, keeps P (f a)) → keeps P (m ≫= f).
Proof.
  intros Hm Hf w r w' E.
  refine (keeps_step P m (λ r1, match r1 with Ok a => f a | Throw e => throw e end) Hm
            _ w r w' _); [intros [a|e]; [apply Hf | apply keeps_throw]|].
  unfold mbind, St_bind in E. destruct (m w) as [[a|e] w1]; exact E.
Qed.

Lemma keeps_catch {A} P (m : M A) (h : Error → M A) :
  keeps P m → (∀ e, keeps P (h e)) → keeps P (catch m h).
Proof.
  intros Hm Hh w r w' E.
  refine (keeps_step P m (λ r1, match r1 with Ok a => mret a | Throw e => h e end) Hm
            _ w r w' _); [intros [a|e]; [apply keeps_ret | apply Hh]|].
  unfold catch in E. destruct (m w) as [[a|e] w1]; exact E.
Qed.

Lemma keeps_emit P e : P e → keeps P (emit e).
Proof.
  intros He w r w' [= _ <-]. split; [done|]. split; [done|]. split; [|done].
  exists [e]. split; [done|]. by apply Forall_singleton.
Qed.

Lemma keeps_existsSync P p : keeps P (existsSync p).
Proof. intros w r w' [= _ <-]. exact (keeps_ret P () w _ _ eq_refl). Qed.

Lemma keeps_readFileSync P p : keeps P (readFileSync p).
Proof.
  intros w r w'. unfold readFileSync.
  destruct (files w !! p); intros [= _ <-]; exact (keeps_ret P () w _ _ eq_refl).
Qed.

Lemma keeps_store P p data : P (Wrote p data) → keeps P (store p data).
Proof.
  intros He w r w'. unfold store. case_bool_decide; intros [= _ <-].
  - split; [done|]. split; [done|]. split.
    + exists [Wrote p data]. split; [done|]. by apply Forall_singleton.
    + intros q Hq. simpl. apply lookup_insert_ne. intros <-. by apply (Hq data).
  - exact (keeps_ret P () w _ _ eq_refl).
Qed.

Lemma keeps_mkdirSync P host d : P (Mkdir d) → keeps P (mkdirSync host d).
Proof.
  intros He w r w'. unfold mkdirSync. case_bool_decide; [intros [= _ <-]; exact (keeps_ret P () w _ _ eq_refl)|].
  destruct (can_mkdir host d); intros [= _ <-]; [|exact (keeps_ret P () w _ _ eq_refl)].
  split; [done|]. split; [simpl; set_solver|]. split; [|done].
  exists [Mkdir d]. split; [done|]. by apply Forall_singleton.
Qed.

Lemma keeps_stores P (outs : list (path * string)) :
  Forall (λ o, P (Wrote o.1 o.2)) outs →
  keeps P (foldr (λ o k, store o.1 o.2;; k) (mret ()) outs).
Proof.
  induction 1 as [|o outs Ho _ IH]; simpl; [apply keeps_ret|].
  apply keeps_bind; [by apply keeps_store | done].
Qed.

Lemma keeps_execSync P host cmd : P (Spawn cmd) → keeps P (execSync host cmd).
Proof.
  intros He. unfold execSync. apply keeps_bind; [by apply keeps_emit|]. intros _.
  destruct (stdout_of host cmd); [apply keeps_ret | apply keeps_throw].
Qed.

Lemma keeps_execSync_writing P cmd outs :
  P (Spawn cmd) →
  (∀ l, outs = Some l → Forall (λ o, P (Wrote o.1 o.2)) l) →
  keeps P (execSync_writing cmd outs).
Proof.
  intros He Ho. unfold execSync_writing. apply keeps_bind; [by apply keeps_emit|]. intros _.
  destruct outs as [l|]; [|apply keeps_throw].
  apply keeps_catch; [apply keeps_stores; by apply Ho | intros; apply keeps_throw].
Qed.

End ConfineFacts.

(** ** The certificate bootstrap, further *)

Module BootstrapFacts.
Import Node Ssl NodeFacts SslFacts RegExpFacts Confine ConfineFacts Blanks.

Ltac in_list := first [apply list_elem_of_here | apply list_elem_of_further; in_list].

Ltac keeps :=
  repeat first
    [ progress intros
    | apply keeps_execSync_writing | apply keeps_execSync
    | apply keeps_existsSync | apply keeps_readFileSync
    | apply keeps_store | apply keeps_mkdirSync | apply keeps_emit
    | apply keeps_ret | apply keeps_throw
    | apply keeps_bind | apply keeps_catch
    | match goal with
      | |- keeps _ (match ?x with _ => _ end) => destruct x
      | |- keeps _ (if ?x then _ else _) => destruct x
      end ].

Lemma keeps_gather_alt_names host options ds ips :
  keeps (bootstrap_event host options) (gather_alt_names host ds ips).
Proof.
  unfold gather_alt_names. keeps;
    unfold bootstrap_event, bootstrap_commands; in_list.
Qed.

Lemma keeps_createSelfSignedCert host options :
  keeps (bootstrap_event host options) (createSelfSignedCert host options).
Proof.
  unfold createSelfSignedCert, ensure_ca, ensure_leaf, writeFileSync.
  fold (file host options "symmetric_ca.key") (file host options "symmetric_ca.crt")
       (file host options "symmetric_ca.ext") (file host options "symmetric.key")
       (file host options "symmetric.csr") (file host options "symmetric.crt")
       (file host options "symmetric.ext").
  assert (Hf : ∀ n data, n ∈ root_files →
            bootstrap_event host options (Wrote (file host options n) data)).
  { intros n data Hn. unfold bootstrap_event. by apply list_elem_of_fmap_2. }
  assert (Hc : ∀ c, c ∈ bootstrap_commands host options →
            bootstrap_event host options (Spawn c)) by done.
  keeps.
  all: try apply keeps_gather_alt_names.
  all: try (apply Hf; unfold root_files; in_list).
  all: try (apply Hc; unfold bootstrap_commands; in_list).
  all: try done.
  all: match goal with
       | H : _ <$> ?x = Some _ |- _ => destruct x as [[??]|]; [|done]; injection H as <-
       end.
  all: repeat constructor; simpl.
  all: try (apply Hf; unfold root_files; in_list).
  all: apply (Hf "symmetric_ca.srl"); unfold root_files; in_list.
Qed.

(** X1.  Whatever it returns, [createSelfSignedCert] changes no
    array and removes no directory.  What it does itself is confined
    to the storage root: it makes no directory but that one, the files
    that it writes through [fs] and has [openssl] write are among the
    eight of the storage root, it runs no command but its own eight
    and opens no port.  One of the eight commands is [security
    add-trusted-cert], which works on the login keychain of the user:
    what the commands do elsewhere is theirs. *)
Theorem bootstrap_stays_in_its_root host options w :
  let ran := createSelfSignedCert host options w in
  heap ran.2 = heap w
  ∧ dirs w ⊆ dirs ran.2
  ∧ ∃ evs, trace ran.2 = trace w ++ evs ∧ ∀ e, e ∈ evs → bootstrap_event host options e.
Proof.
  intros ran.
  destruct (keeps_createSelfSignedCert host options w ran.1 ran.2 (surjective_pairing _))
    as (H1 & H2 & (evs & H3 & H3') & _).
  split; [done|]. split; [done|].
  exists evs. split; [done|]. by apply Forall_forall.
Qed.


Lemma root_made host options w r w' :
  root_usable host options w →
  createSelfSignedCert host options w = (r, w') →
  storage_root host options ∈ dirs w'.
Proof.
  intros Hroot.
  destruct (mkdir_step host (storage_root host options) w) as (w0 & E0 & _ & Hdir).
  specialize (Hdir Hroot).
  unfold createSelfSignedCert. rewrite (bind_run _ _ _ _ _ E0).
  lazymatch goal with
  | |- ?m w0 = _ → _ => assert (Hk : keeps (λ _, True) m)
  end.
  { unfold ensure_ca, ensure_leaf, gather_alt_names, writeFileSync. keeps; try done.
    all: by apply Forall_forall. }
  intros Hrun. destruct (Hk _ _ _ Hrun) as (_ & Hd & _). set_solver.
Qed.

(** X2.  After a run that returned the paths, a second run on the
    same machine with the same options returns the same paths, leaves
    every file as it is and runs the three probes only: nothing is
    made or written again. *)
Theorem second_run_reuses_everything host options w made w1 :
  root_usable host options w →
  createSelfSignedCert host options w = (Ok made, w1) →
  ∃ w2, createSelfSignedCert host options w1 = (Ok made, w2)
    ∧ files w2 = files w1
    ∧ trace w2 = trace w1 ++ probes host.
Proof.
  intros Hroot Hrun.
  pose proof (root_made _ _ _ _ _ Hroot Hrun) as Hdir.
  destruct (createSelfSignedCert_run host options w Hroot) as (w1' & E & [_ _ Hfiles _]).
  rewrite Hrun in E. injection E as Hr Hw. subst w1'.
  assert (Hboth : ca_present host options w1 ∧ leaf_current host options w1
                  ∧ made = mkFiles (file host options "symmetric.key")
                             (file host options "symmetric.crt")
                             (file host options "symmetric_ca.key")
                             (file host options "symmetric_ca.crt")).
  { unfold ca_present, leaf_current. rewrite Hfiles. revert Hr. unfold bootstrap.
    ca_cases host options w; leaf_cases host options w; intros Hr; try discriminate Hr.
    all: injection Hr as <-.
    all: unfold ca_present, leaf_current in *.
    all: repeat split; lookups; try tauto; try (by eexists). }
  destruct Hboth as (Hca & Hleaf & ->).
  destruct (createSelfSignedCert_run host options w1 (or_introl Hdir))
    as (w2 & E2 & [_ Hd2 Hf2 Ht2]).
  exists w2. revert E2 Hf2 Ht2. unfold bootstrap, ca_step, leaf_step, made_dir.
  rewrite (decide_True (P := ca_present host options w1)) by done.
  rewrite (decide_True (P := leaf_current host options w1)) by done.
  rewrite (bool_decide_eq_true_2 _ Hdir). cbn.
  intros E2 Hf2 Ht2. rewrite ?app_nil_r in Ht2. done.
Qed.

Lemma second_run_reuses_everything_witness :
  match createSelfSignedCert Example.host None Example.world with
  | (Ok made, w1) =>
      root_usable Example.host None Example.world
      ∧ ∃ w2, createSelfSignedCert Example.host None w1 = (Ok made, w2)
        ∧ files w2 = files w1
        ∧ trace w2 = trace w1 ++ probes Example.host
  | _ => False
  end.
Proof.
  assert (Hroot : root_usable Example.host None Example.world) by (right; reflexivity).
  destruct (createSelfSignedCert_run Example.host None Example.world Hroot) as (w1 & E & _).
  destruct ((bootstrap Example.host None Example.world).1.1) as [made|e] eqn:Hb;
    [|vm_compute in Hb; discriminate Hb].
  rewrite E. split; [exact Hroot|].
  exact (second_run_reuses_everything _ _ _ _ _ Hroot E).
Defined.

(** X3.  When the root certificate is missing and [openssl] fails
    to make it, the call throws the failure of that command; the
    extension file of the root certificate has been written before,
    and no probe and no leaf command is run after. *)
Theorem root_certificate_failure_stops_the_run host options w :
  root_usable host options w →
  ¬ ca_present host options w →
  new_ca host = None →
  let f := file host options in
  let cmd := ca_command (f "symmetric_ca.key") (f "symmetric_ca.crt") (f "symmetric_ca.ext") in
  ∃ w', createSelfSignedCert host options w = (Throw (ExitStatus cmd), w')
    ∧ trace w' = trace w ++ made_dir host options w
                 ++ [Wrote (f "symmetric_ca.ext") caExtData; Spawn cmd].
Proof.
  intros Hroot Hca Hnew f cmd.
  destruct (createSelfSignedCert_run host options w Hroot) as (w' & E & [_ _ _ Ht]).
  exists w'. revert E Ht. unfold bootstrap, ca_step, making_ca.
  rewrite (decide_False (P := ca_present host options w)) by done. rewrite Hnew. cbn.
  intros E Ht. done.
Qed.

Lemma root_certificate_failure_stops_the_run_witness :
  root_usable Scenario.bare None Example.world
  ∧ ¬ ca_present Scenario.bare None Example.world
  ∧ new_ca Scenario.bare = None
  ∧ let f := file Scenario.bare None in
    let cmd := ca_command (f "symmetric_ca.key") (f "symmetric_ca.crt") (f "symmetric_ca.ext") in
    ∃ w', createSelfSignedCert Scenario.bare None Example.world = (Throw (ExitStatus cmd), w')
      ∧ trace w' = trace Example.world ++ made_dir Scenario.bare None Example.world
                   ++ [Wrote (f "symmetric_ca.ext") caExtData; Spawn cmd].
Proof.
  assert (Hroot : root_usable Scenario.bare None Example.world) by (right; reflexivity).
  assert (Hca : ¬ ca_present Scenario.bare None Example.world).
  { intros [[v Hv] _]. vm_compute in Hv. discriminate Hv. }
  split; [exact Hroot|]. split; [exact Hca|]. split; [reflexivity|].
  exact (root_certificate_failure_stops_the_run _ _ _ Hroot Hca eq_refl).
Defined.

(** X4.  The SAN document is written before the request is made.
    So when key and certificate of an earlier issuance are on disk
    and [openssl req] fails without writing, the call throws, the
    stored document is already the new one and key and certificate
    are the old ones: the next run compares the document equal and
    returns the old certificate as current, writing nothing. *)
Theorem failed_issuance_is_taken_for_current host options w r w1 :
  root_usable host options w →
  ca_present host options w →
  ¬ leaf_current host options w →
  is_Some (files w !! file host options "symmetric.key") →
  is_Some (files w !! file host options "symmetric.crt") →
  new_request host = None →
  createSelfSignedCert host options w = (r, w1) →
  let f := file host options in
  r = Throw (ExitStatus (request_command (f "symmetric.key") (f "symmetric.csr")))
  ∧ files w1 !! f "symmetric.ext" = Some (san_document host options)
  ∧ files w1 !! f "symmetric.key" = files w !! f "symmetric.key"
  ∧ files w1 !! f "symmetric.crt" = files w !! f "symmetric.crt"
  ∧ ∃ w2, createSelfSignedCert host options w1
          = (Ok (mkFiles (f "symmetric.key") (f "symmetric.crt")
                         (f "symmetric_ca.key") (f "symmetric_ca.crt")), w2)
      ∧ files w2 = files w1.
Proof.
  intros Hroot Hca Hleaf Hk Hc Hreq Hrun f. subst f.
  pose proof (root_made _ _ _ _ _ Hroot Hrun) as Hdir.
  destruct (createSelfSignedCert_run host options w Hroot) as (w1' & E & [_ _ Hfiles _]).
  rewrite Hrun in E. injection E as Hr Hw. subst w1'.
  revert Hr Hfiles. unfold bootstrap, ca_step, leaf_step, making_leaf.
  rewrite (decide_True (P := ca_present host options w)) by done.
  rewrite (decide_False (P := leaf_current host options w)) by done.
  rewrite Hreq. cbn. intros -> Hfiles.
  assert (He1 : files w1 !! file host options "symmetric.ext" = Some (san_document host options)).
  { rewrite Hfiles. by lookups. }
  assert (Hk1 : files w1 !! file host options "symmetric.key"
                = files w !! file host options "symmetric.key").
  { rewrite Hfiles. by lookups. }
  assert (Hc1 : files w1 !! file host options "symmetric.crt"
                = files w !! file host options "symmetric.crt").
  { rewrite Hfiles. by lookups. }
  split; [done|]. split; [done|]. split; [done|]. split; [done|].
  assert (Hca1 : ca_present host options w1).
  { unfold ca_present in *. rewrite Hfiles. destruct Hca. split; by lookups. }
  assert (Hleaf1 : leaf_current host options w1).
  { unfold leaf_current. by rewrite He1, Hk1, Hc1. }
  destruct (createSelfSignedCert_run host options w1 (or_introl Hdir))
    as (w2 & E2 & [_ _ Hf2 _]).
  exists w2. revert E2 Hf2. unfold bootstrap, ca_step, leaf_step.
  rewrite (decide_True (P := ca_present host options w1)) by done.
  rewrite (decide_True (P := leaf_current host options w1)) by done.
  cbn. done.
Qed.

Lemma failed_issuance_is_taken_for_current_witness :
  let host := Scenario.bare in
  let w := Scenario.issued in
  let ran := createSelfSignedCert host None w in
  let f := file host None in
  root_usable host None w
  ∧ ca_present host None w
  ∧ ¬ leaf_current host None w
  ∧ ran.1 = Throw (ExitStatus (request_command (f "symmetric.key") (f "symmetric.csr")))
  ∧ files ran.2 !! f "symmetric.ext" = Some (san_document host None)
  ∧ files ran.2 !! f "symmetric.key" = files w !! f "symmetric.key"
  ∧ files ran.2 !! f "symmetric.crt" = files w !! f "symmetric.crt"
  ∧ ∃ w2, createSelfSignedCert host None ran.2
          = (Ok (mkFiles (f "symmetric.key") (f "symmetric.crt")
                         (f "symmetric_ca.key") (f "symmetric_ca.crt")), w2)
      ∧ files w2 = files ran.2.
Proof.
  assert (Hroot : root_usable Scenario.bare None Scenario.issued) by (right; reflexivity).
  assert (Hca : ca_present Scenario.bare None Scenario.issued).
  { split; by eexists. }
  assert (Hleaf : ¬ leaf_current Scenario.bare None Scenario.issued).
  { intros [Hv _]. vm_compute in Hv. discriminate Hv. }
  split; [exact Hroot|]. split; [exact Hca|]. split; [exact Hleaf|].
  exact (failed_issuance_is_taken_for_current Scenario.bare None Scenario.issued _ _
           Hroot Hca Hleaf ltac:(by eexists) ltac:(by eexists) eq_refl (surjective_pairing _)).
Defined.

Lemma add_prefix x (l : list string) : l `prefix_of` add x l.
Proof. unfold add. case_bool_decide; [done|]. by apply prefix_app_r. Qed.

Lemma add_each_prefix xs (l : list string) : l `prefix_of` add_each xs l.
Proof.
  revert l. induction xs as [|x xs IH]; intros l; [done|].
  cbn [add_each foldl]. etrans; [apply (add_prefix x)|]. apply IH.
Qed.

Lemma elem_of_add x (l : list string) : x ∈ add x l.
Proof. unfold add. case_bool_decide; [done|]. set_solver. Qed.

Lemma elem_of_add_each x xs (l : list string) : x ∈ xs → x ∈ add_each xs l.
Proof.
  revert l. induction xs as [|y xs IH]; intros l Hx; [by apply elem_of_nil in Hx|].
  cbn [add_each foldl]. apply elem_of_cons in Hx as [->|Hx]; [|by apply IH].
  eapply elem_of_prefix; [apply elem_of_add | apply (add_each_prefix xs)].
Qed.

Lemma discovered_appends host (ds ips : list string) :
  ds `prefix_of` (discovered host ds ips).1
  ∧ length (discovered host ds ips).1 ≤ S (length ds)
  ∧ ips `prefix_of` (discovered host ds ips).2
  ∧ (NoDup ips → NoDup (discovered host ds ips).2).
Proof.
  unfold discovered. cbn [fst snd]. split; [|split; [|split]].
  - destruct (stdout_of host uname_command); [by apply prefix_app_r | done].
  - destruct (stdout_of host uname_command); [rewrite length_app; simpl; lia | lia].
  - destruct (stdout_of host dig_command); [etrans; [|apply add_prefix]|];
      case_bool_decide;
      destruct (stdout_of host hostname_command), (stdout_of host ifconfig_command);
      first [apply add_each_prefix | done].
  - intros Hnd.
    destruct (stdout_of host dig_command); [apply add_NoDup|];
      case_bool_decide;
      destruct (stdout_of host hostname_command), (stdout_of host ifconfig_command);
      first [by apply add_each_NoDup | done].
Qed.

(** X5.  Host discovery never throws, whatever its commands do, and
    writes no file.  It only appends: the lists it is given are
    prefixes of the lists it returns, the domain list grows by one
    name at most, and an address list without duplicates stays
    without duplicates. *)
Theorem discovery_only_appends host ds ips w :
  ∃ names w', gather_alt_names host ds ips w = (Ok names, w')
    ∧ files w' = files w
    ∧ ds `prefix_of` names.1
    ∧ length names.1 ≤ S (length ds)
    ∧ ips `prefix_of` names.2
    ∧ (NoDup ips → NoDup names.2).
Proof.
  destruct (gather_alt_names_spec host ds ips w) as (w' & E & [_ _ Hf _]).
  exists (discovered host ds ips), w'. split; [done|]. split; [done|].
  apply discovered_appends.
Qed.

(** X6.  On a machine where [uname], the address command of the
    platform and [dig] all fail, discovery returns the two lists as
    they were given, after running the three commands. *)
Theorem silent_machine_adds_nothing host ds ips w :
  stdout_of host uname_command = None →
  stdout_of host (if bool_decide (platform host ≠ "darwin")
                  then hostname_command else ifconfig_command) = None →
  stdout_of host dig_command = None →
  ∃ w', gather_alt_names host ds ips w = (Ok (ds, ips), w')
    ∧ trace w' = trace w ++ probes host.
Proof.
  intros Hu Hh Hd.
  destruct (gather_alt_names_spec host ds ips w) as (w' & E & [_ _ _ Ht]).
  exists w'. split; [|exact Ht]. rewrite E. unfold discovered. rewrite Hu, Hd.
  case_bool_decide; by rewrite Hh.
Qed.

Lemma silent_machine_adds_nothing_witness :
  ∃ w', gather_alt_names Scenario.bare ["localhost"] ["127.0.0.1"] Example.world
        = (Ok (["localhost"], ["127.0.0.1"]), w')
    ∧ trace w' = trace Example.world ++ probes Scenario.bare.
Proof.
  exact (silent_machine_adds_nothing Scenario.bare ["localhost"] ["127.0.0.1"] Example.world
           eq_refl eq_refl eq_refl).
Defined.

(** X7.  When [dig], or the address command of the platform,
    succeeds with nothing but white space on its output, the empty
    string is entered in the address list: [''.split(' ')] is [['']]
    and [addIP] takes any string. *)
Theorem blank_answer_becomes_an_address host ds ips w out :
  stdout_of host dig_command = Some out
  ∨ (platform host ≠ "darwin" ∧ stdout_of host hostname_command = Some out)
  ∨ (platform host = "darwin" ∧ stdout_of host ifconfig_command = Some out) →
  Js.trim out = "" →
  ∃ names w', gather_alt_names host ds ips w = (Ok names, w') ∧ "" ∈ names.2.
Proof.
  intros Hout Hblank.
  destruct (gather_alt_names_spec host ds ips w) as (w' & E & _).
  exists (discovered host ds ips), w'. split; [done|].
  unfold discovered. cbn [snd].
  assert (Hkeep : ∀ l : list string, "" ∈ l →
            "" ∈ match stdout_of host dig_command with
                 | Some out => add (Js.trim out) l
                 | None => l
                 end).
  { intros l Hl. destruct (stdout_of host dig_command); [|done].
    eapply elem_of_prefix; [exact Hl | apply add_prefix]. }
  destruct Hout as [Hd|[[Hp Hh]|[Hp Hi]]].
  - rewrite Hd, Hblank. apply elem_of_add.
  - apply Hkeep. rewrite (bool_decide_eq_true_2 _ Hp), Hh, Hblank.
    apply elem_of_add_each. cbn. set_solver.
  - apply Hkeep. rewrite bool_decide_eq_false_2 by (intros Hn; by apply Hn).
    rewrite Hi, Hblank. apply elem_of_add_each. cbn. set_solver.
Qed.

Lemma blank_answer_becomes_an_address_witness :
  Js.trim Js.nl = ""
  ∧ ∃ names w', gather_alt_names Scenario.offline ["localhost"] ["127.0.0.1"] Example.world
                = (Ok names, w') ∧ "" ∈ names.2.
Proof.
  split; [reflexivity|].
  exact (blank_answer_becomes_an_address Scenario.offline ["localhost"] ["127.0.0.1"]
           Example.world Js.nl (or_introl eq_refl) eq_refl).
Defined.

(** X8.  Every domain of [additionalDomains] and every address of
    [additionalIPs] is in the SAN set.  The two lists as they stand
    before discovery have no duplicate, so a name given twice, or one
    that is a seed, is entered once; and they are prefixes of the
    lists of the SAN set. *)
Theorem requested_names_are_covered host o :
  let names := san_set host (Some o) in
  (∀ ds d, additionalDomains o = Some ds → d ∈ ds → d ∈ names.1)
  ∧ (∀ ips ip, additionalIPs o = Some ips → ip ∈ ips → ip ∈ names.2)
  ∧ NoDup (seeded (Some o)).1
  ∧ NoDup (seeded (Some o)).2
  ∧ (seeded (Some o)).1 `prefix_of` names.1
  ∧ (seeded (Some o)).2 `prefix_of` names.2.
Proof.
  intros names.
  destruct (discovered_appends host (seeded (Some o)).1 (seeded (Some o)).2)
    as (P1 & _ & P2 & _).
  fold (san_set host (Some o)) in P1, P2.
  assert (S1 : ∀ ds d, additionalDomains o = Some ds → d ∈ ds → d ∈ (seeded (Some o)).1).
  { intros ds d Hds Hd. unfold seeded. cbn. rewrite Hds. by apply elem_of_add_each. }
  assert (S2 : ∀ ips ip, additionalIPs o = Some ips → ip ∈ ips → ip ∈ (seeded (Some o)).2).
  { intros ips ip Hips Hip. unfold seeded. cbn. rewrite Hips. by apply elem_of_add_each. }
  split; [|split; [|split; [|split; [|split]]]].
  - intros ds d Hds Hd. eapply elem_of_prefix; [by eapply S1 | exact P1].
  - intros ips ip Hips Hip. eapply elem_of_prefix; [by eapply S2 | exact P2].
  - unfold seeded. cbn. destruct (additionalDomains o);
      [apply add_each_NoDup|]; apply NoDup_singleton.
  - unfold seeded. cbn. destruct (additionalIPs o);
      [apply add_each_NoDup|]; apply NoDup_singleton.
  - exact P1.
  - exact P2.
Qed.

(** X10.  The older [createSelfSignedCert] has no reuse: whenever
    the storage root is usable, a root certificate is there or can be
    made and [openssl] succeeds, it writes the SAN document, runs the
    request and the signing command and leaves the new key and
    certificate on disk, also when the certificate on disk was
    current; it returns the key and certificate paths only. *)
Theorem older_bootstrap_always_reissues host options w k q c s :
  root_usable host options w →
  ca_present host options w ∨ is_Some (new_ca host) →
  new_request host = Some (k, q) →
  new_cert host = Some (c, s) →
  let f := file host options in
  ∃ w' evs,
    LegacySsl.createSelfSignedCert host options w
    = (Ok (f "symmetric.key", f "symmetric.crt"), w')
    ∧ trace w' = trace w ++ evs
        ++ [Wrote (f "symmetric.ext") (san_document host options);
            Spawn (request_command (f "symmetric.key") (f "symmetric.csr"));
            Wrote (f "symmetric.key") k; Wrote (f "symmetric.csr") q;
            Spawn (sign_command (f "symmetric_ca.crt") (f "symmetric_ca.key")
                     (f "symmetric.csr") (f "symmetric.crt") (f "symmetric.ext"));
            Wrote (f "symmetric.crt") c; Wrote (f "symmetric_ca.srl") s]
    ∧ files w' !! f "symmetric.ext" = Some (san_document host options)
    ∧ files w' !! f "symmetric.key" = Some k
    ∧ files w' !! f "symmetric.crt" = Some c.
Proof.
  intros Hroot Hca Hq Hc f. subst f.
  unfold LegacySsl.createSelfSignedCert. fold (seeded options).
  set (dir := storage_root host options).
  change (dir, ?n) with (file host options n).
  destruct (mkdir_step host dir w) as (w0 & E0 & [_ _ Hf0 Ht0] & Hdir).
  specialize (Hdir Hroot). rewrite (bind_run _ _ _ _ _ E0). cbv beta iota.
  unfold existsSync at 1. unfold mbind at 1, St_bind at 1. cbv beta iota.
  unfold existsSync at 1. unfold mbind at 1, St_bind at 1. cbv beta iota.
  set (ca := if _ : bool then _ else _).
  assert (Hcastep : ∃ w1 evs1, ca w0 = (Ok (), w1) ∧ dir ∈ dirs w1
            ∧ trace w1 = trace w0 ++ evs1).
  { subst ca. destruct Hca as [[Hk Hcc]|[[k' c'] Hnew]].
    - rewrite !bool_decide_eq_true_2 by (by rewrite Hf0). cbn.
      exists w0, []. by rewrite app_nil_r.
    - destruct (negb _ || negb _); [|exists w0, []; by rewrite app_nil_r].
      rewrite Hnew. run.
      destruct (stdout_of host (trust_command (file host options "symmetric_ca.crt")));
        eexists _, _; (split; [reflexivity|]); simpl; (split; [done|]);
        by rewrite <- !app_assoc. }
  destruct Hcastep as (w1 & evs1 & E1 & Hd1 & Ht1).
  rewrite (bind_run _ _ _ _ _ E1). cbv beta iota.
  destruct (gather_alt_names_spec host (seeded options).1 (seeded options).2 w1)
    as (w2 & E2 & [_ Hd2 _ Ht2]).
  rewrite (bind_run _ _ _ _ _ E2). cbv beta iota.
  fold (san_set host options). fold (san_document host options).
  assert (Hdir2 : (file host options "symmetric.ext").1 ∈ dirs w2) by exact (Hd2 _ Hd1).
  assert (Ht : ∃ evs, trace w2 = trace w ++ evs).
  { eexists. rewrite Ht2, Ht1, Ht0, <- !app_assoc. reflexivity. }
  destruct Ht as (evs & Ht). clear Ht0 Ht1 Ht2.
  rewrite Hq, Hc. run.
  eexists _, evs. split; [reflexivity|]. simpl. split.
  - rewrite Ht, <- !app_assoc. reflexivity.
  - by lookups.
Qed.

Lemma older_bootstrap_always_reissues_witness :
  let host := Example.host in
  let f := file host None in
  root_usable host None Example.world
  ∧ ∃ w' evs,
      LegacySsl.createSelfSignedCert host None Example.world
      = (Ok (f "symmetric.key", f "symmetric.crt"), w')
      ∧ trace w' = trace Example.world ++ evs
          ++ [Wrote (f "symmetric.ext") (san_document host None);
              Spawn (request_command (f "symmetric.key") (f "symmetric.csr"));
              Wrote (f "symmetric.key") "leaf key"; Wrote (f "symmetric.csr") "leaf request";
              Spawn (sign_command (f "symmetric_ca.crt") (f "symmetric_ca.key")
                       (f "symmetric.csr") (f "symmetric.crt") (f "symmetric.ext"));
              Wrote (f "symmetric.crt") "leaf certificate"; Wrote (f "symmetric_ca.srl") "01"]
      ∧ files w' !! f "symmetric.ext" = Some (san_document host None)
      ∧ files w' !! f "symmetric.key" = Some "leaf key"
      ∧ files w' !! f "symmetric.crt" = Some "leaf certificate".
Proof.
  assert (Hroot : root_usable Example.host None Example.world) by (right; reflexivity).
  split; [exact Hroot|].
  exact (older_bootstrap_always_reissues Example.host None Example.world _ _ _ _
           Hroot (or_intror (mk_is_Some _ _ eq_refl)) eq_refl eq_refl).
Defined.
(** *** The document *)

Lemma match_at_two_spaces s :
  RegExp.match_at two_spaces s = if starts_double s then Some 2 else None.
Proof.
  unfold RegExp.match_at, two_spaces. cbn -[Ascii.eqb].
  destruct s as [|a [|b s]]; cbn -[Ascii.eqb]; [done| |].
  - by destruct (Ascii.eqb " " a).
  - by destruct (Ascii.eqb " " a), (Ascii.eqb " " b).
Qed.

Lemma squeeze_keep c r :
  starts_double (String c r) = false →
  RegExp.replace_all_from two_spaces 0 (String c r)
  = String c (RegExp.replace_all_from two_spaces 0 r).
Proof. intros Hs. by rewrite replace_all_from_cons, match_at_two_spaces, Hs. Qed.

Lemma squeeze_nl t :
  RegExp.replace_all_from two_spaces 0 (Js.nl +:+ t)
  = Js.nl +:+ RegExp.replace_all_from two_spaces 0 t.
Proof.
  change (Js.nl +:+ ?x) with (String Js.LF x).
  rewrite squeeze_keep by (by destruct t). done.
Qed.

Lemma squeeze_indent t :
  RegExp.replace_all_from two_spaces 0 ("    " +:+ t)
  = RegExp.replace_all_from two_spaces 0 t.
Proof. reflexivity. Qed.

Lemma starts_double_app c r t :
  starts_double (String c r) = false →
  starts_double (String c (r +:+ String Js.LF t)) = false.
Proof.
  destruct r as [|b r]; [|done]. intros _.
  change ("" +:+ String Js.LF t) with (String Js.LF t). cbn -[Ascii.eqb].
  apply andb_false_r.
Qed.

Lemma squeeze_line s t :
  tidy s = true →
  RegExp.replace_all_from two_spaces 0 (s +:+ Js.nl +:+ t)
  = s +:+ Js.nl +:+ RegExp.replace_all_from two_spaces 0 t.
Proof.
  induction s as [|c s IH]; intros Hs.
  - apply squeeze_nl.
  - cbn [tidy] in Hs. apply andb_true_iff in Hs as [Hd Hs]. apply negb_true_iff in Hd.
    change (String c s +:+ ?x) with (String c (s +:+ x)).
    rewrite squeeze_keep by (by apply starts_double_app). by rewrite IH.
Qed.

Lemma tidy_app_nl s t : tidy s = true → tidy t = true → tidy (s +:+ Js.nl +:+ t) = true.
Proof.
  intros Hs Ht. induction s as [|c s IH].
  - change ("" +:+ Js.nl +:+ t) with (String Js.LF t). cbn [tidy]. rewrite Ht.
    by destruct t.
  - cbn [tidy] in Hs. apply andb_true_iff in Hs as [Hd Hs]. apply negb_true_iff in Hd.
    change (String c s +:+ Js.nl +:+ t) with (String c (s +:+ String Js.LF t)). cbn [tidy].
    rewrite (starts_double_app c s t Hd). exact (IH Hs).
Qed.

Lemma tidy_join lines : Forall (λ l, tidy l = true) lines → tidy (Js.join Js.nl lines) = true.
Proof.
  induction 1 as [|x lines Hx _ IH]; [done|].
  destruct lines as [|y lines]; [done|].
  change (Js.join Js.nl (x :: y :: lines)) with (x +:+ Js.nl +:+ Js.join Js.nl (y :: lines)).
  by apply tidy_app_nl.
Qed.

Lemma tidy_clean s : clean s = true → tidy s = true.
Proof.
  unfold clean. induction s as [|c s IH]; [done|].
  cbn [String.list_ascii_of_string forallb tidy]. intros Hc.
  apply andb_true_iff in Hc as [Hc Hs]. rewrite IH by done.
  apply negb_true_iff in Hc. cbn -[Ascii.eqb]. destruct s; [done|].
  by rewrite Hc.
Qed.

Lemma tidy_clean_app a b : clean a = true → tidy b = true → tidy (a +:+ b) = true.
Proof.
  unfold clean. induction a as [|c a IH]; [done|].
  cbn [String.list_ascii_of_string forallb]. intros Hc Hb.
  apply andb_true_iff in Hc as [Hc Ha]. apply negb_true_iff in Hc.
  change (String c a +:+ b) with (String c (a +:+ b)). cbn [tidy].
  rewrite IH by done. cbn -[Ascii.eqb]. destruct (a +:+ b); [done|]. by rewrite Hc.
Qed.

Lemma clean_digits_go x s : clean s = true → clean (pretty_N_go x s) = true.
Proof.
  revert s. induction (N.lt_wf_0 x) as [x _ IH]; intros s Hs.
  assert (x = 0 ∨ 0 < x)%N as [->|Hx] by lia.
  - by rewrite pretty_N_go_0.
  - rewrite pretty_N_go_step by done. apply IH.
    { by apply N.div_lt. }
    unfold clean. cbn [String.list_ascii_of_string forallb]. fold (clean s). rewrite Hs.
    unfold pretty_N_char. by repeat case_match.
Qed.

Lemma clean_pretty (n : nat) : clean (pretty n) = true.
Proof.
  unfold pretty, pretty_nat, pretty, pretty_N. case_decide; [done|].
  by apply clean_digits_go.
Qed.

Lemma tidy_entry (label : string) n value :
  clean label = true → clean value = true →
  tidy (label +:+ pretty (n : nat) +:+ " = " +:+ value) = true.
Proof.
  intros Hl Hv. apply tidy_clean_app; [done|]. apply tidy_clean_app; [apply clean_pretty|].
  change (" = " +:+ value) with (String " " (String "=" (String " " value))).
  cbn [tidy]. rewrite (tidy_clean value Hv).
  assert (starts_double (String " " value) = false) as ->.
  { destruct value as [|c v]; [done|]. unfold clean in Hv.
    cbn [String.list_ascii_of_string forallb] in Hv.
    apply andb_true_iff in Hv as [Hc _]. apply negb_true_iff in Hc.
    cbn -[Ascii.eqb]. by rewrite Hc. }
  done.
Qed.

Lemma tidy_entries (label : string) (f : nat → string → string) values :
  (∀ i v, f i v = label +:+ pretty (i + 1) +:+ " = " +:+ v) →
  clean label = true →
  Forall (λ v, clean v = true) values →
  Forall (λ l, tidy l = true) (imap f values).
Proof.
  intros Hf Hl Hvs. apply Forall_forall. intros l Hin.
  apply list_elem_of_lookup in Hin as (i & Hi).
  rewrite list_lookup_imap in Hi.
  destruct (values !! i) as [v|] eqn:Ev; [|done]. injection Hi as <-.
  rewrite Hf. apply tidy_entry; [done|].
  rewrite Forall_forall in Hvs. apply Hvs. by eapply list_elem_of_lookup_2.
Qed.

(** X9.  For names without a space the document has no
    indentation left and nothing else is lost: it is an empty line,
    [subjectAltName = @alt_names], an empty line, [[ alt_names ]],
    the DNS entries numbered from 1 in list order, the IP entries
    numbered from 1 in list order, each on a line of its own. *)
Theorem document_of_names_without_spaces ds ips :
  Forall (λ d, clean d = true) ds →
  Forall (λ ip, clean ip = true) ips →
  extData ds ips
  = Js.nl +:+ "subjectAltName = @alt_names" +:+ Js.nl
    +:+ Js.nl
    +:+ "[ alt_names ]" +:+ Js.nl
    +:+ Js.join Js.nl (imap dns_line ds) +:+ Js.nl
    +:+ Js.join Js.nl (imap ip_line ips) +:+ Js.nl.
Proof.
  intros Hds Hips. unfold extData, extTemplate, RegExp.replace.
  change (RegExp.global two_spaces) with true. cbv iota.
  rewrite squeeze_nl.
  change ("    subjectAltName = @alt_names" +:+ ?x)
    with ("    " +:+ "subjectAltName = @alt_names" +:+ x).
  rewrite squeeze_indent, squeeze_line by reflexivity.
  rewrite squeeze_nl.
  change ("    [ alt_names ]" +:+ ?x) with ("    " +:+ "[ alt_names ]" +:+ x).
  rewrite squeeze_indent, squeeze_line by reflexivity.
  rewrite squeeze_indent, squeeze_line
    by (apply tidy_join, (tidy_entries "DNS."); done).
  rewrite squeeze_indent, squeeze_line
    by (apply tidy_join, (tidy_entries "IP."); done).
  reflexivity.
Qed.

Lemma document_of_names_without_spaces_witness :
  Forall (λ d, clean d = true) ["localhost"; "devbox"]
  ∧ Forall (λ ip, clean ip = true) ["127.0.0.1"]
  ∧ extData ["localhost"; "devbox"] ["127.0.0.1"]
    = Js.nl +:+ "subjectAltName = @alt_names" +:+ Js.nl
      +:+ Js.nl
      +:+ "[ alt_names ]" +:+ Js.nl
      +:+ Js.join Js.nl (imap dns_line ["localhost"; "devbox"]) +:+ Js.nl
      +:+ Js.join Js.nl (imap ip_line ["127.0.0.1"]) +:+ Js.nl.
Proof.
  assert (Hd : Forall (λ d, clean d = true) ["localhost"; "devbox"])
    by (repeat constructor).
  assert (Hi : Forall (λ ip, clean ip = true) ["127.0.0.1"]) by (repeat constructor).
  split; [exact Hd|]. split; [exact Hi|].
  exact (document_of_names_without_spaces _ _ Hd Hi).
Defined.

End BootstrapFacts.

(** ** The start of the distribution server *)

Module ServerStart.
Import Node.

(** X12.  [certServer] reads [server.html] of its own directory and
    then the root certificate, once, before it listens: when one is
    missing it throws ENOENT for that file and nothing has been
    started; otherwise it listens on 0.0.0.0:3007 with a listener
    that serves the two contents read, and writes no file. *)
Theorem certServer_reads_before_it_listens host caCert w :
  let page : path := (module_dir host, "server.html") in
  Server.certServer host caCert w
  = match files w !! page, files w !! caCert with
    | Some index, Some cert =>
        (Ok (Server.listener index cert),
         mkWorld (heap w) (dirs w) (files w) (trace w ++ [Listen "0.0.0.0" 3007]))
    | None, _ => (Throw (ENOENT (render page)), w)
    | Some _, None => (Throw (ENOENT (render caCert)), w)
    end.
Proof.
  intros page. unfold Server.certServer, readFileSync, mbind, St_bind. fold page.
  destruct (files w !! page); [|done]. by destruct (files w !! caCert).
Qed.

Lemma unknown_route_not_found_witness :
  "/favicon.ico" ≠ "/" ∧ "/favicon.ico" ≠ "/symmetric_ca.crt"
  ∧ Server.listener "page" "certificate" "/favicon.ico" fresh_response
    = (Ok (),
       mkRes 404 (list_to_map [("content-length", "15"); ("content-type", "text/plain")] ∪ ∅)
             true [Text "404 - Not Found"] true).
Proof.
  assert (H1 : "/favicon.ico" ≠ "/") by discriminate.
  assert (H2 : "/favicon.ico" ≠ "/symmetric_ca.crt") by discriminate.
  split; [exact H1|]. split; [exact H2|].
  exact (ServerFacts.unknown_route_not_found "page" "certificate" "/favicon.ico" H1 H2).
Defined.

End ServerStart.

(** ** The stages of the proxy policy *)

Module StageFacts.
Import Node Proxy NodeFacts SslFacts RegExpFacts ProxyFacts Stages Confine ConfineFacts BootstrapFacts.

Section WithDate.
Context `{DateApi}.

Lemma createBackendProxy_stages host options w :
  let lp := (place (paths options) (heap w)).1 in
  let h1 := (place (paths options) (heap w)).2 in
  let ls := (place (subpaths options) h1).1 in
  let h2 := (place (subpaths options) h1).2 in
  let source := BACKEND_COOKIE +:+ "=" +:+ backend options +:+ ";?" in
  createBackendProxy host options w
  = match Pattern.compile source false false with
    | Some re =>
        (transport host options (base_policy host options re lp ls) ≫= origins options)
          (mkWorld (normalized lp ls h2) (dirs w) (files w) (trace w))
    | None => (Throw (SyntaxError source), mkWorld h2 (dirs w) (files w) (trace w))
    end.
Proof.
  intros lp h1 ls h2 source. unfold createBackendProxy.
  rewrite (bind_run _ _ _ _ _ (place_run (paths options) w)).
  rewrite (bind_run _ _ _ _ _ (place_run (subpaths options) _)).
  simpl heap. fold lp h1 ls h2.
  rewrite (bind_run _ _ _ _ _ (new_RegExp_run _ _ _ _)). fold source.
  destruct (Pattern.compile source false false) as [re|]; [|done].
  rewrite !(bind_run _ _ _ _ _ (update_run _ _ _)). simpl heap.
  fold (normalized lp ls h2). reflexivity.
Qed.


Lemma bind_Ok {S A B : Type} (m : St S A) (f : A → St S B) w b w' :
  (m ≫= f) w = (Ok b, w') → ∃ a w1, m w = (Ok a, w1) ∧ f a w1 = (Ok b, w').
Proof.
  unfold mbind, St_bind. destruct (m w) as [[a|e] w1]; [|discriminate]. eauto.
Qed.

Lemma origins_run options proxy w :
  ∃ r, origins options proxy w = (r, w)
    ∧ ∀ q, r = Ok q → ∃ f, q = set_onProxyRes proxy f.
Proof.
  unfold origins. destruct (originRewrites options) as [[|o os]|].
  - exists (Ok proxy). split; [done|]. intros q [= <-]. exists (onProxyRes proxy). by destruct proxy.
  - rewrite (bind_run _ _ _ _ _ (new_RegExp_run _ _ _ _)).
    destruct (Pattern.compile _ true true) as [re|].
    + eexists. split; [done|]. intros q [= <-]. by eexists.
    + eexists. split; [done|]. intros q [=].
  - exists (Ok proxy). split; [done|]. intros q [= <-]. exists (onProxyRes proxy). by destruct proxy.
Qed.

Lemma transport_idle host options proxy w :
  insecure options = true ∨ wants_certificate host options = false →
  ∃ q, transport host options proxy w = (Ok q, w)
    ∧ ssl_material q = ssl_material proxy.
Proof.
  unfold transport. intros [->| Hw].
  - eexists. split; [done|]. done.
  - destruct (insecure options); [by eexists|]. rewrite Hw. by eexists.
Qed.

(** X13.  In insecure mode, and when neither [generateCert], nor
    GENERATE_CERT=true, nor an argument of the process naming
    [webpack-dev-server] asks for a certificate, [createBackendProxy]
    writes no file, makes no directory, runs no command and starts no
    server, whether it returns or throws; a policy it returns has no
    [ssl] entry. *)
Theorem no_certificate_unless_wanted host options w r w' :
  createBackendProxy host options w = (r, w') →
  insecure options = true ∨ wants_certificate host options = false →
  files w' = files w ∧ dirs w' = dirs w ∧ trace w' = trace w
  ∧ ∀ p, r = Ok p → ssl_material p = None.
Proof.
  rewrite createBackendProxy_stages. intros Hrun Hidle.
  destruct (Pattern.compile _ false false) as [re|]; [|by injection Hrun as <- <-].
  set (w1 := mkWorld _ _ _ _) in Hrun.
  destruct (transport_idle host options
              (base_policy host options re (place (paths options) (heap w)).1
                 (place (subpaths options) (place (paths options) (heap w)).2).1) w1 Hidle)
    as (q & Eq & Hssl).
  rewrite (bind_run _ _ _ _ _ Eq) in Hrun.
  destruct (origins_run options q w1) as (r' & Er & Hr). rewrite Er in Hrun.
  injection Hrun as <- <-. split; [done|]. split; [done|]. split; [done|].
  intros p Hp. destruct (Hr p Hp) as (f & ->). simpl. by rewrite Hssl.
Qed.

(** X15.  Every policy that [createBackendProxy] returns has the
    backend as [target] and as [Referer] header, [autoRewrite],
    [changeOrigin] and [xfwd] set, the log level [debug] exactly when
    the DEBUG variable contains [webpack] and [info] otherwise, and
    the protocol rewrite [http] in insecure mode and [https]
    otherwise. *)
Theorem policy_settings host options w p w' :
  createBackendProxy host options w = (Ok p, w') →
  target p = backend options
  ∧ headers_Referer p = backend options
  ∧ autoRewrite p = true ∧ changeOrigin p = true ∧ xfwd p = true
  ∧ logLevel p = (if Js.includes "webpack" (default "" (env host !! "DEBUG"))
                  then "debug" else "info")
  ∧ protocolRewrite p = Some (if insecure options then "http" else "https").
Proof.
  rewrite createBackendProxy_stages. intros Hrun.
  destruct (Pattern.compile _ false false) as [re|]; [|discriminate Hrun].
  apply bind_Ok in Hrun as (q & w1 & Et & Eo).
  destruct (origins_run options q w1) as (r' & Er & Hr). rewrite Er in Eo.
  injection Eo as -> _. destruct (Hr p eq_refl) as (f & ->). simpl. clear Hr Er.
  revert Et. unfold transport. destruct (insecure options).
  - intros [= <- _]. done.
  - destruct (wants_certificate host options); [|intros [= <- _]; done].
    intros Et. apply bind_Ok in Et as (sslFiles & wa & _ & Et).
    apply bind_Ok in Et as (key & wb & _ & Et).
    apply bind_Ok in Et as (cert & wc & _ & Et).
    apply bind_Ok in Et as (u & wd & _ & Et).
    injection Et as <- _. done.
Qed.


Lemma createSelfSignedCert_paths host options w made w' :
  Ssl.createSelfSignedCert host options w = (Ok made, w') →
  made = Ssl.mkFiles (Ssl.file host options "symmetric.key")
           (Ssl.file host options "symmetric.crt")
           (Ssl.file host options "symmetric_ca.key")
           (Ssl.file host options "symmetric_ca.crt").
Proof.
  unfold Ssl.createSelfSignedCert. intros E.
  apply bind_Ok in E as (? & ? & _ & E). apply bind_Ok in E as (? & ? & _ & E).
  apply bind_Ok in E as (? & ? & _ & E). apply bind_Ok in E as (? & ? & _ & E).
  by injection E as <- _.
Qed.

Lemma readFileSync_Ok p w data w' :
  readFileSync p w = (Ok data, w') → w' = w ∧ files w !! p = Some data.
Proof.
  unfold readFileSync. destruct (files w !! p); [|discriminate]. by intros [= -> ->].
Qed.

(** X14.  When a certificate is wanted and the call returns, the
    [ssl] entry of the policy holds the contents of [symmetric.key]
    and [symmetric.crt] of the storage root as they are on disk
    after the call.  The events of the call are those of the
    certificate bootstrap, followed by the start of the distribution
    server exactly when [certServer] or CERT_SERVER=true asks for it,
    in which case its page and the root certificate are on disk. *)
Theorem certificate_is_read_from_the_root host options w p w' :
  createBackendProxy host options w = (Ok p, w') →
  insecure options = false →
  wants_certificate host options = true →
  let f := Ssl.file host (ssl options) in
  ∃ key cert evs,
    ssl_material p = Some (key, cert)
    ∧ files w' !! f "symmetric.key" = Some key
    ∧ files w' !! f "symmetric.crt" = Some cert
    ∧ trace w' = trace w ++ evs
        ++ (if wants_server host options then [Listen "0.0.0.0" 3007] else [])
    ∧ (∀ e, e ∈ evs → bootstrap_event host (ssl options) e)
    ∧ (wants_server host options = true →
         is_Some (files w' !! (module_dir host, "server.html"))
         ∧ is_Some (files w' !! f "symmetric_ca.crt")).
Proof.
  rewrite createBackendProxy_stages. intros Hrun Hi Hw f.
  destruct (Pattern.compile _ false false) as [re|]; [|discriminate Hrun].
  apply bind_Ok in Hrun as (q & w1 & Et & Eo).
  destruct (origins_run options q w1) as (r' & Er & Hr). rewrite Er in Eo.
  injection Eo as -> <-. destruct (Hr p eq_refl) as (g & ->). simpl. clear Hr Er.
  revert Et. unfold transport. rewrite Hi, Hw. intros Et.
  apply bind_Ok in Et as (sslFiles & wa & Ea & Et).
  pose proof (createSelfSignedCert_paths _ _ _ _ _ Ea) as ->.
  destruct (keeps_createSelfSignedCert _ _ _ _ _ Ea) as (_ & _ & (evs & Hta & Hevs) & _).
  simpl in Hta.
  apply bind_Ok in Et as (key & wb & Eb & Et). apply readFileSync_Ok in Eb as (-> & Hk).
  apply bind_Ok in Et as (cert & wc & Ec & Et). apply readFileSync_Ok in Ec as (-> & Hc).
  simpl in Hk, Hc. fold f in Hk, Hc.
  apply bind_Ok in Et as (u & wd & Ed & Et). injection Et as <- <-. simpl.
  exists key, cert, evs. split; [done|].
  rewrite Forall_forall in Hevs.
  revert Ed. destruct (wants_server host options).
  - intros Ed. apply bind_Ok in Ed as (l & we & Ee & Ed). injection Ed as _ <-.
    revert Ee. unfold Server.certServer. intros Ee.
    apply bind_Ok in Ee as (index & w2 & E2 & Ee). apply readFileSync_Ok in E2 as (-> & Hindex).
    apply bind_Ok in Ee as (ca & w3 & E3 & Ee). apply readFileSync_Ok in E3 as (-> & Hcert).
    apply bind_Ok in Ee as (u2 & w4 & E4 & Ee). injection E4 as _ <-. injection Ee as _ <-.
    simpl. split; [done|]. split; [done|]. split; [by rewrite Hta, <- app_assoc|].
    split; [done|]. intros _. simpl in Hcert. fold f in Hcert. split; eexists; [exact Hindex | exact Hcert].
  - intros [= _ <-]. split; [done|]. split; [done|]. split; [by rewrite app_nil_r|].
    split; [done|]. intros [=].
Qed.


End WithDate.

(** *** Text *)

Lemma prefix_app (x b : string) : String.prefix x (x +:+ b) = true.
Proof.
  induction x as [|c x IH]; [change ("" +:+ b) with b; by destruct b|].
  change (String c x +:+ b) with (String c (x +:+ b)). cbn [String.prefix].
  by destruct (ascii_dec c c).
Qed.

Lemma includes_app (x a b : string) : Js.includes x (a +:+ x +:+ b) = true.
Proof.
  induction a as [|c a IH].
  - change ("" +:+ x +:+ b) with (x +:+ b).
    destruct (x +:+ b) eqn:E; cbn [Js.includes]; rewrite <- E, prefix_app; done.
  - change (String c a +:+ x +:+ b) with (String c (a +:+ x +:+ b)).
    cbn [Js.includes]. rewrite IH. apply orb_true_r.
Qed.

Lemma replace_first_none re s : RegExp.test re s = false → RegExp.replace_first re s = s.
Proof.
  unfold RegExp.test. induction s as [|c s IH]; cbn [RegExp.exec RegExp.replace_first].
  - by destruct (RegExp.match_at re "").
  - destruct (RegExp.match_at re (String c s)); [done|].
    destruct (RegExp.exec re s) as [[i n]|]; [done|]. intros _. by rewrite IH.
Qed.

Lemma split_without s tail :
  Js.split "/" (Js.without "/" s +:+ tail)
  = match Js.split "/" tail with
    | x :: xs => (Js.without "/" s +:+ x) :: xs
    | [] => [Js.without "/" s]
    end.
Proof.
  induction s as [|c s IH].
  - change (Js.without "/" "" +:+ tail) with tail.
    destruct (Js.split "/" tail) eqn:E; [|done].
    destruct tail as [|t tail]; [done|]. cbn [Js.split] in E.
    destruct (Ascii.eqb t "/"); [done|]. by destruct (Js.split "/" tail).
  - cbn [Js.without]. destruct (Ascii.eqb c "/") eqn:Ec; [exact IH|].
    change (String c (Js.without "/" s) +:+ tail)
      with (String c (Js.without "/" s +:+ tail)).
    cbn [Js.split]. rewrite Ec, IH. by destruct (Js.split "/" tail).
Qed.

Lemma split_sep x : Js.split "/" (String "/" x) = "" :: Js.split "/" x.
Proof. reflexivity. Qed.

Lemma first_segment s rest :
  Js.split "/" ("/" +:+ Js.without "/" s) !! 1 = Some (Js.without "/" s)
  ∧ Js.split "/" ("/" +:+ Js.without "/" s +:+ "/" +:+ rest) !! 1 = Some (Js.without "/" s).
Proof.
  split.
  - change ("/" +:+ ?x) with (String "/" x). rewrite split_sep.
    rewrite <- (append_empty_r (Js.without "/" s)) at 1.
    rewrite split_without. cbn. by rewrite append_empty_r.
  - change ("/" +:+ Js.without "/" s +:+ "/" +:+ rest)
      with (String "/" (Js.without "/" s +:+ String "/" rest)).
    rewrite split_sep, split_without, split_sep. cbn. by rewrite append_empty_r.
Qed.

Lemma splice_before_last (items arr : list string) :
  Js.splice_insert_back 1 items arr
  = removelast arr ++ items ++ option_list (last arr).
Proof.
  destruct arr as [|x arr _] using rev_ind; [done|].
  unfold Js.splice_insert_back. rewrite length_app. cbn [length].
  replace (length arr + 1 - 1) with (length arr) by lia.
  rewrite firstn_app, firstn_all, Nat.sub_diag. cbn [firstn]. rewrite app_nil_r.
  rewrite skipn_app, skipn_all, Nat.sub_diag. cbn [skipn app].
  rewrite removelast_last, last_snoc. done.
Qed.

Lemma star_end ok s :
  RegExp.star ok (RegExp.match_terms false [RegExp.End]) s
  = if forallb ok (String.list_ascii_of_string s) then Some (String.length s) else None.
Proof.
  induction s as [|c s IH]; [done|].
  cbn [RegExp.star String.list_ascii_of_string forallb String.length].
  destruct (ok c); [|done]. cbn [andb]. rewrite IH.
  by destruct (forallb ok (String.list_ascii_of_string s)).
Qed.

Lemma match_at_secure s :
  RegExp.match_at secure_at_end s
  = if String.prefix "secure" s && forallb Js.is_space (String.list_ascii_of_string (Js.drop 6 s))
    then Some (6 + String.length (Js.drop 6 s)) else None.
Proof.
  unfold RegExp.match_at, secure_at_end.
  cbn [RegExp.alternatives RegExp.ignoreCase RegExp.match_alternatives].
  rewrite match_terms_literal. change (String.length "secure") with 6.
  destruct (String.prefix "secure" s); [|done]. cbn [andb].
  change (RegExp.match_terms false [RegExp.T RegExp.Space RegExp.Star; RegExp.End])
    with (RegExp.star Js.is_space (RegExp.match_terms false [RegExp.End])).
  rewrite star_end. by destruct (forallb _ _).
Qed.

Lemma drop_all n s : String.length s ≤ n → Js.drop n s = "".
Proof.
  revert n. induction s as [|c s IH]; intros n Hn; [by destruct n|].
  destruct n as [|n]; [cbn in Hn; lia|]. cbn [Js.drop]. apply IH. cbn in Hn. lia.
Qed.

Lemma length_drop_ge n s : String.length s ≤ n + String.length (Js.drop n s).
Proof.
  revert n. induction s as [|c s IH]; intros n; [cbn; lia|].
  destruct n as [|n]; [cbn; lia|]. cbn [Js.drop String.length]. specialize (IH n). lia.
Qed.

Lemma prefix_refl_cons c (a b : string) :
  String.prefix a b = true → String.prefix (String c a) (String c b) = true.
Proof. intros Hab. cbn [String.prefix]. by destruct (ascii_dec c c). Qed.

Lemma prefix_nil (s : string) : String.prefix "" s = true.
Proof. by destruct s. Qed.

Lemma replace_secure_prefix v :
  String.prefix (RegExp.replace secure_at_end v) v = true.
Proof.
  unfold RegExp.replace. change (RegExp.global secure_at_end) with false. cbv iota.
  induction v as [|c v IH]; cbn [RegExp.replace_first]; rewrite match_at_secure.
  - done.
  - destruct (_ && _).
    + rewrite drop_all; [apply prefix_nil | apply length_drop_ge].
    + by apply prefix_refl_cons.
Qed.

Lemma secure_letters ws :
  "secure" +:+ ws
  = String "s" (String "e" (String "c" (String "u" (String "r" (String "e" ws))))).
Proof. reflexivity. Qed.

Lemma flag_is_not_blank x ws n :
  n ≤ String.length x + 5 →
  forallb Js.is_space (String.list_ascii_of_string (Js.drop n (x +:+ "secure" +:+ ws))) = false.
Proof.
  revert n. induction x as [|c x IH]; intros n Hn.
  - change ("" +:+ "secure" +:+ ws) with ("secure" +:+ ws). rewrite secure_letters.
    cbn in Hn. do 6 (destruct n as [|n]; [reflexivity|]). lia.
  - change (String c x +:+ "secure" +:+ ws) with (String c (x +:+ "secure" +:+ ws)).
    destruct n as [|n].
    + cbn [Js.drop String.list_ascii_of_string forallb].
      pose proof (IH 0 ltac:(lia)) as H0. change (Js.drop 0 ?t) with t in H0.
      rewrite H0. apply andb_false_r.
    + cbn [Js.drop]. apply IH. cbn in Hn. lia.
Qed.

Lemma replace_secure_cut x ws :
  forallb Js.is_space (String.list_ascii_of_string ws) = true →
  RegExp.replace secure_at_end (x +:+ "secure" +:+ ws) = x.
Proof.
  intros Hws. unfold RegExp.replace. change (RegExp.global secure_at_end) with false. cbv iota.
  induction x as [|c x IH].
  - change ("" +:+ "secure" +:+ ws) with ("secure" +:+ ws).
    destruct ("secure" +:+ ws) as [|c0 s0] eqn:E; [discriminate E|].
    cbn [RegExp.replace_first]. rewrite match_at_secure, <- E.
    rewrite prefix_app. change (Js.drop 6 ("secure" +:+ ws)) with ws. rewrite Hws. cbn [andb].
    apply drop_all. rewrite secure_letters. cbn. lia.
  - change (String c x +:+ "secure" +:+ ws) with (String c (x +:+ "secure" +:+ ws)).
    cbn [RegExp.replace_first]. rewrite match_at_secure.
    change (Js.drop 6 (String c ?t)) with (Js.drop 5 t).
    rewrite (flag_is_not_blank x ws 5) by lia. rewrite andb_false_r. by rewrite IH.
Qed.

Lemma includes_mark_without s : Js.includes "?" (Js.without "/" s) = Js.includes "?" s.
Proof.
  induction s as [|c s IH]; [done|].
  cbn [Js.without]. destruct (Ascii.eqb c "/") eqn:Ec.
  - apply Ascii.eqb_eq in Ec as ->. rewrite IH. cbn [Js.includes String.prefix].
    by destruct (ascii_dec "?" "/").
  - cbn [Js.includes String.prefix]. rewrite IH.
    destruct (ascii_dec "?" c); [|done]. by rewrite !prefix_nil.
Qed.

Lemma without_nothing s : Js.includes "/" s = false → Js.without "/" s = s.
Proof.
  induction s as [|c s IH]; [done|].
  cbn [Js.includes String.prefix Js.without]. intros Hs.
  apply orb_false_iff in Hs as [Hc Hs].
  destruct (Ascii.eqb_spec c "/") as [->|Hne].
  - destruct (ascii_dec "/" "/"); [|done]. by rewrite prefix_nil in Hc.
  - by rewrite IH.
Qed.

Section Hooks.
Context `{DateApi}.

Lemma heap_kept_transport host options proxy : heap_kept (transport host options proxy).
Proof.
  unfold transport. destruct (insecure options); [apply heap_kept_ret|].
  destruct (wants_certificate host options); [|apply heap_kept_ret].
  apply heap_kept_bind; [apply heap_kept_createSelfSignedCert|]. intros sslFiles.
  apply heap_kept_bind; [apply heap_kept_readFileSync|]. intros key.
  apply heap_kept_bind; [apply heap_kept_readFileSync|]. intros cert.
  apply heap_kept_bind; [|intros; apply heap_kept_ret].
  destruct (wants_server host options); [|apply heap_kept_ret].
  apply heap_kept_bind; [apply heap_kept_certServer | intros; apply heap_kept_ret].
Qed.

(** X16.  The caller's arrays are changed before the certificate
    is made.  A call that throws anything but a SyntaxError (a failure
    of the certificate bootstrap, of reading the key or the
    certificate, of starting the distribution server) has already
    stripped the slashes and spliced in the standard paths. *)
Theorem failed_call_has_changed_the_arrays host options w e w' lp ls :
  createBackendProxy host options w = (Throw e, w') →
  (∀ source, e ≠ SyntaxError source) →
  options_wf options (heap w) →
  paths options = Some lp →
  subpaths options = Some ls →
  array (heap w') lp
  = Js.splice_insert_back 1 STANDARD_PATHS (Js.without "/" <$> array (heap w) lp)
  ∧ array (heap w') ls = Js.without "/" <$> array (heap w) ls.
Proof.
  rewrite createBackendProxy_stages. intros Hrun He Hwf Hp Hs.
  destruct (Pattern.compile _ false false) as [re|];
    [|injection Hrun as <- _; exfalso; by eapply He].
  revert Hrun. set (w1 := mkWorld _ _ _ _). set (proxy := base_policy _ _ _ _ _).
  unfold mbind, St_bind.
  destruct (transport host options proxy w1) as [[q|e1] w2] eqn:Et.
  - destruct (origins_run options q w2) as (r & Er & _). rewrite Er. intros [= -> <-].
    revert Er. unfold origins. destruct (originRewrites options) as [[|o os]|]; try discriminate.
    rewrite (bind_run _ _ _ _ _ (new_RegExp_run _ _ _ _)).
    destruct (Pattern.compile _ true true); [discriminate|]. intros [= <-].
    exfalso. by eapply He.
  - intros [= <- <-]. rewrite (heap_kept_transport _ _ _ _ _ _ Et). subst w1. cbn [heap].
    destruct (place_arrays options (heap w) Hwf) as (Hne & Hlp & Hls & _).
    revert Hne Hlp Hls. rewrite Hp, Hs. cbn [place fst snd given]. intros Hne _ _.
    destruct (normalized_arrays lp ls (heap w) Hne) as (N1 & N2 & _).
    by rewrite N1, N2, fmap_replace_slashes, fmap_replace_slashes.
Qed.

Lemma response_hook_marked options re re2 now proxyRes req :
  RegExp.test re (default "" (cookie req)) = true →
  set_cookie (response_hook options re re2 now proxyRes req)
  = incoming options (set_cookie proxyRes).
Proof.
  intros Ht. unfold response_hook, incoming.
  destruct re2 as [r2|]; [rewrite set_cookie_rewrite|];
    destruct (insecure options);
    unfold Hooks.onProxyRes_insecure, Hooks.onProxyRes; rewrite Ht; cbn;
    by destruct (set_cookie proxyRes).
Qed.

(** X20.  The marker is looked for as a piece of text with nothing
    required after it.  For a backend without syntax characters, a
    cookie header that holds [proxybackend=<backend>] anywhere, also
    as the start of the marker of a longer origin (of http://b10 for
    the backend http://b1), counts as marked: the request hook
    forwards it as it is, session cookie included, and the response
    hook adds no cookie. *)
Theorem marker_of_a_longer_origin_is_accepted host options w p w' before tail :
  createBackendProxy host options w = (Ok p, w') →
  Pattern.plain (backend options) = true →
  let c := before +:+ (BACKEND_COOKIE +:+ "=" +:+ backend options) +:+ tail in
  onProxyReq p (Some c) = Some c
  ∧ ∀ now proxyRes method url,
      set_cookie (onProxyRes p now proxyRes (mkReq method url (Some c)))
      = incoming options (set_cookie proxyRes).
Proof.
  intros Hrun Hplain c.
  destruct (plain_policy _ _ _ _ _ Hrun Hplain) as (Hq & _ & _ & re2 & _ & Hs).
  assert (Ht : RegExp.test (marker_re (backend options)) c = true).
  { unfold marker_re. rewrite test_literal. apply includes_app. }
  clearbody c. split.
  - rewrite Hq. unfold Hooks.onProxyReq. destruct c as [|x c]; [done|].
    cbn [truthy]. by rewrite Ht.
  - intros now proxyRes method url. rewrite Hs. by apply response_hook_marked.
Qed.

(** X21.  A cookie header in which [/sessionid=\w+;?/] finds
    nothing is forwarded unchanged, whatever the marker: this
    includes the empty header and a [sessionid=] with an empty
    value. *)
Theorem header_without_session_cookie_is_kept host options w p w' c :
  createBackendProxy host options w = (Ok p, w') →
  RegExp.test sessionCookieRe c = false →
  onProxyReq p (Some c) = Some c.
Proof.
  intros Hrun Hc.
  destruct (createBackendProxy_inv _ _ _ _ _ Hrun) as (_ & re & _ & _ & _ & _ & -> & _).
  unfold Hooks.onProxyReq. destruct c as [|x c]; [done|]. cbn [truthy].
  destruct (negb _); [|done].
  unfold RegExp.replace. change (RegExp.global sessionCookieRe) with false. cbv iota.
  by rewrite replace_first_none.
Qed.

(** X19.  Stripping makes a path work however it is written: for
    every element [s] of the caller's [paths] array, with [name] what
    is left of [s] without its slashes, the requests for [/name] and
    for everything under [/name/] are proxied, for every method. *)
Theorem path_given_with_slashes_is_routed host options w p w' lp s :
  createBackendProxy host options w = (Ok p, w') →
  options_wf options (heap w) →
  paths options = Some lp →
  s ∈ array (heap w) lp →
  let name := Js.without "/" s in
  ∀ method cookie rest,
    bypass p (heap w') (mkReq method ("/" +:+ name) cookie) = Proxied
    ∧ bypass p (heap w') (mkReq method ("/" +:+ name +:+ "/" +:+ rest) cookie) = Proxied.
Proof.
  intros Hrun Hwf Hp Hs name method cookie rest.
  destruct (policy_arrays _ _ _ _ _ Hrun Hwf) as (lp' & ls & _ & Hb & Hlp & _ & Ap & _).
  rewrite (Hlp _ Hp) in *. rewrite Hp in Ap. cbn [given] in Ap.
  assert (Hin : Js.index_of_found (array (heap w') lp) (Some name) = true).
  { apply index_of_found_spec. exists name. split; [done|]. rewrite Ap.
    apply elem_of_splice. left. by apply list_elem_of_fmap_2. }
  destruct (first_segment s rest) as (E1 & E2). fold name in E1, E2.
  rewrite Hb. unfold Hooks.bypass. cbn [url]. rewrite E1, E2, Hin.
  by rewrite !orb_true_r.
Qed.

(** X18.  [splice(-1, 0, ...)] inserts before the last element:
    after a call the caller's [paths] array is its stripped elements
    but the last, then the nine standard paths, then its stripped
    last element; an empty array becomes the standard paths. *)
Theorem standard_paths_go_before_the_last host options w p w' lp :
  createBackendProxy host options w = (Ok p, w') →
  options_wf options (heap w) →
  paths options = Some lp →
  let given := Js.without "/" <$> array (heap w) lp in
  array (heap w') lp = removelast given ++ STANDARD_PATHS ++ option_list (last given).
Proof.
  intros Hrun Hwf Hp gv.
  destruct (policy_arrays _ _ _ _ _ Hrun Hwf) as (lp' & ls & _ & _ & Hlp & _ & Ap & _).
  rewrite (Hlp _ Hp) in *. rewrite Hp in Ap. cbn [given] in Ap.
  rewrite Ap. apply splice_before_last.
Qed.

(** X17.  A call that returns changes no array but the two of its
    options: every other array of the caller is as it was. *)
Theorem other_arrays_are_left_alone host options w p w' l :
  createBackendProxy host options w = (Ok p, w') →
  is_Some (heap w !! l) →
  paths options ≠ Some l →
  subpaths options ≠ Some l →
  heap w' !! l = heap w !! l.
Proof.
  intros Hrun Hl Hp Hs.
  destruct (createBackendProxy_inv _ _ _ _ _ Hrun) as (-> & _).
  assert (Hfresh : ∀ h : gmap nat (list string), is_Some (h !! l) → l ≠ fresh (dom h)).
  { intros h Hh ->. apply (is_fresh (dom h)). by apply elem_of_dom. }
  assert (H1 : l ≠ (place (paths options) (heap w)).1
               ∧ (place (paths options) (heap w)).2 !! l = heap w !! l).
  { unfold place. destruct (paths options) as [lp|]; cbn.
    - split; [congruence|done].
    - split; [by apply Hfresh|]. apply lookup_insert_ne. apply not_eq_sym. by apply Hfresh. }
  destruct H1 as (N1 & L1).
  set (h1 := (place (paths options) (heap w)).2) in *.
  assert (H2 : l ≠ (place (subpaths options) h1).1
               ∧ (place (subpaths options) h1).2 !! l = heap w !! l).
  { assert (Hl1 : is_Some (h1 !! l)) by (by rewrite L1).
    unfold place. destruct (subpaths options) as [ls|]; cbn.
    - split; [congruence|done].
    - split; [by apply Hfresh|]. rewrite lookup_insert_ne; [done|].
      apply not_eq_sym. by apply Hfresh. }
  destruct H2 as (N2 & L2).
  unfold normalized, change. by rewrite !lookup_insert_ne.
Qed.

(** X23.  With [originRewrites] left out or empty no listener is
    put on the response: every body, HTML included, reaches the
    client chunk by chunk as it came, with the status and the headers
    of the response, and the response is ended. *)
Theorem without_origins_every_body_is_piped host options w p w'
    codec now proxyRes req res chunks :
  createBackendProxy host options w = (Ok p, w') →
  originRewrites options = None ∨ originRewrites options = Some [] →
  pipe proxyRes = true → rewriting proxyRes = [] → finished res = false →
  let ran := respond codec (onProxyRes p now proxyRes req) chunks res in
  ran.1 = Ok ()
  ∧ body ran.2 = body res ++ (Bytes <$> chunks)
  ∧ headers ran.2 = headers res
  ∧ statusCode ran.2 = statusCode res
  ∧ finished ran.2 = true.
Proof.
  intros Hrun Ho Hp Hr Hf ran. subst ran.
  destruct (createBackendProxy_inv _ _ _ _ _ Hrun) as (_ & re & re2 & _ & Hre2 & _ & _ & Hq & _).
  assert (re2 = None) as ->.
  { unfold origin_pattern in Hre2. by destruct Ho as [Ho|Ho]; rewrite Ho in Hre2. }
  rewrite Hq. destruct (inner_hook_frame options re now proxyRes req) as (_ & Hpipe & Hrw).
  destruct (respond_piped codec (response_hook options re None now proxyRes req) chunks res)
    as (sent & ->); [by rewrite Hpipe | by rewrite Hrw | done |]. done.
Qed.

(** X24.  With origins to rewrite, when an HTML response declares
    gzip and its buffered body does not gunzip, the [end] listener
    throws the zlib error: nothing is written to the client, no
    header is removed and the response is never ended. *)
Theorem corrupt_gzip_body_is_not_answered host options w p w' o os
    codec now proxyRes req res chunks ct :
  createBackendProxy host options w = (Ok p, w') →
  originRewrites options = Some (o :: os) →
  pipe proxyRes = true → rewriting proxyRes = [] →
  content_type proxyRes = Some ct → Js.includes "text/html" ct = true →
  headers res !! "content-encoding" = Some "gzip" →
  gunzipSync codec (foldl Hooks.on_data "" chunks) = None →
  respond codec (onProxyRes p now proxyRes req) chunks res = (Throw ZlibError, res).
Proof.
  intros Hrun Ho Hp Hr Hct Hhtml Hgz Hbad.
  destruct (createBackendProxy_inv _ _ _ _ _ Hrun) as (_ & re & re2 & _ & Hre2 & _ & _ & Hq & _).
  unfold origin_pattern in Hre2. rewrite Ho in Hre2. destruct Hre2 as (_ & [r2 ->]).
  rewrite Hq. unfold response_hook.
  change (if insecure options
          then Hooks.onProxyRes_insecure (Hooks.onProxyRes (backend options) re)
          else Hooks.onProxyRes (backend options) re)
    with (response_hook options re None).
  unfold Hooks.onProxyRes_rewrite.
  destruct (inner_hook_frame options re now proxyRes req) as (Hct' & Hpipe & Hrw).
  rewrite Hct', Hct.
  assert (truthy (Some ct) = Some ct) as -> by (destruct ct; [done|done]).
  rewrite Hhtml. unfold respond. cbn [pipe rewriting]. rewrite Hrw, Hr. cbn [app foldr].
  rewrite (bind_run (mret ()) _ _ (Ok ()) _ eq_refl).
  unfold Hooks.on_end, hasHeader, getHeader, mbind, St_bind, mret, St_ret, throw.
  rewrite Hgz, Hbad. by rewrite (bool_decide_eq_true_2 (is_Some (Some "gzip"))).
Qed.

(** X22.  The wrapper of insecure mode hands the inner hook an
    array of the same length in which every value is a prefix of the
    value it replaces; a value that ends in lower-case [secure]
    followed by white space only is cut to what stands before
    [secure], the separator before it included. *)
Theorem secure_flag_is_cut_at_the_end inner now proxyRes req l :
  set_cookie proxyRes = Many l →
  ∃ l',
    Hooks.onProxyRes_insecure inner now proxyRes req
    = inner now (mkProxyRes (Many l') (content_type proxyRes) (pipe proxyRes)
                            (rewriting proxyRes)) req
    ∧ length l' = length l
    ∧ ∀ i v, l !! i = Some v →
        ∃ v', l' !! i = Some v'
          ∧ String.prefix v' v = true
          ∧ ∀ x ws, forallb Js.is_space (String.list_ascii_of_string ws) = true →
              v = x +:+ "secure" +:+ ws → v' = x.
Proof.
  intros Hl. exists (RegExp.replace secure_at_end <$> l).
  unfold Hooks.onProxyRes_insecure. rewrite Hl. split; [done|].
  split; [apply length_fmap|]. intros i v Hv.
  exists (RegExp.replace secure_at_end v). rewrite list_lookup_fmap, Hv. split; [done|].
  split; [apply replace_secure_prefix|]. intros x ws Hws ->. by apply replace_secure_cut.
Qed.

(** X26.  The segments are cut out of the url with its query.  When
    no path of the caller holds a question mark, a GET for a url of
    one segment with a query in it, [/login?next=home] for one, is
    not proxied, whatever the paths: [bypass] answers with the url. *)
Theorem query_defeats_the_routing host options w p w' segment cookie :
  createBackendProxy host options w = (Ok p, w') →
  options_wf options (heap w) →
  (∀ s, s ∈ given (heap w) (paths options) → Js.includes "?" s = false) →
  Js.includes "/" segment = false →
  Js.includes "?" segment = true →
  bypass p (heap w') (mkReq "GET" ("/" +:+ segment) cookie) = Local ("/" +:+ segment).
Proof.
  intros Hrun Hwf Hpaths Hseg Hq.
  destruct (policy_arrays _ _ _ _ _ Hrun Hwf) as (lp & ls & _ & Hb & _ & _ & Ap & _).
  rewrite Hb. unfold Hooks.bypass. cbn [url method].
  assert (Hparts : Js.split "/" ("/" +:+ segment) = [""; segment]).
  { change ("/" +:+ segment) with (String "/" segment). rewrite split_sep.
    rewrite <- (without_nothing segment Hseg).
    rewrite <- (append_empty_r (Js.without "/" segment)) at 1.
    rewrite split_without. cbn. by rewrite append_empty_r. }
  rewrite Hparts.
  change ([""; segment] !! 1) with (Some segment).
  change ([""; segment] !! 2) with (@None string).
  assert (Hout : Js.index_of_found (array (heap w') lp) (Some segment) = false).
  { apply not_true_iff_false. intros Hin. apply index_of_found_spec in Hin as (s & [= <-] & Hin).
    rewrite Ap in Hin. apply elem_of_splice in Hin as [Hin|Hin].
    - apply list_elem_of_fmap in Hin as (s & -> & Hs).
      rewrite includes_mark_without, (Hpaths s Hs) in Hq. discriminate Hq.
    - unfold STANDARD_PATHS in Hin. rewrite !elem_of_cons, elem_of_nil in Hin.
      destruct Hin as [->|[->|[->|[->|[->|[->|[->|[->|[->|[]]]]]]]]]]; discriminate Hq. }
  rewrite Hout. reflexivity.
Qed.

End Hooks.

Lemma no_certificate_unless_wanted_witness :
  let ran := createBackendProxy Example.host Example.options Example.world in
  (insecure Example.options = true
   ∨ wants_certificate Example.host Example.options = false)
  ∧ files ran.2 = files Example.world ∧ dirs ran.2 = dirs Example.world
  ∧ trace ran.2 = trace Example.world
  ∧ ∀ p, ran.1 = Ok p → ssl_material p = None.
Proof.
  split; [by left|].
  exact (no_certificate_unless_wanted Example.host Example.options Example.world _ _
           (surjective_pairing _) (or_introl eq_refl)).
Defined.

Lemma policy_settings_witness :
  match createBackendProxy Example.host Example.options Example.world with
  | (Ok p, _) =>
      target p = "http://b1" ∧ headers_Referer p = "http://b1"
      ∧ autoRewrite p = true ∧ changeOrigin p = true ∧ xfwd p = true
      ∧ logLevel p = "info" ∧ protocolRewrite p = Some "http"
  | _ => False
  end.
Proof.
  destruct (createBackendProxy_returns Example.host Example.options Example.world
              eq_refl eq_refl I) as (p & w' & E).
  rewrite E. exact (policy_settings _ _ _ _ _ E).
Defined.

Lemma secure_policy_returns :
  ∃ p w', createBackendProxy Example.host Scenario.secure_options Scenario.installed = (Ok p, w').
Proof.
  destruct (createBackendProxy Example.host Scenario.secure_options Scenario.installed) as [[p|e] w'] eqn:E;
    [by eexists _, _|].
  exfalso.
  assert (Hok : match (createBackendProxy Example.host Scenario.secure_options Scenario.installed).1 with
                | Ok _ => true
                | Throw _ => false
                end = true) by (vm_compute; reflexivity).
  by rewrite E in Hok.
Qed.

Lemma certificate_is_read_from_the_root_witness :
  match createBackendProxy Example.host Scenario.secure_options Scenario.installed with
  | (Ok p, w') =>
      let f := Ssl.file Example.host None in
      ∃ key cert evs,
        ssl_material p = Some (key, cert)
        ∧ files w' !! f "symmetric.key" = Some key
        ∧ files w' !! f "symmetric.crt" = Some cert
        ∧ trace w' = trace Scenario.installed ++ evs ++ [Listen "0.0.0.0" 3007]
        ∧ (∀ e, e ∈ evs → bootstrap_event Example.host None e)
        ∧ (wants_server Example.host Scenario.secure_options = true →
             is_Some (files w' !! (module_dir Example.host, "server.html"))
             ∧ is_Some (files w' !! f "symmetric_ca.crt"))
  | _ => False
  end.
Proof.
  destruct secure_policy_returns as (p & w' & E). rewrite E.
  exact (certificate_is_read_from_the_root _ _ _ _ _ E eq_refl eq_refl).
Defined.

Lemma marker_of_a_longer_origin_is_accepted_witness :
  match createBackendProxy Example.host Example.options Example.world with
  | (Ok p, _) =>
      let c := "sessionid=abc; proxybackend=http://b10" in
      Pattern.plain (backend Example.options) = true
      ∧ onProxyReq p (Some c) = Some c
      ∧ ∀ now proxyRes method url,
          set_cookie (onProxyRes p now proxyRes (mkReq method url (Some c)))
          = incoming Example.options (set_cookie proxyRes)
  | _ => False
  end.
Proof.
  destruct (createBackendProxy_returns Example.host Example.options Example.world
              eq_refl eq_refl I) as (p & w' & E).
  rewrite E. split; [reflexivity|].
  exact (marker_of_a_longer_origin_is_accepted _ _ _ _ _ "sessionid=abc; " "0" E eq_refl).
Defined.

Lemma header_without_session_cookie_is_kept_witness :
  match createBackendProxy Example.host Example.options Example.world with
  | (Ok p, _) =>
      RegExp.test sessionCookieRe "csrftoken=x; sessionid=" = false
      ∧ onProxyReq p (Some "csrftoken=x; sessionid=") = Some "csrftoken=x; sessionid="
  | _ => False
  end.
Proof.
  destruct (createBackendProxy_returns Example.host Example.options Example.world
              eq_refl eq_refl I) as (p & w' & E).
  rewrite E. split; [reflexivity|].
  exact (header_without_session_cookie_is_kept _ _ _ _ _ "csrftoken=x; sessionid=" E eq_refl).
Defined.

Lemma path_given_with_slashes_is_routed_witness :
  match createBackendProxy Example.host Example.options Example.world with
  | (Ok p, w') =>
      options_wf Example.options (heap Example.world)
      ∧ "/admin/" ∈ array (heap Example.world) 0
      ∧ ∀ method cookie rest,
          bypass p (heap w') (mkReq method ("/" +:+ Js.without "/" "/admin/") cookie) = Proxied
          ∧ bypass p (heap w')
              (mkReq method ("/" +:+ Js.without "/" "/admin/" +:+ "/" +:+ rest) cookie)
            = Proxied
  | _ => False
  end.
Proof.
  destruct (createBackendProxy_returns Example.host Example.options Example.world
              eq_refl eq_refl I) as (p & w' & E).
  assert (Hin : "/admin/" ∈ array (heap Example.world) 0) by apply list_elem_of_here.
  rewrite E. split; [exact example_wf|]. split; [exact Hin|].
  exact (path_given_with_slashes_is_routed _ _ _ _ _ 0 "/admin/" E example_wf eq_refl Hin).
Defined.

Lemma standard_paths_go_before_the_last_witness :
  match createBackendProxy Example.host Example.options Example.world with
  | (Ok p, w') =>
      options_wf Example.options (heap Example.world)
      ∧ let given := Js.without "/" <$> array (heap Example.world) 0 in
        array (heap w') 0 = removelast given ++ STANDARD_PATHS ++ option_list (last given)
  | _ => False
  end.
Proof.
  destruct (createBackendProxy_returns Example.host Example.options Example.world
              eq_refl eq_refl I) as (p & w' & E).
  rewrite E. split; [exact example_wf|].
  exact (standard_paths_go_before_the_last _ _ _ _ _ 0 E example_wf eq_refl).
Defined.

Lemma other_arrays_are_left_alone_witness :
  match createBackendProxy Example.host Example.options Scenario.installed with
  | (Ok p, w') =>
      is_Some (heap Scenario.installed !! 2)
      ∧ heap w' !! 2 = heap Scenario.installed !! 2
  | _ => False
  end.
Proof.
  destruct (createBackendProxy_returns Example.host Example.options Scenario.installed
              eq_refl eq_refl I) as (p & w' & E).
  assert (Hl : is_Some (heap Scenario.installed !! 2)) by (by eexists).
  rewrite E. split; [exact Hl|].
  exact (other_arrays_are_left_alone _ _ _ _ _ 2 E Hl ltac:(discriminate) ltac:(discriminate)).
Defined.

Lemma without_origins_every_body_is_piped_witness :
  match createBackendProxy Example.host Example.options Example.world with
  | (Ok p, _) =>
      let proxyRes := mkProxyRes Absent (Some "text/html") true [] in
      let req := mkReq "GET" "/api/x" None in
      let ran := respond Example.codec (onProxyRes p 0%Z proxyRes req)
                         ["<a href=http://b1/x>"; "x</a>"] fresh_response in
      ran.1 = Ok ()
      ∧ body ran.2 = body fresh_response ++ (Bytes <$> ["<a href=http://b1/x>"; "x</a>"])
      ∧ headers ran.2 = headers fresh_response
      ∧ statusCode ran.2 = statusCode fresh_response
      ∧ finished ran.2 = true
  | _ => False
  end.
Proof.
  destruct (createBackendProxy_returns Example.host Example.options Example.world
              eq_refl eq_refl I) as (p & w' & E).
  rewrite E.
  exact (without_origins_every_body_is_piped _ _ _ _ _ Example.codec 0%Z
           (mkProxyRes Absent (Some "text/html") true []) (mkReq "GET" "/api/x" None)
           fresh_response ["<a href=http://b1/x>"; "x</a>"] E (or_introl eq_refl)
           eq_refl eq_refl eq_refl).
Defined.

Lemma corrupt_gzip_body_is_not_answered_witness :
  match createBackendProxy Example.host Example.rewriting_options Example.world with
  | (Ok p, _) =>
      let proxyRes := mkProxyRes Absent (Some "text/html") true [] in
      let req := mkReq "GET" "/" None in
      let res := mkRes 200 {["content-encoding" := "gzip"]} false [] false in
      respond Scenario.strict_codec (onProxyRes p 0%Z proxyRes req) ["not gzip"] res
      = (Throw ZlibError, res)
  | _ => False
  end.
Proof.
  assert (Hok : Forall Pattern.origin_ok ["http://internal.example"]).
  { repeat constructor. done. }
  destruct (createBackendProxy_returns Example.host Example.rewriting_options Example.world
              eq_refl eq_refl Hok) as (p & w' & E).
  rewrite E.
  exact (corrupt_gzip_body_is_not_answered _ _ _ _ _ _ _ Scenario.strict_codec 0%Z
           (mkProxyRes Absent (Some "text/html") true []) (mkReq "GET" "/" None)
           (mkRes 200 {["content-encoding" := "gzip"]} false [] false) ["not gzip"]
           "text/html" E eq_refl eq_refl eq_refl eq_refl eq_refl eq_refl eq_refl).
Defined.

Lemma secure_flag_is_cut_at_the_end_witness :
  let proxyRes := mkProxyRes (Many ["a=1; secure "; "b=2; Secure"]) None true [] in
  ∃ l',
    Hooks.onProxyRes_insecure (λ _ r _, r) 0%Z proxyRes (mkReq "GET" "/" None)
    = mkProxyRes (Many l') None true []
    ∧ length l' = 2
    ∧ ∀ i v, ["a=1; secure "; "b=2; Secure"] !! i = Some v →
        ∃ v', l' !! i = Some v'
          ∧ String.prefix v' v = true
          ∧ ∀ x ws, forallb Js.is_space (String.list_ascii_of_string ws) = true →
              v = x +:+ "secure" +:+ ws → v' = x.
Proof.
  exact (secure_flag_is_cut_at_the_end (λ _ r _, r) 0%Z
           (mkProxyRes (Many ["a=1; secure "; "b=2; Secure"]) None true [])
           (mkReq "GET" "/" None) _ eq_refl).
Defined.

Lemma page_missing :
  ∃ w', createBackendProxy Example.host Scenario.secure_options Example.world
        = (Throw (ENOENT "/app/node_modules/webpack-symmetric/server.html"), w').
Proof.
  assert (Hthrow : match (createBackendProxy Example.host Scenario.secure_options Example.world).1 with
                   | Throw (ENOENT p) =>
                       String.eqb p "/app/node_modules/webpack-symmetric/server.html"
                   | _ => false
                   end = true) by (vm_compute; reflexivity).
  destruct (createBackendProxy Example.host Scenario.secure_options Example.world) as [[p|e] w'];
    [discriminate Hthrow|].
  exists w'. cbn [fst] in Hthrow. destruct e; try discriminate Hthrow.
  apply String.eqb_eq in Hthrow. by subst.
Qed.

Lemma failed_call_has_changed_the_arrays_witness :
  match createBackendProxy Example.host Scenario.secure_options Example.world with
  | (Throw e, w') =>
      (∀ source, e ≠ SyntaxError source)
      ∧ options_wf Scenario.secure_options (heap Example.world)
      ∧ array (heap w') 0
        = Js.splice_insert_back 1 STANDARD_PATHS
            (Js.without "/" <$> array (heap Example.world) 0)
      ∧ array (heap w') 1 = Js.without "/" <$> array (heap Example.world) 1
  | _ => False
  end.
Proof.
  destruct page_missing as (w' & E). rewrite E.
  assert (He : ∀ source,
            ENOENT "/app/node_modules/webpack-symmetric/server.html" ≠ SyntaxError source)
    by discriminate.
  split; [exact He|]. split; [exact example_wf|].
  exact (failed_call_has_changed_the_arrays _ _ _ _ _ 0 1 E He example_wf eq_refl eq_refl).
Defined.

Lemma query_defeats_the_routing_witness :
  match createBackendProxy Example.host Example.options Example.world with
  | (Ok p, w') =>
      options_wf Example.options (heap Example.world)
      ∧ (∀ s, s ∈ given (heap Example.world) (paths Example.options) →
           Js.includes "?" s = false)
      ∧ Js.includes "/" "login?next=home" = false
      ∧ Js.includes "?" "login?next=home" = true
      ∧ bypass p (heap w') (mkReq "GET" ("/" +:+ "login?next=home") None)
        = Local ("/" +:+ "login?next=home")
  | _ => False
  end.
Proof.
  destruct (createBackendProxy_returns Example.host Example.options Example.world
              eq_refl eq_refl I) as (p & w' & E).
  assert (Hp : ∀ s, s ∈ given (heap Example.world) (paths Example.options) →
             Js.includes "?" s = false).
  { intros s Hs. change (s ∈ ["/admin/"; "media"]) in Hs.
    rewrite !elem_of_cons, elem_of_nil in Hs. by destruct Hs as [->|[->|[]]]. }
  rewrite E. split; [exact example_wf|]. split; [exact Hp|].
  split; [reflexivity|]. split; [reflexivity|].
  exact (query_defeats_the_routing _ _ _ _ _ "login?next=home" None E example_wf Hp
           eq_refl eq_refl).
Defined.

End StageFacts.
